(** * Hybrid retrieval and knowledge index engine: a shallow embedding

    The development follows the Python sources

    - [backend/services/bm25_search.py]      (tokenizer, BM25 engine),
    - [backend/services/hybrid_search.py]    (fusion ranker),
    - [backend/services/knowledge_indexer.py] (index manager),
    - [backend/services/advanced_parser.py]  (document identity, paging,
      chunking),
    - [backend/services/folder_manager.py]   (folder list),

    function by function.  Scores are Python floats in the source; here
    they are exact rationals ([Q]), compared with [Qle_bool]/[Qlt] and
    equated with [==]; the product of the boost factors, where rounding
    decides the largest value, is also given in binary64
    ([Hybrid.boost_float]).  Python dictionaries are [gmap]s, the set of chunk
    ids is a [gset], lists are lists. *)

From Stdlib Require Import Ascii String QArith Qminmax Lqa.
From Stdlib Require Floats.PrimFloat Floats.FloatOps Floats.SpecFloat Qabs.
From stdpp Require Import gmap strings list fin_maps sorting.

Open Scope string_scope.
Open Scope list_scope.

(** ** Python built-ins used by the sources *)

Module Py.

(** [l[:n]] for an [int] bound: a negative bound counts from the end. *)
Definition slice_to {A} (n : Z) (l : list A) : list A :=
  if (0 <=? n)%Z then take (Z.to_nat n) l
  else take (length l - Z.to_nat (- n)) l.

(** [l[n:]] for a non-negative bound. *)
Definition slice_from {A} (n : nat) (l : list A) : list A := drop n l.

(** Insertion of [x] into a list already sorted by descending key:
    [x] goes in front of the first element whose key is not larger,
    so that it stays ahead of equal elements that came after it. *)
Fixpoint insert_desc {A} (key : A -> Q) (x : A) (l : list A) : list A :=
  match l with
  | [] => [x]
  | y :: l' =>
      if Qle_bool (key y) (key x) then x :: y :: l'
      else y :: insert_desc key x l'
  end.

(** [l.sort(key=key, reverse=True)]: a stable sort by descending key
    (elements with equal keys keep their original order). *)
Fixpoint sort_desc {A} (key : A -> Q) (l : list A) : list A :=
  match l with
  | [] => []
  | x :: l' => insert_desc key x (sort_desc key l')
  end.

(** An [int] bound of a slice, clamped to the list: a negative bound
    counts from the end. *)
Definition clamp (len : nat) (i : Z) : nat :=
  if (i <? 0)%Z then Z.to_nat (Z.max 0 (Z.of_nat len + i))
  else Nat.min (Z.to_nat i) len.

(** [l[a:b]] *)
Definition slice {A} (a b : Z) (l : list A) : list A :=
  take (clamp (length l) b - clamp (length l) a) (drop (clamp (length l) a) l).

(** The order of a list sorted by descending key. *)
Definition descending {A} (key : A -> Q) : relation A :=
  fun a b => (key b <= key a)%Q.

(** [max(xs)] of a non-empty sequence given as head and tail. *)
Definition max_of (x : Q) (xs : list Q) : Q := fold_left Qmax xs x.

End Py.

(** ** Characters and regular-expression classes

    Text is a sequence of bytes ([ascii]).  On the ASCII range the
    classes below are exactly Python's [\d], [\s], [\w], [[a-z]] and
    [str.lower]; bytes above 127 (the UTF-8 encoding of other code
    points) are in none of the classes and are left alone by [lower]. *)

Module Re.

Definition code (c : ascii) : N := N_of_ascii c.

Definition in_range (lo hi : N) (c : ascii) : bool :=
  ((lo <=? code c) && (code c <=? hi))%N.

Definition is_digit : ascii -> bool := in_range 48 57.
Definition is_lower : ascii -> bool := in_range 97 122.
Definition is_upper : ascii -> bool := in_range 65 90.

Definition is_char (k : N) (c : ascii) : bool := (code c =? k)%N.

(** [\w]: letters, digits and the underscore. *)
Definition is_word (c : ascii) : bool :=
  is_digit c || is_lower c || is_upper c || is_char 95 c.

(** [\s]: tab, newline, vertical tab, form feed, carriage return,
    the separators 28..31 and the space. *)
Definition is_space (c : ascii) : bool :=
  in_range 9 13 c || in_range 28 31 c || is_char 32 c.

Definition lower_char (c : ascii) : ascii :=
  if is_upper c then ascii_of_N (code c + 32) else c.

Definition lower (s : list ascii) : list ascii := map lower_char s.

(** The longest prefix of [s] whose characters satisfy [p], and the rest. *)
Fixpoint span (p : ascii -> bool) (s : list ascii) : list ascii * list ascii :=
  match s with
  | c :: s' =>
      if p c then let '(m, r) := span p s' in (c :: m, r) else ([], s)
  | [] => ([], [])
  end.

(** [strip_prefix lit s]: the rest of [s] after the literal [lit]. *)
Fixpoint strip_prefix (lit s : list ascii) : option (list ascii) :=
  match lit, s with
  | [], _ => Some s
  | a :: lit', b :: s' =>
      if Ascii.eqb a b then strip_prefix lit' s' else None
  | _ :: _, [] => None
  end.

(** What [\d*(?:\.\d+)*] matches greedily at the head of [s]: digits,
    and dots that are followed by a digit. *)
Fixpoint number_tail (s : list ascii) : list ascii :=
  match s with
  | c :: s' =>
      if is_digit c then c :: number_tail s'
      else if is_char 46 c then
        match s' with
        | d :: _ => if is_digit d then c :: number_tail s' else []
        | [] => []
        end
      else []
  | [] => []
  end.

(** [\d+(?:\.\d+)*] at the head of [s]. *)
Definition dotted_number (s : list ascii) : option (list ascii) :=
  match s with
  | c :: s' => if is_digit c then Some (c :: number_tail s') else None
  | [] => None
  end.

(** A matcher tries the pattern at one position: it sees the character
    before the position (for [\b]) and the text from the position on,
    and answers the replacement text and the length of the match. *)
Definition matcher := option ascii -> list ascii -> option (list ascii * nat).

(** [re.sub]: left to right, non-overlapping.  [skip] counts the
    characters of the current match that are still to be dropped. *)
Fixpoint sub_go (m : matcher) (skip : nat) (prev : option ascii)
    (s : list ascii) : list ascii :=
  match s with
  | [] => []
  | c :: s' =>
      match skip with
      | S k => sub_go m k (Some c) s'
      | O =>
          match m prev s with
          | Some (repl, S k) => repl ++ sub_go m k (Some c) s'
          | _ => c :: sub_go m 0 (Some c) s'
          end
      end
  end.

Definition sub (m : matcher) (s : list ascii) : list ascii :=
  sub_go m 0 None s.

(** [re.findall(r'\b[\w_]+\b', s)]: the maximal runs of word characters.
    [cur] is the run being read, in reverse. *)
Fixpoint word_runs (cur : list ascii) (s : list ascii) : list (list ascii) :=
  match s with
  | [] => match cur with [] => [] | _ => [rev cur] end
  | c :: s' =>
      if is_word c then word_runs (c :: cur) s'
      else
        match cur with
        | [] => word_runs [] s'
        | _ => rev cur :: word_runs [] s'
        end
  end.

(** [needle in haystack] for strings. *)
Fixpoint contains (needle s : list ascii) : bool :=
  match strip_prefix needle s with
  | Some _ => true
  | None => match s with [] => false | _ :: s' => contains needle s' end
  end.

End Re.

(** ** String methods *)

Module Str.

(** [s.split(sep)] for a non-empty separator.  [skip] counts the
    characters of the separator just found that are still to be dropped,
    [cur] is the piece being read, in reverse. *)
Fixpoint split_go (sep : list ascii) (skip : nat) (cur : list ascii)
    (s : list ascii) : list (list ascii) :=
  match s with
  | [] => [rev cur]
  | c :: s' =>
      match skip with
      | S k => split_go sep k cur s'
      | O =>
          match Re.strip_prefix sep s with
          | Some _ => rev cur :: split_go sep (length sep - 1) [] s'
          | None => split_go sep 0 (c :: cur) s'
          end
      end
  end.

Definition split (sep s : list ascii) : list (list ascii) := split_go sep 0 [] s.

(** [sep.join(parts)] *)
Fixpoint join (sep : list ascii) (parts : list (list ascii)) : list ascii :=
  match parts with
  | [] => []
  | p :: ps =>
      match ps with
      | [] => p
      | _ :: _ => p ++ sep ++ join sep ps
      end
  end.

Fixpoint lstrip (s : list ascii) : list ascii :=
  match s with
  | c :: s' => if Re.is_space c then lstrip s' else s
  | [] => []
  end.

(** [s.strip()] *)
Definition strip (s : list ascii) : list ascii := rev (lstrip (rev (lstrip s))).

(** [s.rfind(sub)] for a non-empty [sub]: the last index where [sub]
    starts, or -1. *)
Fixpoint rfind_go (sub s : list ascii) (i : nat) (best : Z) : Z :=
  match s with
  | [] => best
  | _ :: s' =>
      rfind_go sub s' (S i)
        (match Re.strip_prefix sub s with Some _ => Z.of_nat i | None => best end)
  end.

Definition rfind (sub s : list ascii) : Z := rfind_go sub s 0 (-1).

Definition newline : list ascii := [ascii_of_N 10].
Definition period_space : list ascii := [ascii_of_N 46; ascii_of_N 32].

End Str.

(** ** The tokenizer ([BM25SearchEngine.tokenize]) *)

Module Tokenizer.
Import Re.

Definition chars (s : string) : list ascii := list_ascii_of_string s.
Definition str (l : list ascii) : string := string_of_list_ascii l.

Definition stop_words : list string :=
  ["a"; "an"; "and"; "are"; "as"; "at"; "be"; "by"; "for";
   "from"; "has"; "he"; "in"; "is"; "it"; "its"; "of"; "on";
   "that"; "the"; "to"; "was"; "will"; "with"].

(** The literal that opens the first pattern, as it is stored in the
    source file: the code points U+0E22 U+0E07, here in UTF-8. *)
Definition section_sign : list ascii :=
  map ascii_of_N [224; 184; 162; 224; 184; 135]%N.

(** The sign, then [\s*], then the group [\d+(?:\.\d+)*]; the
    replacement is [section_\1]. *)
Definition sign_section : matcher := fun _ s =>
  match strip_prefix section_sign s with
  | Some r =>
      let '(ws, r') := span is_space r in
      match dotted_number r' with
      | Some num =>
          Some (chars "section_" ++ num,
                length section_sign + length ws + length num)
      | None => None
      end
  | None => None
  end.

(** [\bsection\s+], then the group [\d+(?:\.\d+)*]; the replacement
    is [section_\1]. *)
Definition word_section : matcher := fun prev s =>
  let boundary := match prev with Some p => negb (is_word p) | None => true end in
  if boundary then
    match strip_prefix (chars "section") s with
    | Some r =>
        let '(ws, r') := span is_space r in
        match ws, dotted_number r' with
        | _ :: _, Some num =>
            Some (chars "section_" ++ num, 7 + length ws + length num)
        | _, _ => None
        end
    | None => None
    end
  else None.

(** [\$\s*], then the group [[\d,]+(?:\.\d+)?]; replaced by [usd_]
    and the group without its commas. *)
Definition money : matcher := fun _ s =>
  match s with
  | c :: r =>
      if is_char 36 c then
        let '(ws, r1) := span is_space r in
        let '(body, r2) := span (fun x => is_digit x || is_char 44 x) r1 in
        match body with
        | [] => None
        | _ :: _ =>
            let frac :=
              match r2 with
              | d :: r3 =>
                  if is_char 46 d then
                    match fst (span is_digit r3) with
                    | [] => []
                    | ds => d :: ds
                    end
                  else []
              | [] => []
              end in
            Some (chars "usd_"
                  ++ List.filter (fun x => negb (is_char 44 x)) (body ++ frac),
                  1 + length ws + length body + length frac)
        end
      else None
  | [] => None
  end.

(** [([a-z]+)-([a-z]+)] replaced by [\1_\2]. *)
Definition hyphen : matcher := fun _ s =>
  let '(w1, r) := span is_lower s in
  match w1, r with
  | _ :: _, c :: r' =>
      if is_char 45 c then
        match fst (span is_lower r') with
        | [] => None
        | w2 => Some (w1 ++ chars "_" ++ w2, length w1 + 1 + length w2)
        end
      else None
  | _, _ => None
  end.

(** The stop-word test of the list comprehension: a token stays when it
    is no stop word, or is longer than 3, or holds an underscore. *)
Definition keep_token (t : string) : bool :=
  negb (bool_decide (t ∈ stop_words))
  || (3 <? String.length t)%nat
  || existsb (is_char 95) (chars t).

Definition tokenize (text : string) : list string :=
  let text := lower (chars text) in
  let text := sub sign_section text in
  let text := sub word_section text in
  let text := sub money text in
  (* the years found by [re.findall] are not used by the source *)
  let text := sub hyphen text in
  let tokens := map str (word_runs [] text) in
  List.filter keep_token tokens.

End Tokenizer.

(** ** Data model ([backend/models/knowledge_schema.py]) *)

Inductive DocType :=
  CONTRACT | NDA | POLICY | AGREEMENT | LICENSE | MEMO | BRIEF | OPINION
| REGULATION | STATUTE | CASE_LAW | OTHER_TYPE.

Inductive Jurisdiction :=
  FEDERAL | CALIFORNIA | NEW_YORK | TEXAS | FLORIDA | ILLINOIS | OTHER_JURISDICTION.

Inductive DocumentVersion := DRAFT | REDLINE | SIGNED | EXECUTED | ARCHIVED.

#[global] Instance DocType_eq_dec : EqDecision DocType.
Proof. solve_decision. Defined.
#[global] Instance Jurisdiction_eq_dec : EqDecision Jurisdiction.
Proof. solve_decision. Defined.
#[global] Instance DocumentVersion_eq_dec : EqDecision DocumentVersion.
Proof. solve_decision. Defined.

(** A point in time ([datetime]) is a count of microseconds. *)
Definition datetime := Z.

(** A resolved absolute path is the list of its components. *)
Definition path := list string.

Record EnrichedChunk := {
  chunk_id : string;
  doc_id : string;
  text : string;
  is_header : bool;
  is_definition : bool;
  contains_dates : bool;
  contains_money : bool
}.

(** The fields of a [StructuredDocument] live in the module [Doc], so
    that [Doc.doc_id] and [Doc.chunks] keep the names of the source. *)
Module Doc.
Record t := {
  doc_id : string;
  file_path : path;
  file_hash : string;
  source_folder : option path;
  doctype : DocType;
  jurisdiction : Jurisdiction;
  parties : list string;
  effective_date : option datetime;
  version : DocumentVersion;
  chunks : list EnrichedChunk
}.
End Doc.
Abbreviation StructuredDocument := Doc.t.

Record SearchQuery := {
  text_query : string;
  required_terms : list string;
  excluded_terms : list string;
  doctypes : option (list DocType);
  jurisdictions : option (list Jurisdiction);
  date_range : option (datetime * datetime);
  parties : option (list string);
  boost_recent : bool;
  boost_headers : bool;
  boost_signed_docs : bool;
  top_k : Z
}.

(** Truth value of an [Optional[List]]: neither [None] nor empty. *)
Definition truthy {A} (o : option (list A)) : bool :=
  match o with Some (_ :: _) => true | _ => false end.

Definition Qpositive (x : Q) : bool := negb (Qle_bool x 0).

Definition lower_str (s : string) : string :=
  Tokenizer.str (Re.lower (Tokenizer.chars s)).

(** ** Exceptions

    The few places where the sources can raise, or catch, are modelled
    with an outcome: a returned value or a raised exception. *)

Inductive exn := IndexError | ZeroDivisionError | ExternalError.

Inductive outcome (A : Type) :=
| Returned (a : A)
| Raised (e : exn).
Arguments Returned {A} a.
Arguments Raised {A} e.

Definition obind {A B} (x : outcome A) (f : A -> outcome B) : outcome B :=
  match x with
  | Returned a => f a
  | Raised e => Raised e
  end.

#[global] Instance outcome_ret : MRet outcome := @Returned.
#[global] Instance outcome_bind : MBind outcome :=
  fun A B f x => obind x f.

(** [[f(i, x) for i, x in enumerate(l)]] where [f] may raise. *)
Fixpoint for_enumerate {A B} (f : nat -> A -> outcome B) (i : nat) (l : list A)
  : outcome (list B) :=
  match l with
  | [] => Returned []
  | x :: l' =>
      y ← f i x;
      ys ← for_enumerate f (S i) l';
      Returned (y :: ys)
  end.

(** ** The lexical index ([BM25SearchEngine]) *)

Module BM25.

(** The fitted [BM25Okapi] object answers [get_scores]: one score per
    indexed chunk, in corpus order. *)
Definition BM25Okapi := list string -> list Q.

Record engine := {
  bm25_index : option BM25Okapi;
  chunks : list EnrichedChunk;
  documents : gmap string StructuredDocument;
  tokenized_corpus : list (list string)
}.

Definition empty : engine :=
  {| bm25_index := None; chunks := []; documents := ∅; tokenized_corpus := [] |}.

Section Build.
(** The scoring function of [rank_bm25]: the score of one document of
    the corpus for a query, given the corpus it was fitted on. *)
Variable okapi : list (list string) -> list string -> list string -> Q.

Definition fit (corpus : list (list string)) : BM25Okapi :=
  fun query_tokens => map (okapi corpus query_tokens) corpus.

(** [BM25Okapi(corpus)] divides the sum of the idf values by the number
    of distinct terms of the corpus: it raises [ZeroDivisionError] when
    no document of the corpus holds a token. *)
Definition fit_raises (corpus : list (list string)) : bool :=
  forallb (fun tokens => match tokens with [] => true | _ :: _ => false end) corpus.

(** The engine that [build_index] leaves behind when the fit does not
    raise. *)
Definition built (docs : list StructuredDocument) : engine :=
  let documents := foldl (fun m d => <[Doc.doc_id d := d]> m) ∅ docs in
  let chunks := flat_map (fun d => Doc.chunks d) docs in
  let corpus := map (fun c => Tokenizer.tokenize (text c)) chunks in
  {| bm25_index := match corpus with [] => None | _ => Some (fit corpus) end;
     chunks := chunks;
     documents := documents;
     tokenized_corpus := corpus |}.

(** [build_index] on the engine [e]: the chunks, the documents and the
    token lists are replaced first, then the scorer is fitted.  When the
    fit raises, the exception leaves the method with the scorer of [e]
    still in place beside the new chunks.  The cached term frequencies
    written into each chunk are not read by any search and are left
    out. *)
Definition build_index (docs : list StructuredDocument) (e : engine)
  : outcome unit * engine :=
  let documents := foldl (fun m d => <[Doc.doc_id d := d]> m) ∅ docs in
  let chunks := flat_map (fun d => Doc.chunks d) docs in
  let corpus := map (fun c => Tokenizer.tokenize (text c)) chunks in
  match corpus with
  | [] =>
      (Returned tt,
       {| bm25_index := None; chunks := chunks; documents := documents;
          tokenized_corpus := corpus |})
  | _ :: _ =>
      if fit_raises corpus
      then (Raised ZeroDivisionError,
            {| bm25_index := bm25_index e; chunks := chunks;
               documents := documents; tokenized_corpus := corpus |})
      else (Returned tt,
            {| bm25_index := Some (fit corpus); chunks := chunks;
               documents := documents; tokenized_corpus := corpus |})
  end.
End Build.

(** [build_index] raises on these documents: they have chunks, and no
    chunk holds a token. *)
Definition build_raises (docs : list StructuredDocument) : bool :=
  match flat_map (fun d => Doc.chunks d) docs with
  | [] => false
  | cs => fit_raises (map (fun c => Tokenizer.tokenize (text c)) cs)
  end.

(** The loop body of [search]: the document filter, then the sign test. *)
Definition admits (filter_doc_ids : option (list string))
    (r : EnrichedChunk * Q) : bool :=
  negb (truthy filter_doc_ids
        && negb (bool_decide (doc_id r.1 ∈ default [] filter_doc_ids)))
  && Qpositive r.2.

(** The scorer answers no more scores than the engine has chunks, as
    after every [build_index] that returned.  A [build_index] that
    raised can leave a scorer fitted on a longer corpus; [search] then
    raises [IndexError] at [self.chunks[idx]]. *)
Definition aligned (e : engine) : Prop :=
  ∀ idx query_tokens,
    bm25_index e = Some idx → (length (idx query_tokens) ≤ length (chunks e))%nat.

(** [enumerate(scores)] paired with [self.chunks[idx]], on an engine
    that is [aligned]; on a built index there is one score per chunk. *)
Definition scored (e : engine) (idx : BM25Okapi) (query_tokens : list string)
  : list (EnrichedChunk * Q) :=
  zip (chunks e) (idx query_tokens).

(** [search], on an engine that is [aligned]. *)
Definition search (e : engine) (query : string) (top_k : Z)
    (filter_doc_ids : option (list string)) : list (EnrichedChunk * Q) :=
  match bm25_index e, chunks e with
  | Some idx, _ :: _ =>
      match Tokenizer.tokenize query with
      | [] => []
      | query_tokens =>
          let results := List.filter (admits filter_doc_ids)
                           (scored e idx query_tokens) in
          Py.slice_to top_k (Py.sort_desc snd results)
      end
  | _, _ => []
  end.

(** The read [self.chunks[idx]] of the loop, which raises past the end
    of the chunk list, and [search] with that read: on an engine that is
    [aligned] it returns what [search] gives. *)
Definition chunk_at (e : engine) (i : nat) : outcome EnrichedChunk :=
  match chunks e !! i with
  | Some c => Returned c
  | None => Raised IndexError
  end.

Definition search_outcome (e : engine) (query : string) (top_k : Z)
    (filter_doc_ids : option (list string))
  : outcome (list (EnrichedChunk * Q)) :=
  match bm25_index e, chunks e with
  | Some idx, _ :: _ =>
      match Tokenizer.tokenize query with
      | [] => Returned []
      | query_tokens =>
          pairs ← for_enumerate
                    (fun i score => chunk ← chunk_at e i; Returned (chunk, score))
                    0 (idx query_tokens);
          Returned
            (Py.slice_to top_k
               (Py.sort_desc snd (List.filter (admits filter_doc_ids) pairs)))
      end
  | _, _ => Returned []
  end.

(** Every chunk of a built index paired with its BM25 score for the
    query tokens. *)
Definition scored_chunks
    (okapi : list (list string) -> list string -> list string -> Q)
    (cs : list EnrichedChunk) (query_tokens : list string)
  : list (EnrichedChunk * Q) :=
  let corpus := map (fun c => Tokenizer.tokenize (text c)) cs in
  map (fun c => (c, okapi corpus query_tokens (Tokenizer.tokenize (text c)))) cs.

Definition party_matches (d : StructuredDocument) (ps : list string) : bool :=
  existsb (fun party =>
             bool_decide (lower_str party ∈ map lower_str (Doc.parties d))) ps.

Definition in_date_range (d : StructuredDocument) (r : datetime * datetime) : bool :=
  match Doc.effective_date d with
  | Some t => (r.1 <=? t)%Z && (t <=? r.2)%Z
  | None => false
  end.

(** [_apply_filters].  The ids come out in the order of the map's
    listing; callers only test membership and emptiness. *)
Definition apply_filters (e : engine) (q : SearchQuery) : option (list string) :=
  let candidate_docs := (map_to_list (documents e)).*2 in
  let candidate_docs :=
    if truthy (doctypes q)
    then List.filter (fun d => bool_decide (Doc.doctype d ∈ default [] (doctypes q)))
           candidate_docs
    else candidate_docs in
  let candidate_docs :=
    if truthy (jurisdictions q)
    then List.filter (fun d => bool_decide (Doc.jurisdiction d ∈ default [] (jurisdictions q)))
           candidate_docs
    else candidate_docs in
  let candidate_docs :=
    match date_range q with
    | Some r => List.filter (fun d => in_date_range d r) candidate_docs
    | None => candidate_docs
    end in
  let candidate_docs :=
    if truthy (parties q)
    then List.filter (fun d => party_matches d (default [] (parties q))) candidate_docs
    else candidate_docs in
  if (length candidate_docs <? size (documents e))%nat
  then Some (map Doc.doc_id candidate_docs)
  else None.

(** [" ".join(ts)] *)
Fixpoint join_terms (ts : list string) : string :=
  match ts with
  | [] => ""
  | t :: ts' =>
      match ts' with
      | [] => t
      | _ :: _ => t +:+ " " +:+ join_terms ts'
      end
  end.

Definition excluded (excluded_tokens : list string) (c : EnrichedChunk) : bool :=
  existsb (fun token => bool_decide (token ∈ Tokenizer.tokenize (text c)))
          excluded_tokens.

Definition search_with_filters (e : engine) (q : SearchQuery)
  : list (EnrichedChunk * Q) :=
  let candidate_doc_ids := apply_filters e q in
  let query_text :=
    match required_terms q with
    | [] => text_query q
    | ts => text_query q +:+ " " +:+ join_terms ts
    end in
  let results :=
    search e query_text (top_k q * 2)
           (if truthy candidate_doc_ids then candidate_doc_ids else None) in
  match excluded_terms q with
  | [] => results
  | terms =>
      let excluded_tokens := flat_map Tokenizer.tokenize terms in
      List.filter (fun r => negb (excluded excluded_tokens r.1)) results
  end.

Definition get_document (e : engine) (id : string) : option StructuredDocument :=
  documents e !! id.

(** [get_chunk_context] *)
Definition get_chunk_context (e : engine) (c : EnrichedChunk) (context_chunks : Z)
  : list EnrichedChunk :=
  match documents e !! doc_id c with
  | None => [c]
  | Some doc =>
      match list_find (fun x => chunk_id x = chunk_id c) (Doc.chunks doc) with
      | None => [c]
      | Some (chunk_idx, _) =>
          let start_idx := Z.max 0 (Z.of_nat chunk_idx - context_chunks) in
          let end_idx :=
            Z.min (Z.of_nat (length (Doc.chunks doc)))
                  (Z.of_nat chunk_idx + context_chunks + 1) in
          Py.slice start_idx end_idx (Doc.chunks doc)
      end
  end.

(** A document passes the filters of a query that are switched on. *)
Definition passes (q : SearchQuery) (d : StructuredDocument) : bool :=
  (negb (truthy (doctypes q))
   || bool_decide (Doc.doctype d ∈ default [] (doctypes q)))
  && (negb (truthy (jurisdictions q))
      || bool_decide (Doc.jurisdiction d ∈ default [] (jurisdictions q)))
  && match date_range q with Some r => in_date_range d r | None => true end
  && (negb (truthy (parties q)) || party_matches d (default [] (parties q))).

(** The query with its four document filters taken away. *)
Definition without_filters (q : SearchQuery) : SearchQuery :=
  {| text_query := text_query q; required_terms := required_terms q;
     excluded_terms := excluded_terms q;
     doctypes := None; jurisdictions := None; date_range := None;
     parties := None;
     boost_recent := boost_recent q; boost_headers := boost_headers q;
     boost_signed_docs := boost_signed_docs q; top_k := top_k q |}.

End BM25.

(** ** The fusion ranker ([HybridSearchEngine]) *)

Module Hybrid.
Import Floats.PrimFloat.
Local Open Scope Q_scope.

(** The five-tuples that travel through the pipeline:
    [(chunk, bm25, vec, boost, score)]. *)
Record row := {
  chunk : EnrichedChunk;
  bm25 : Q;
  vec : Q;
  boost : Q;
  score : Q
}.

Record SearchResult := {
  sr_chunk : EnrichedChunk;
  document : StructuredDocument;
  bm25_score : Q;
  vector_score : Q;
  metadata_boost : Q;
  final_score : Q
}.

(** [vector_engine.vector_search(query_text, top_k, filter_doc_ids)] *)
Definition vector_search_fn :=
  string -> Z -> option (list string) -> outcome (list (EnrichedChunk * Q)).

(** [cross_encoder.predict(pairs)] *)
Definition predict_fn := list (string * string) -> outcome (list Q).

Record engine := {
  bm25_engine : BM25.engine;
  vector_engine : vector_search_fn;
  cross_encoder : option predict_fn
}.

Definition bm25_weight : Q := 0.4.
Definition vector_weight : Q := 0.6.

Definition boost_is_header : Q := 1.3.
Definition boost_is_definition : Q := 1.2.
Definition boost_contains_dates : Q := 1.1.
Definition boost_contains_money : Q := 1.1.
Definition boost_signed_doc : Q := 1.3.
Definition boost_recent_doc : Q := 1.2.

(** [_vector_search_with_filters]: an exception of the vector engine is
    caught and answered with the empty list. *)
Definition vector_search_with_filters (h : engine) (q : SearchQuery)
  : list (EnrichedChunk * Q) :=
  let candidate_doc_ids := BM25.apply_filters (bm25_engine h) q in
  match vector_engine h (text_query q) (top_k q * 2)%Z candidate_doc_ids with
  | Returned results => results
  | Raised _ => []
  end.

(** One side of the fusion: scores divided by the side's maximum, in a
    dictionary keyed by chunk id (a later entry of the same id replaces
    an earlier one). *)
Definition scaled (max_score s : Q) : Q :=
  if Qpositive max_score then s / max_score else 0.

(** One entry of the dictionary comprehension. *)
Definition put (max_score : Q) (m : gmap string (EnrichedChunk * Q))
    (r : EnrichedChunk * Q) : gmap string (EnrichedChunk * Q) :=
  <[chunk_id r.1 := (r.1, scaled max_score r.2)]> m.

Definition normalized (results : list (EnrichedChunk * Q))
  : gmap string (EnrichedChunk * Q) :=
  match results with
  | [] => ∅
  | r0 :: rest =>
      let max_score := Py.max_of r0.2 rest.*2 in
      foldl (put max_score) ∅ results
  end.

(** The maximum that [normalized] divides by. *)
Definition side_max (results : list (EnrichedChunk * Q)) : Q :=
  match results with
  | [] => 0
  | r0 :: rest => Py.max_of r0.2 rest.*2
  end.

(** [d.get(chunk_id, (None, 0.0))[1]] *)
Definition side_score (d : gmap string (EnrichedChunk * Q)) (id : string) : Q :=
  match d !! id with
  | Some r => r.2
  | None => 0
  end.

(** The sentence loop of [_extract_highlights]: [room] highlights may
    still be added before the loop breaks. *)
Fixpoint collect_highlights (room : nat) (matches : list string)
    (sentences : list (list ascii)) : list string :=
  match room, sentences with
  | O, _ => []
  | _, [] => []
  | S room', sentence :: rest =>
      if existsb (fun t => bool_decide (t ∈ matches))
           (Tokenizer.tokenize (Tokenizer.str sentence))
      then Tokenizer.str (Str.strip sentence) :: collect_highlights room' matches rest
      else collect_highlights room matches rest
  end.

(** [chunk.text[:200] + "..."] *)
Definition snippet (c : EnrichedChunk) : string :=
  String.substring 0 200 (text c) +:+ "...".

(** [_extract_highlights] *)
Definition extract_highlights (c : EnrichedChunk) (q : SearchQuery) : list string :=
  let query_tokens := Tokenizer.tokenize (text_query q) in
  let chunk_tokens := Tokenizer.tokenize (text c) in
  let matches := List.filter (fun t => bool_decide (t ∈ chunk_tokens)) query_tokens in
  match matches with
  | [] => [snippet c]
  | _ :: _ =>
      let sentences := Str.split Str.period_space (Tokenizer.chars (text c)) in
      match collect_highlights 3 matches sentences with
      | [] => [snippet c]
      | highlights => highlights
      end
  end.

(** The engine with its reranker taken away. *)
Definition without_reranker (h : engine) : engine :=
  {| bm25_engine := bm25_engine h; vector_engine := vector_engine h;
     cross_encoder := None |}.


(** The chunks of the rows are among the chunks [cs]. *)
Definition rows_within (cs : list EnrichedChunk) (rows : list row) : Prop :=
  ∀ r, r ∈ rows → chunk r ∈ cs.

(** The fused score that [_reciprocal_rank_fusion] gives to a chunk id. *)
Definition fused_score (bm25_results vector_results : list (EnrichedChunk * Q))
    (id : string) : Q :=
  bm25_weight * side_score (normalized bm25_results) id
  + vector_weight * side_score (normalized vector_results) id.

Section Fusion.
(** The order in which Python iterates over the set of chunk ids. *)
Variable iteration : gset string -> list string.

(** [_reciprocal_rank_fusion] (the parameter [k] is not used by the
    source).  [chunk_map] takes the chunk of the lexical side when the
    id is there, and the one of the semantic side otherwise; an id
    without a chunk would be a [KeyError] and yields no row. *)
Definition reciprocal_rank_fusion
    (bm25_results vector_results : list (EnrichedChunk * Q)) : list row :=
  let bm25_normalized := normalized bm25_results in
  let vector_normalized := normalized vector_results in
  let all_chunk_ids : gset string :=
    dom bm25_normalized ∪ dom vector_normalized in
  let chunk_map : gmap string EnrichedChunk :=
    (fst <$> bm25_normalized) ∪ (fst <$> vector_normalized) in
  let fused :=
    omap (fun id =>
            c ← chunk_map !! id;
            let bm25_score := side_score bm25_normalized id in
            let vector_score := side_score vector_normalized id in
            let combined_score :=
              bm25_weight * bm25_score + vector_weight * vector_score in
            Some {| chunk := c; bm25 := bm25_score; vec := vector_score;
                    boost := 0; score := combined_score |})
         (iteration all_chunk_ids) in
  Py.sort_desc score fused.

(** The clock read by [datetime.now()]. *)
Variable now : datetime.

Definition microseconds_per_day : Z := 86400000000.

Definition mentions (needle : string) (s : string) : bool :=
  Re.contains (Tokenizer.chars needle) (Tokenizer.chars s).

Definition boost_for (h : engine) (q : SearchQuery) (c : EnrichedChunk) : Q :=
  let b := 1 in
  let b := if boost_headers q && is_header c then b * boost_is_header else b in
  let b := if is_definition c then b * boost_is_definition else b in
  let b :=
    if contains_dates c
       && (mentions "date" (lower_str (text_query q))
           || mentions "when" (lower_str (text_query q)))
    then b * boost_contains_dates else b in
  let b :=
    if contains_money c
       && (mentions "$" (text_query q)
           || mentions "pay" (lower_str (text_query q)))
    then b * boost_contains_money else b in
  match BM25.get_document (bm25_engine h) (doc_id c) with
  | Some doc =>
      let b :=
        if boost_signed_docs q
           && bool_decide (Doc.version doc ∈ [SIGNED; EXECUTED])
        then b * boost_signed_doc else b in
      match Doc.effective_date doc with
      | Some effective =>
          if boost_recent q
             && ((now - effective) / microseconds_per_day <? 365)%Z
          then b * boost_recent_doc else b
      | None => b
      end
  | None => b
  end.

(** The six tests of [_apply_metadata_boosting], in the order in which
    the loop makes them. *)
Record boost_flags := {
  on_header : bool;
  on_definition : bool;
  on_dates : bool;
  on_money : bool;
  on_signed : bool;
  on_recent : bool
}.

Definition flags_for (h : engine) (q : SearchQuery) (c : EnrichedChunk)
  : boost_flags :=
  let doc := BM25.get_document (bm25_engine h) (doc_id c) in
  {| on_header := boost_headers q && is_header c;
     on_definition := is_definition c;
     on_dates :=
       contains_dates c
       && (mentions "date" (lower_str (text_query q))
           || mentions "when" (lower_str (text_query q)));
     on_money :=
       contains_money c
       && (mentions "$" (text_query q)
           || mentions "pay" (lower_str (text_query q)));
     on_signed :=
       match doc with
       | Some d =>
           boost_signed_docs q && bool_decide (Doc.version d ∈ [SIGNED; EXECUTED])
       | None => false
       end;
     on_recent :=
       match doc with
       | Some d =>
           match Doc.effective_date d with
           | Some effective =>
               boost_recent q
               && ((now - effective) / microseconds_per_day <? 365)%Z
           | None => false
           end
       | None => false
       end |}.

(** The boost of a chunk as the loop computes it in binary64: [boost]
    starts at [1.0] and is multiplied by one factor per test that
    holds.  The factors are the doubles nearest to the decimal
    constants. *)
#[local] Set Warnings "-inexact-float".
Definition boost_float (f : boost_flags) : PrimFloat.float :=
  let b := 1%float in
  let b := if on_header f then PrimFloat.mul b 1.3%float else b in
  let b := if on_definition f then PrimFloat.mul b 1.2%float else b in
  let b := if on_dates f then PrimFloat.mul b 1.1%float else b in
  let b := if on_money f then PrimFloat.mul b 1.1%float else b in
  let b := if on_signed f then PrimFloat.mul b 1.3%float else b in
  if on_recent f then PrimFloat.mul b 1.2%float else b.

(** The same product in exact arithmetic. *)
Definition boost_exact (f : boost_flags) : Q :=
  let b := 1 in
  let b := if on_header f then b * boost_is_header else b in
  let b := if on_definition f then b * boost_is_definition else b in
  let b := if on_dates f then b * boost_contains_dates else b in
  let b := if on_money f then b * boost_contains_money else b in
  let b := if on_signed f then b * boost_signed_doc else b in
  if on_recent f then b * boost_recent_doc else b.

(** The rational number that a finite double stands for. *)
Definition float_value (x : PrimFloat.float) : Q :=
  match FloatOps.Prim2SF x with
  | SpecFloat.S754_finite false m e => inject_Z (Z.pos m) * Qpower 2 e
  | SpecFloat.S754_finite true m e => - (inject_Z (Z.pos m) * Qpower 2 e)
  | _ => 0
  end.

(** All six tests hold. *)
Definition all_boosts : boost_flags :=
  {| on_header := true; on_definition := true; on_dates := true;
     on_money := true; on_signed := true; on_recent := true |}.

(** [_apply_metadata_boosting] *)
Definition apply_metadata_boosting (h : engine) (results : list row)
    (q : SearchQuery) : list row :=
  let boosted :=
    map (fun r =>
           let b := boost_for h q (chunk r) in
           {| chunk := chunk r; bm25 := bm25 r; vec := vec r;
              boost := b; score := score r * b |})
        results in
  Py.sort_desc score boosted.

(** [_cross_encoder_rerank]: an exception of [predict] is caught;
    reading [ce_scores[idx]] past the end is not. *)
Definition cross_encoder_rerank (h : engine) (query : string)
    (results : list row) : outcome (list row) :=
  match cross_encoder h with
  | None => Returned results
  | Some predict =>
      let pairs := map (fun r => (query, text (chunk r))) results in
      match predict pairs with
      | Raised _ => Returned results
      | Returned ce_scores =>
          reranked ←
            for_enumerate
              (fun idx r =>
                 match ce_scores !! idx with
                 | Some ce_score =>
                     Returned {| chunk := chunk r; bm25 := bm25 r;
                                 vec := vec r; boost := boost r;
                                 score := 0.7 * ce_score + 0.3 * score r |}
                 | None => Raised IndexError
                 end)
              0 results;
          Returned (Py.sort_desc score reranked)
      end
  end.

(** Stage 5 of [search]: rerank the head of at most 20 rows, keep the
    tail as it is. *)
Definition rerank_stage (h : engine) (q : SearchQuery)
    (boosted_results : list row) : outcome (list row) :=
  match cross_encoder h, boosted_results with
  | Some _, _ :: _ =>
      let top_k_for_rerank := Nat.min 20 (length boosted_results) in
      reranked_results ←
        cross_encoder_rerank h (text_query q)
          (take top_k_for_rerank boosted_results);
      Returned (reranked_results
                  ++ Py.slice_from top_k_for_rerank boosted_results)
  | _, _ => Returned boosted_results
  end.

(** The normalization of [search]: divide by the score of the first
    row when that score is positive. *)
Definition normalize_results (final_results : list row) : list row :=
  match final_results with
  | [] => []
  | r0 :: _ =>
      let max_score := score r0 in
      if Qpositive max_score then
        map (fun r => {| chunk := chunk r; bm25 := bm25 r; vec := vec r;
                         boost := boost r; score := score r / max_score |})
            final_results
      else final_results
  end.

(** The conversion loop of [search]: rows whose document is unknown
    are skipped.  The highlights of a result are presentation only
    and are left out. *)
Definition to_results (h : engine) (normalized_results : list row)
  : list SearchResult :=
  omap (fun r =>
          doc ← BM25.get_document (bm25_engine h) (doc_id (chunk r));
          Some {| sr_chunk := chunk r; document := doc;
                  bm25_score := bm25 r; vector_score := vec r;
                  metadata_boost := boost r; final_score := score r |})
       normalized_results.

Definition is_above (score_threshold : Q) (r : SearchResult) : bool :=
  Qle_bool score_threshold (final_score r).

(** The selection at the end of [search]. *)
Definition select_results (score_threshold : Q) (min_results max_results : Z)
    (strict_threshold : bool) (results : list SearchResult)
  : list SearchResult :=
  let above_threshold := List.filter (is_above score_threshold) results in
  let below_threshold :=
    List.filter (fun r => negb (is_above score_threshold r)) results in
  if strict_threshold then Py.slice_to max_results above_threshold
  else if (min_results <=? Z.of_nat (length above_threshold))%Z then
    Py.slice_to max_results above_threshold
  else
    let needed :=
      Z.min (min_results - Z.of_nat (length above_threshold))
            (Z.of_nat (length below_threshold)) in
    Py.slice_to max_results
      (above_threshold ++ Py.slice_to needed below_threshold).


(** The final scores of an answer, as reduced fractions. *)
Definition final_scores (o : outcome (list SearchResult)) : outcome (list Q) :=
  res ← o; Returned (map (fun r => Qred (final_score r)) res).

(** Stages 3 to 5 and the normalization, from the two candidate lists. *)
Definition rank (h : engine) (q : SearchQuery)
    (bm25_results vector_results : list (EnrichedChunk * Q))
  : outcome (list row) :=
  let fused_results := reciprocal_rank_fusion bm25_results vector_results in
  let boosted_results := apply_metadata_boosting h fused_results q in
  final_results ← rerank_stage h q boosted_results;
  Returned (normalize_results final_results).

(** [search].  Stage 1 takes the lexical candidates of
    [BM25.search_with_filters], the lexical search on an index that is
    [BM25.aligned]; on an index that is not, the source raises
    [IndexError] in stage 1 (see [BM25.search_outcome]). *)
Definition search (h : engine) (q : SearchQuery) (score_threshold : Q)
    (min_results max_results : Z) (strict_threshold : bool)
  : outcome (list SearchResult) :=
  let bm25_results := BM25.search_with_filters (bm25_engine h) q in
  let vector_results := vector_search_with_filters h q in
  normalized_results ← rank h q bm25_results vector_results;
  Returned (select_results score_threshold min_results max_results
              strict_threshold (to_results h normalized_results)).

End Fusion.

End Hybrid.

(** ** The index manager ([KnowledgeIndexer]) *)

Module Indexer.

Definition vector := list Q.

(** [embedding_model.encode(texts)] *)
Definition encoder := list string -> outcome (list vector).

(** [faiss_index.search(query_embedding, k)]: the distances and indices
    of the hits, zipped. *)
Definition FaissIndex := vector -> Z -> outcome (list (Q * Z)).

(** What is found at a path of the data directory. *)
Inductive artifact (A : Type) :=
| Missing
| Unreadable
| Stored (a : A).
Arguments Missing {A}.
Arguments Unreadable {A}.
Arguments Stored {A} a.

(** The data directory.  [bm25_dir] is [None] when the directory does
    not exist, and otherwise says what [bm25_corpus.json] is. *)
Record disk := {
  docs_file : artifact (list StructuredDocument);
  chunks_file : artifact (list EnrichedChunk);
  faiss_index_file : artifact FaissIndex;
  bm25_dir : option (artifact (list (list string)))
}.

Record manager := {
  bm25_engine : BM25.engine;
  embedding_model : option encoder;
  faiss_index : option FaissIndex;
  documents : list StructuredDocument;
  chunks : list EnrichedChunk
}.

(** The state after [__init__]. *)
Definition fresh : manager :=
  {| bm25_engine := BM25.empty; embedding_model := None; faiss_index := None;
     documents := []; chunks := [] |}.

Record world := { mgr : manager; fs : disk }.

(** Methods run on the manager and the disk; an exception leaves the
    mutations made before it in place. *)
Definition M (A : Type) := world -> outcome A * world.

Definition ret {A} (a : A) : M A := fun w => (Returned a, w).
Definition raise {A} (e : exn) : M A := fun w => (Raised e, w).
Definition bind {A B} (m : M A) (f : A -> M B) : M B :=
  fun w =>
    match m w with
    | (Returned a, w') => f a w'
    | (Raised e, w') => (Raised e, w')
    end.
Definition try_except {A} (m : M A) (handler : exn -> M A) : M A :=
  fun w =>
    match m w with
    | (Raised e, w') => handler e w'
    | r => r
    end.
Definition get : M world := fun w => (Returned w, w).
Definition modify_mgr (f : manager -> manager) : M unit :=
  fun w => (Returned tt, {| mgr := f (mgr w); fs := fs w |}).
Definition modify_fs (f : disk -> disk) : M unit :=
  fun w => (Returned tt, {| mgr := mgr w; fs := f (fs w) |}).
Definition lift {A} (o : outcome A) : M A := fun w => (o, w).

#[local] Instance M_ret : MRet M := @ret.
#[local] Instance M_bind : MBind M := fun A B f m => bind m f.

Definition set_bm25_engine (e : BM25.engine) (m : manager) : manager :=
  {| bm25_engine := e; embedding_model := embedding_model m;
     faiss_index := faiss_index m; documents := documents m; chunks := chunks m |}.
Definition set_embedding_model (x : option encoder) (m : manager) : manager :=
  {| bm25_engine := bm25_engine m; embedding_model := x;
     faiss_index := faiss_index m; documents := documents m; chunks := chunks m |}.
Definition set_faiss_index (x : option FaissIndex) (m : manager) : manager :=
  {| bm25_engine := bm25_engine m; embedding_model := embedding_model m;
     faiss_index := x; documents := documents m; chunks := chunks m |}.
Definition set_documents (x : list StructuredDocument) (m : manager) : manager :=
  {| bm25_engine := bm25_engine m; embedding_model := embedding_model m;
     faiss_index := faiss_index m; documents := x; chunks := chunks m |}.
Definition set_chunks (x : list EnrichedChunk) (m : manager) : manager :=
  {| bm25_engine := bm25_engine m; embedding_model := embedding_model m;
     faiss_index := faiss_index m; documents := documents m; chunks := x |}.

(** [json.load] of a file that exists: a file that cannot be decoded
    raises. *)
Definition read {A} (a : artifact A) : M A :=
  match a with
  | Stored x => ret x
  | _ => raise ExternalError
  end.

Definition exists_ {A} (a : artifact A) : bool :=
  match a with Missing => false | _ => true end.

Definition stored {A} (a : artifact A) : Prop :=
  match a with Stored _ => True | _ => False end.

(** A data directory from which [load_indexes] cannot load: one of the
    three files is missing or unreadable, or the BM25 directory is
    missing, or its corpus file is unreadable. *)
Definition damaged (d : disk) : Prop :=
  ¬ stored (docs_file d) ∨ ¬ stored (chunks_file d)
  ∨ ¬ stored (faiss_index_file d)
  ∨ bm25_dir d = None ∨ bm25_dir d = Some Unreadable.

(** No corpus in memory. *)
Definition is_empty (m : manager) : Prop :=
  documents m = [] ∧ chunks m = [].

(** The file extensions that [index_directory] looks for. *)
Inductive extension := PDF | DOCX | TXT | DOC.

Record file := {
  f_path : path;
  f_ext : extension;
  f_bytes : list ascii
}.

(** What the parser reads out of the text of a file. *)
Record extraction := {
  x_doctype : DocType;
  x_jurisdiction : Jurisdiction;
  x_parties : list string;
  x_effective_date : option datetime;
  (** per chunk: the page and sequence suffix of its id, and the chunk
      without its ids *)
  x_chunks : list (string * EnrichedChunk)
}.

(** [l[i]] for an [int] index. *)
Definition index {A} (l : list A) (i : Z) : outcome A :=
  let j := if (0 <=? i)%Z then i else (Z.of_nat (length l) + i)%Z in
  if (j <? 0)%Z then Raised IndexError
  else match l !! Z.to_nat j with
       | Some x => Returned x
       | None => Raised IndexError
       end.

(** [range(0, len(l), n)] slices of [l]. *)
Fixpoint batches_go {A} (n room : nat) (cur : list A) (l : list A)
  : list (list A) :=
  match l with
  | [] => match cur with [] => [] | _ => [rev cur] end
  | x :: l' =>
      match room with
      | O => rev cur :: batches_go n (n - 1) [x] l'
      | S room' => batches_go n room' (x :: cur) l'
      end
  end.
Definition batches {A} (n : nat) (l : list A) : list (list A) :=
  batches_go n n [] l.

Section Environment.
(** [hashlib.sha256(bytes).hexdigest()] *)
Variable sha256 : list ascii -> string.
(** The text extraction and classifiers of the parser. *)
Variable extract : file -> outcome extraction.
(** [rank_bm25]'s scoring function, see [BM25.fit]. *)
Variable okapi : list (list string) -> list string -> list string -> Q.
(** [SentenceTransformer(settings.EMBEDDING_MODEL)] *)
Variable SentenceTransformer : outcome encoder.
(** [faiss.IndexFlatL2] filled with the embedding matrix. *)
Variable IndexFlatL2 : list vector -> FaissIndex.

(** [LegalDocumentParser._calculate_hash], [_compute_file_hash] *)
Definition compute_file_hash (f : file) : string := sha256 (f_bytes f).

Definition hash_prefix (file_hash : string) : string :=
  String.substring 0 12 file_hash.

(** [parse_document]: the three parsers build the same record and
    differ in the version tag; any exception gives [None]. *)
Definition parse_document (f : file) : option StructuredDocument :=
  match extract f with
  | Raised _ => None
  | Returned x =>
      let file_hash := compute_file_hash f in
      Some {| Doc.doc_id := hash_prefix file_hash;
              Doc.file_path := f_path f;
              Doc.file_hash := file_hash;
              Doc.source_folder := None;
              Doc.doctype := x_doctype x;
              Doc.jurisdiction := x_jurisdiction x;
              Doc.parties := x_parties x;
              Doc.effective_date := x_effective_date x;
              Doc.version := match f_ext f with PDF => SIGNED | _ => DRAFT end;
              Doc.chunks :=
                map (fun sc =>
                       {| chunk_id := hash_prefix file_hash +:+ sc.1;
                          doc_id := hash_prefix file_hash;
                          text := text sc.2;
                          is_header := is_header sc.2;
                          is_definition := is_definition sc.2;
                          contains_dates := contains_dates sc.2;
                          contains_money := contains_money sc.2 |})
                    (x_chunks x) |}
  end.

Definition initialize_models : M unit :=
  w ← get;
  match embedding_model (mgr w) with
  | Some _ => ret tt
  | None =>
      model ← lift SentenceTransformer;
      modify_mgr (set_embedding_model (Some model))
  end.

(** [self.bm25_engine.build_index(docs)]: the engine of the manager is
    changed in place, also when the fit raises. *)
Definition bm25_build_index (docs : list StructuredDocument) : M unit :=
  fun w =>
    let '(o, e) := BM25.build_index okapi docs (bm25_engine (mgr w)) in
    (o, {| mgr := set_bm25_engine e (mgr w); fs := fs w |}).

Definition set_tokenized_corpus (corpus : list (list string)) (e : BM25.engine)
  : BM25.engine :=
  {| BM25.bm25_index := BM25.bm25_index e; BM25.chunks := BM25.chunks e;
     BM25.documents := BM25.documents e; BM25.tokenized_corpus := corpus |}.

(** [BM25SearchEngine.load_index]: the token lists read from the corpus
    file are assigned to the engine, then the index is built from the
    documents. *)
Definition bm25_load_index (corpus_file : artifact (list (list string)))
    (docs : list StructuredDocument) : M unit :=
  (if exists_ corpus_file then
     corpus ← read corpus_file;
     modify_mgr (fun m =>
       set_bm25_engine (set_tokenized_corpus corpus (bm25_engine m)) m)
   else ret tt);;
  bm25_build_index docs.

(** [load_indexes] *)
Definition load_indexes : M bool :=
  try_except
    (w ← get;
     if negb (exists_ (docs_file (fs w))) then ret false else
     docs_data ← read (docs_file (fs w));
     modify_mgr (set_documents docs_data);;
     if negb (exists_ (chunks_file (fs w))) then ret false else
     chunks_data ← read (chunks_file (fs w));
     modify_mgr (set_chunks chunks_data);;
     if negb (exists_ (faiss_index_file (fs w))) then ret false else
     index ← read (faiss_index_file (fs w));
     modify_mgr (set_faiss_index (Some index));;
     match bm25_dir (fs w) with
     | None => ret false
     | Some corpus_file =>
         bm25_load_index corpus_file docs_data;;
         initialize_models;;
         ret true
     end)
    (fun _ => ret false).

(** [_load_all_documents] *)
Definition load_all_documents : M (list StructuredDocument) :=
  w ← get;
  try_except (read (docs_file (fs w))) (fun _ => ret []).

(** [_is_within_folder]: the resolved path lies under the folder. *)
Definition is_within_folder (file_path folder : path) : bool :=
  bool_decide (folder `prefix_of` file_path).

(** The batch loop of [_build_vector_index]: one [encode] per batch. *)
Fixpoint encode_batches (bs : list (list EnrichedChunk)) : M (list vector) :=
  match bs with
  | [] => ret []
  | batch_chunks :: bs' =>
      w ← get;
      match embedding_model (mgr w) with
      | None => raise ExternalError
      | Some model =>
          embeddings ← lift (model (map text batch_chunks));
          rest ← encode_batches bs';
          ret (embeddings ++ rest)
      end
  end.

(** [_build_vector_index] *)
Definition build_vector_index : M unit :=
  w ← get;
  let all_chunks := flat_map Doc.chunks (documents (mgr w)) in
  modify_mgr (set_chunks all_chunks);;
  match all_chunks with
  | [] => modify_mgr (set_faiss_index None)
  | _ =>
      all_embeddings ← encode_batches (batches 32 all_chunks);
      modify_mgr (set_faiss_index (Some (IndexFlatL2 all_embeddings)))
  end.

(** [_save_indexes] *)
Definition save_indexes : M unit :=
  w ← get;
  let m := mgr w in
  modify_fs (fun d =>
    {| docs_file := Stored (documents m);
       chunks_file := Stored (chunks m);
       faiss_index_file :=
         match faiss_index m with
         | Some index => Stored index
         | None => faiss_index_file d
         end;
       bm25_dir := Some (Stored (BM25.tokenized_corpus (bm25_engine m))) |}).

Inductive index_stats :=
| NoDocuments (total_files errors : nat)
| Success (total_files indexed_documents skipped_documents errors
           total_chunks : nat).

Definition with_source_folder (folder : path) (d : StructuredDocument)
  : StructuredDocument :=
  {| Doc.doc_id := Doc.doc_id d; Doc.file_path := Doc.file_path d;
     Doc.file_hash := Doc.file_hash d; Doc.source_folder := Some folder;
     Doc.doctype := Doc.doctype d; Doc.jurisdiction := Doc.jurisdiction d;
     Doc.parties := Doc.parties d; Doc.effective_date := Doc.effective_date d;
     Doc.version := Doc.version d; Doc.chunks := Doc.chunks d |}.

(** The stored documents are objects that the parsing loop can change
    in place: [existing_docs_by_hash[file_hash]] names the last stored
    document with that hash, and [existing_doc.source_folder = ...]
    changes it wherever it is referred to, [remaining_documents]
    included.  [mark_last] answers the list of stored documents after
    the assignment, and whether a document with the hash was found. *)
Fixpoint mark_last (target_folder : path) (file_hash : string)
    (docs : list StructuredDocument) : list StructuredDocument * bool :=
  match docs with
  | [] => ([], false)
  | d :: docs' =>
      let '(marked, found) := mark_last target_folder file_hash docs' in
      if found then (d :: marked, true)
      else if bool_decide (Doc.file_hash d = file_hash)
           then (with_source_folder target_folder d :: marked, true)
           else (d :: marked, false)
  end.

(** The state of the parsing loop: the stored documents as they are
    now, the list built by the loop, and the counters. *)
Record parsed := {
  stored_docs : list StructuredDocument;
  new_documents : list StructuredDocument;
  skipped : nat;
  errors : nat
}.

(** One turn of the parsing loop of [index_directory]. *)
Definition parse_step (target_folder : path) (force_reindex : bool)
    (existing_docs_by_hash : gmap string StructuredDocument)
    (removed_hashes : gset string) (acc : parsed) (f : file) : parsed :=
  let file_hash := compute_file_hash f in
  match (if force_reindex then None else existing_docs_by_hash !! file_hash) with
  | Some existing_doc =>
      if bool_decide (file_hash ∈ removed_hashes)
      then {| stored_docs := (mark_last target_folder file_hash (stored_docs acc)).1;
              new_documents :=
                new_documents acc
                  ++ [with_source_folder target_folder existing_doc];
              skipped := S (skipped acc);
              errors := errors acc |}
      else {| stored_docs := stored_docs acc;
              new_documents := new_documents acc;
              skipped := S (skipped acc);
              errors := errors acc |}
  | None =>
      match parse_document f with
      | Some structured_doc =>
          {| stored_docs := stored_docs acc;
             new_documents :=
               new_documents acc
                 ++ [with_source_folder target_folder structured_doc];
             skipped := skipped acc;
             errors := errors acc |}
      | None =>
          {| stored_docs := stored_docs acc;
             new_documents := new_documents acc;
             skipped := skipped acc;
             errors := S (errors acc) |}
      end
  end.

(** [index_directory] for an existing directory [target_folder] whose
    glob gave [all_files].  [remaining_documents] is built before the
    loop and read after it: it holds the stored documents outside the
    folder as the loop has left them. *)
Definition index_directory (target_folder : path) (all_files : list file)
    (force_reindex : bool) : M index_stats :=
  initialize_models;;
  w ← get;
  existing_docs_list ←
    (if exists_ (docs_file (fs w)) then load_all_documents else ret []);
  let existing_docs_by_hash : gmap string StructuredDocument :=
    foldl (fun m d => <[Doc.file_hash d := d]> m) ∅ existing_docs_list in
  let removed_hashes : gset string :=
    list_to_set
      (map Doc.file_hash
         (List.filter (fun d => is_within_folder (Doc.file_path d) target_folder)
            existing_docs_list)) in
  let p :=
    foldl (parse_step target_folder force_reindex existing_docs_by_hash
             removed_hashes)
          {| stored_docs := existing_docs_list; new_documents := []; skipped := 0;
             errors := 0 |} all_files in
  let remaining_documents :=
    List.filter (fun d => negb (is_within_folder (Doc.file_path d) target_folder))
      (stored_docs p) in
  match new_documents p with
  | [] => ret (NoDocuments (length all_files) (errors p))
  | _ =>
      modify_mgr (set_documents (remaining_documents ++ new_documents p));;
      w1 ← get;
      bm25_build_index (documents (mgr w1));;
      build_vector_index;;
      save_indexes;;
      w2 ← get;
      ret (Success (length all_files) (length (new_documents p))
             (skipped p) (errors p) (length (chunks (mgr w2))))
  end.

(** The documents that [index_directory] finds on disk: none when the
    documents file is missing or cannot be read. *)
Definition known_documents (d : disk) : list StructuredDocument :=
  match docs_file d with
  | Stored l => l
  | _ => []
  end.

(** The parsing loop of [index_directory] over all files. *)
Definition parse_files (target_folder : path) (force_reindex : bool)
    (existing_docs_list : list StructuredDocument) (all_files : list file)
  : parsed :=
  foldl (parse_step target_folder force_reindex
           (foldl (fun m d => <[Doc.file_hash d := d]> m) ∅ existing_docs_list)
           (list_to_set
              (map Doc.file_hash
                 (List.filter
                    (fun d => is_within_folder (Doc.file_path d) target_folder)
                    existing_docs_list))))
        {| stored_docs := existing_docs_list; new_documents := [];
           skipped := 0; errors := 0 |} all_files.

(** The end of [index_directory], from the result of the parsing loop
    on: the early return, or the rebuild and the save. *)
Definition finish_indexing (remaining_documents : list StructuredDocument)
    (total_files : nat) (p : parsed) : M index_stats :=
  match new_documents p with
  | [] => ret (NoDocuments total_files (errors p))
  | _ =>
      modify_mgr (set_documents (remaining_documents ++ new_documents p));;
      w1 ← get;
      bm25_build_index (documents (mgr w1));;
      build_vector_index;;
      save_indexes;;
      w2 ← get;
      ret (Success total_files (length (new_documents p))
             (skipped p) (errors p) (length (chunks (mgr w2))))
  end.

(** [vector_search] *)
Definition vector_search (m : manager) (query_text : string) (top_k : Z)
    (filter_doc_ids : option (list string))
  : outcome (list (EnrichedChunk * Q)) :=
  match faiss_index m, embedding_model m with
  | Some index, Some model =>
      query_embedding ← model [query_text];
      hits ← index (default [] (head query_embedding)) (top_k * 2)%Z;
      results ←
        (fix go (hs : list (Q * Z)) : outcome (list (EnrichedChunk * Q)) :=
           match hs with
           | [] => Returned []
           | (dist, idx) :: hs' =>
               if (Z.of_nat (length (chunks m)) <=? idx)%Z then go hs'
               else
                 c ← Indexer.index (chunks m) idx;
                 if truthy filter_doc_ids
                    && negb (bool_decide (doc_id c ∈ default [] filter_doc_ids))
                 then go hs'
                 else
                   rest ← go hs';
                   Returned ((c, 1 / (1 + dist))%Q :: rest)
           end) hits;
      Returned (Py.slice_to top_k (Py.sort_desc snd results))
  | _, _ => Returned []
  end.

(** [remove_documents_from_folder]: the counts of removed and remaining
    documents. *)
Definition remove_documents_from_folder (folder_path : path) : M (nat * nat) :=
  w ← get;
  loaded ←
    (match documents (mgr w) with
     | [] => load_indexes
     | _ :: _ => ret true
     end);
  if negb loaded then ret (0, 0)%nat else
  w1 ← get;
  let remaining_docs :=
    List.filter (fun d => negb (is_within_folder (Doc.file_path d) folder_path))
      (documents (mgr w1)) in
  let removed_docs :=
    List.filter (fun d => is_within_folder (Doc.file_path d) folder_path)
      (documents (mgr w1)) in
  match removed_docs with
  | [] => ret (0%nat, length (documents (mgr w1)))
  | _ :: _ =>
      modify_mgr (set_documents remaining_docs);;
      (match remaining_docs with
       | [] => ret tt
       | _ :: _ => initialize_models
       end);;
      bm25_build_index remaining_docs;;
      build_vector_index;;
      save_indexes;;
      ret (length removed_docs, length remaining_docs)
  end.


End Environment.


(** The documents of a list that lie under a folder, and the others. *)
Definition inside (folder : path) (docs : list StructuredDocument)
  : list StructuredDocument :=
  List.filter (fun d => is_within_folder (Doc.file_path d) folder) docs.
Definition outside (folder : path) (docs : list StructuredDocument)
  : list StructuredDocument :=
  List.filter (fun d => negb (is_within_folder (Doc.file_path d) folder)) docs.

End Indexer.

(** ** The folder list ([FolderManager]) *)

Module Folders.

Record folder := {
  path : string;
  added_at : string;
  last_indexed : string;
  document_count : Z
}.

(** The manager: the list in memory, the JSON file, and whether the file
    can be written. *)
Record manager := {
  folders : list folder;
  storage : Indexer.artifact (list folder);
  writable : bool
}.

(** [_load_folders]: a missing or unreadable file gives the empty list. *)
Definition load_folders (storage : Indexer.artifact (list folder)) : list folder :=
  match storage with
  | Indexer.Stored l => l
  | _ => []
  end.

(** [__init__] *)
Definition init (storage : Indexer.artifact (list folder)) (writable : bool)
  : manager :=
  {| folders := load_folders storage; storage := storage; writable := writable |}.

(** [_save_folders]: a failing write is logged and nothing else happens. *)
Definition save_folders (m : manager) : manager :=
  if writable m
  then {| folders := folders m; storage := Indexer.Stored (folders m);
          writable := true |}
  else m.

Definition with_folders (l : list folder) (m : manager) : manager :=
  {| folders := l; storage := storage m; writable := writable m |}.

Section Resolve.
(** [str(Path(p).resolve())] *)
Variable resolve : string -> string.

(** [add_folder]; [now] is [datetime.now().isoformat()]. *)
Definition add_folder (folder_path : string) (count : Z) (now : string)
    (m : manager) : manager :=
  let folder_path := resolve folder_path in
  match list_find (fun f => path f = folder_path) (folders m) with
  | Some (i, existing) =>
      save_folders
        (with_folders
           (<[i := {| path := path existing; added_at := added_at existing;
                      last_indexed := now; document_count := count |}]>
              (folders m)) m)
  | None =>
      save_folders
        (with_folders
           (folders m ++ [{| path := folder_path; added_at := now;
                             last_indexed := now; document_count := count |}]) m)
  end.

(** [remove_folder] *)
Definition remove_folder (folder_path : string) (m : manager) : bool * manager :=
  let folder_path := resolve folder_path in
  let original_count := length (folders m) in
  let m' :=
    with_folders
      (List.filter (fun f => negb (bool_decide (path f = folder_path))) (folders m))
      m in
  if (length (folders m') <? original_count)%nat
  then (true, save_folders m')
  else (false, m').

(** [get_folder] *)
Definition get_folder (folder_path : string) (m : manager) : option folder :=
  snd <$> list_find (fun f => path f = resolve folder_path) (folders m).

End Resolve.

(** [clear_all] *)
Definition clear_all (m : manager) : manager := save_folders (with_folders [] m).

End Folders.

(** ** Paging and chunking of the parser ([LegalDocumentParser]) *)

Module Parser.

(** The loop of [_split_text_into_pages]: [current_page] is kept in
    reverse. *)
Fixpoint pages_go (chars_per_page : Z) (current_page : list (list ascii))
    (current_length : Z) (lines : list (list ascii)) : list (list ascii) :=
  match lines with
  | [] =>
      match current_page with
      | [] => []
      | _ :: _ => [Str.join Str.newline (rev current_page)]
      end
  | line :: rest =>
      let current_page := line :: current_page in
      let current_length := (current_length + Z.of_nat (length line))%Z in
      if (chars_per_page <=? current_length)%Z
      then Str.join Str.newline (rev current_page)
             :: pages_go chars_per_page [] 0 rest
      else pages_go chars_per_page current_page current_length rest
  end.

(** [_split_text_into_pages] *)
Definition split_text_into_pages (text : list ascii) (chars_per_page : Z)
  : list (list ascii) :=
  pages_go chars_per_page [] 0 (Str.split Str.newline text).

(** One turn of the loop of [_chunk_text]: the chunk cut at [start] and
    the end of the cut. *)
Definition cut (text : list ascii) (size start : Z) : list ascii * Z :=
  let end_ := (start + size)%Z in
  let chunk := Py.slice start end_ text in
  if (end_ <? Z.of_nat (length text))%Z then
    let last_period := Str.rfind Str.period_space chunk in
    let last_newline := Str.rfind Str.newline chunk in
    let break_point := Z.max last_period last_newline in
    if (size <? 2 * break_point)%Z
    then (Py.slice 0 (break_point + 1) chunk, (start + break_point + 1)%Z)
    else (chunk, end_)
  else (chunk, end_).

(** The [while] loop of [_chunk_text], run for at most [fuel] turns;
    [None] when the loop is still running then. *)
Fixpoint chunk_loop (fuel : nat) (text : list ascii) (size overlap start : Z)
  : option (list (list ascii)) :=
  match fuel with
  | O => None
  | S fuel' =>
      if (start <? Z.of_nat (length text))%Z then
        let '(chunk, end_) := cut text size start in
        rest ← chunk_loop fuel' text size overlap (end_ - overlap)%Z;
        Some (Str.strip chunk :: rest)
      else Some []
  end.

Definition nonempty (s : list ascii) : bool :=
  match s with [] => false | _ :: _ => true end.

(** [_chunk_text] *)
Definition chunk_text (fuel : nat) (text : list ascii) (size overlap : Z)
  : option (list (list ascii)) :=
  match Str.strip text with
  | [] => Some []
  | _ :: _ =>
      chunks ← chunk_loop fuel text size overlap 0;
      Some (List.filter nonempty chunks)
  end.

End Parser.

(** ** Sample data

    A small corpus and a hand-made scorer for the concrete runs below.
    [overlap] counts the query terms that occur in a document; like BM25
    it is positive exactly on the documents that share a term with the
    query, as long as the term is in fewer than half of the documents. *)

Module Sample.

Definition overlap (corpus : list (list string)) (query doc : list string) : Q :=
  inject_Z (Z.of_nat (length (List.filter (fun t => bool_decide (t ∈ doc)) query))).

Definition chunk_of (id doc body : string) : EnrichedChunk :=
  {| chunk_id := id; doc_id := doc; text := body;
     is_header := false; is_definition := false;
     contains_dates := false; contains_money := false |}.

Definition doc_of (id : string) (p : path) (t : DocType) (cs : list EnrichedChunk)
  : StructuredDocument :=
  {| Doc.doc_id := id; Doc.file_path := p; Doc.file_hash := id;
     Doc.source_folder := None; Doc.doctype := t; Doc.jurisdiction := FEDERAL;
     Doc.parties := []; Doc.effective_date := None; Doc.version := DRAFT;
     Doc.chunks := cs |}.

Definition lease : StructuredDocument :=
  doc_of "aaaaaaaaaaaa" ["kb"; "lease.txt"] CONTRACT
    [chunk_of "aaaaaaaaaaaa#p1#c00" "aaaaaaaaaaaa" "Tenant shall pay rent monthly";
     chunk_of "aaaaaaaaaaaa#p1#c01" "aaaaaaaaaaaa" "Indemnity for damage caused by tenant";
     chunk_of "aaaaaaaaaaaa#p2#c02" "aaaaaaaaaaaa" "Notices go to the landlord"].

Definition handbook : StructuredDocument :=
  doc_of "bbbbbbbbbbbb" ["kb"; "handbook.txt"] POLICY
    [chunk_of "bbbbbbbbbbbb#p1#c00" "bbbbbbbbbbbb" "Employees receive paid leave";
     chunk_of "bbbbbbbbbbbb#p1#c01" "bbbbbbbbbbbb" "Indemnity and insurance cover staff";
     chunk_of "bbbbbbbbbbbb#p2#c02" "bbbbbbbbbbbb" "Office hours are posted"].

Definition corpus_engine : BM25.engine := BM25.built overlap [lease; handbook].

(** The worked example of the fusion: three chunks, lexical raw scores
    4, 0, 0 and semantic raw scores 0, 2, 1. *)
Definition chunk1 := chunk_of "chunk1" "aaaaaaaaaaaa" "first".
Definition chunk2 := chunk_of "chunk2" "aaaaaaaaaaaa" "second".
Definition chunk3 := chunk_of "chunk3" "aaaaaaaaaaaa" "third".
Definition lexical : list (EnrichedChunk * Q) :=
  [(chunk1, 4%Q); (chunk2, 0%Q); (chunk3, 0%Q)].
Definition semantic : list (EnrichedChunk * Q) :=
  [(chunk1, 0%Q); (chunk2, 2%Q); (chunk3, 1%Q)].

(** A statute of 21 chunks, a semantic index that finds all of them at
    the same distance, and a reranker that scores every pair 0. *)
Definition two_digits (n : nat) : string :=
  String (ascii_of_nat (48 + n / 10)) (String (ascii_of_nat (48 + n mod 10)) "").
Definition clause (n : nat) : EnrichedChunk :=
  chunk_of ("cccccccccccc#p1#c" +:+ two_digits n) "cccccccccccc" "clause text".
Definition clauses : list EnrichedChunk := map clause (seq 0 21).
Definition statute : StructuredDocument :=
  doc_of "cccccccccccc" ["kb"; "statute.pdf"] STATUTE clauses.

Definition reranking_engine : Hybrid.engine :=
  {| Hybrid.bm25_engine := BM25.built overlap [statute];
     Hybrid.vector_engine := fun _ _ _ => Returned (map (fun c => (c, 1 # 2)%Q) clauses);
     Hybrid.cross_encoder := Some (fun pairs => Returned (map (fun _ => 0%Q) pairs)) |}.

(** The lexical corpus of two documents, without semantic index and
    without reranker. *)
Definition lexical_engine : Hybrid.engine :=
  {| Hybrid.bm25_engine := corpus_engine;
     Hybrid.vector_engine := fun _ _ _ => Raised ExternalError;
     Hybrid.cross_encoder := None |}.

(** The same corpus with a reranker that always fails. *)
Definition failing_reranker_engine : Hybrid.engine :=
  {| Hybrid.bm25_engine := corpus_engine;
     Hybrid.vector_engine := fun _ _ _ => Raised ExternalError;
     Hybrid.cross_encoder := Some (fun _ => Raised ExternalError) |}.

Definition plain_query (t : string) (types : option (list DocType)) : SearchQuery :=
  {| text_query := t; required_terms := []; excluded_terms := [];
     doctypes := types; jurisdictions := None; date_range := None;
     parties := None; boost_recent := false; boost_headers := false;
     boost_signed_docs := false; top_k := 5 |}.

(** An embedding model that maps every text to the same vector, and a
    flat index that finds nothing. *)
Definition encoder : Indexer.encoder :=
  fun texts => Returned (map (fun _ => [1%Q; 0%Q]) texts).
Definition flat_index (embeddings : list Indexer.vector) : Indexer.FaissIndex :=
  fun _ _ => Returned [].

(** What the parser reads out of a one-paragraph text file. *)
Definition paragraph : Indexer.extraction :=
  {| Indexer.x_doctype := CONTRACT; Indexer.x_jurisdiction := FEDERAL;
     Indexer.x_parties := []; Indexer.x_effective_date := None;
     Indexer.x_chunks := [("#p1#c00", chunk_of "" "" "Tenant shall pay rent")] |}.

(** A document of another folder, and a loaded manager that holds it
    beside the lease. *)
Definition memo : StructuredDocument :=
  doc_of "dddddddddddd" ["archive"; "memo.txt"] MEMO
    [chunk_of "dddddddddddd#p1#c00" "dddddddddddd" "Board memo on rent"].

Definition empty_disk : Indexer.disk :=
  {| Indexer.docs_file := Indexer.Missing; Indexer.chunks_file := Indexer.Missing;
     Indexer.faiss_index_file := Indexer.Missing; Indexer.bm25_dir := None |}.

(** Documents on disk, chunks file gone. *)
Definition disk_without_chunks : Indexer.disk :=
  {| Indexer.docs_file := Indexer.Stored [lease];
     Indexer.chunks_file := Indexer.Missing;
     Indexer.faiss_index_file := Indexer.Missing; Indexer.bm25_dir := None |}.

Definition loaded_world : Indexer.world :=
  {| Indexer.mgr :=
       {| Indexer.bm25_engine := BM25.built overlap [lease; memo];
          Indexer.embedding_model := Some encoder;
          Indexer.faiss_index := Some (flat_index []);
          Indexer.documents := [lease; memo];
          Indexer.chunks := flat_map Doc.chunks [lease; memo] |};
     Indexer.fs := empty_disk |}.

(** A flat index that answers every query with the first chunk at
    distance 1 and a missing neighbour, reported as position -1 at
    distance 3. *)
Definition short_index : Indexer.FaissIndex :=
  fun _ _ => Returned [(1%Q, 0%Z); (3%Q, (-1)%Z)].
Definition searchable : Indexer.manager :=
  Indexer.set_faiss_index (Some short_index) (Indexer.mgr loaded_world).

(** A complete data directory whose BM25 directory holds no corpus
    file. *)
Definition disk_without_corpus : Indexer.disk :=
  {| Indexer.docs_file := Indexer.Stored [lease];
     Indexer.chunks_file := Indexer.Stored (Doc.chunks lease);
     Indexer.faiss_index_file := Indexer.Stored (flat_index []);
     Indexer.bm25_dir := Some Indexer.Missing |}.

(** A document whose only chunk holds stop words only, and a complete
    data directory that stores it. *)
Definition boilerplate : StructuredDocument :=
  doc_of "eeeeeeeeeeee" ["kb"; "cover.txt"] OTHER_TYPE
    [chunk_of "eeeeeeeeeeee#p1#c00" "eeeeeeeeeeee" "of the by"].
Definition disk_with_boilerplate : Indexer.disk :=
  {| Indexer.docs_file := Indexer.Stored [boilerplate];
     Indexer.chunks_file := Indexer.Stored (Doc.chunks boilerplate);
     Indexer.faiss_index_file := Indexer.Stored (flat_index []);
     Indexer.bm25_dir := Some (Indexer.Stored [[]]) |}.

(** A copy of the lease kept under another folder, and a data directory
    that stores the lease followed by the copy. *)
Definition archived_lease : StructuredDocument :=
  doc_of "aaaaaaaaaaaa" ["archive"; "lease.txt"] CONTRACT (Doc.chunks lease).
Definition disk_with_copies : Indexer.disk :=
  {| Indexer.docs_file := Indexer.Stored [lease; archived_lease];
     Indexer.chunks_file := Indexer.Missing;
     Indexer.faiss_index_file := Indexer.Missing; Indexer.bm25_dir := None |}.

Definition copy_a (content : list ascii) : Indexer.file :=
  {| Indexer.f_path := ["kb"; "a.txt"]; Indexer.f_ext := Indexer.TXT;
     Indexer.f_bytes := content |}.
Definition copy_b (content : list ascii) : Indexer.file :=
  {| Indexer.f_path := ["kb"; "copies"; "b.txt"]; Indexer.f_ext := Indexer.TXT;
     Indexer.f_bytes := content |}.

Definition wide_query : SearchQuery :=
  {| text_query := "zebra"; required_terms := []; excluded_terms := [];
     doctypes := None; jurisdictions := None; date_range := None;
     parties := None; boost_recent := false; boost_headers := false;
     boost_signed_docs := false; top_k := 11 |}.

(** The worked example as the searches deliver it: neither side lists
    a chunk that it did not find. *)
Definition lexical_found : list (EnrichedChunk * Q) := [(chunk1, 4%Q)].
Definition semantic_found : list (EnrichedChunk * Q) :=
  [(chunk2, 2%Q); (chunk3, 1%Q)].



(** The 21 clauses as boosted rows with equal scores, and what stage 5
    makes of them. *)
Definition clause_rows : list Hybrid.row :=
  map (fun c => {| Hybrid.chunk := c; Hybrid.bm25 := 0%Q; Hybrid.vec := 1%Q;
                   Hybrid.boost := 1%Q; Hybrid.score := 0.6%Q |}) clauses.
Definition reranked_clause_rows : list Hybrid.row :=
  match Hybrid.rerank_stage reranking_engine wide_query clause_rows with
  | Returned out => out
  | Raised _ => []
  end.

End Sample.

(** * Properties *)

(** ** The stable descending sort and slices *)

Section SortFacts.
Context {A : Type} (key : A -> Q).

Lemma insert_desc_perm x l : Py.insert_desc key x l ≡ₚ x :: l.
Proof.
  induction l as [|y l IH]; simpl; [done|].
  destruct (Qle_bool (key y) (key x)); [done|].
  rewrite IH. apply perm_swap.
Qed.

Lemma sort_desc_perm l : Py.sort_desc key l ≡ₚ l.
Proof.
  induction l as [|x l IH]; simpl; [done|].
  by rewrite insert_desc_perm, IH.
Qed.

Lemma sort_desc_length l : length (Py.sort_desc key l) = length l.
Proof. by rewrite sort_desc_perm. Qed.

Lemma elem_of_sort_desc x l : x ∈ Py.sort_desc key l ↔ x ∈ l.
Proof. by rewrite sort_desc_perm. Qed.

Lemma insert_desc_sorted x l :
  StronglySorted (Py.descending key) l →
  StronglySorted (Py.descending key) (Py.insert_desc key x l).
Proof.
  induction 1 as [|y l Hs IH Hy]; simpl.
  - repeat constructor.
  - destruct (Qle_bool (key y) (key x)) eqn:E.
    + apply Qle_bool_iff in E.
      constructor; [by constructor|].
      constructor; [exact E|].
      eapply Forall_impl; [exact Hy|].
      intros z Hz. unfold Py.descending in *. eapply Qle_trans; eassumption.
    + constructor; [exact IH|].
      rewrite insert_desc_perm. constructor; [|exact Hy].
      unfold Py.descending.
      destruct (Qlt_le_dec (key x) (key y)) as [Hlt|Hle].
      * by apply Qlt_le_weak.
      * apply Qle_bool_iff in Hle. congruence.
Qed.

Lemma sort_desc_sorted l : StronglySorted (Py.descending key) (Py.sort_desc key l).
Proof.
  induction l; simpl; [constructor|]. by apply insert_desc_sorted.
Qed.

Lemma sorted_take n l :
  StronglySorted (Py.descending key) l →
  StronglySorted (Py.descending key) (take n l).
Proof.
  intros H. rewrite <- (take_drop n l) in H.
  by apply StronglySorted_app_1_l in H.
Qed.

Lemma slice_to_sorted n l :
  StronglySorted (Py.descending key) l →
  StronglySorted (Py.descending key) (Py.slice_to n l).
Proof. unfold Py.slice_to. destruct (0 <=? n)%Z; apply sorted_take. Qed.
End SortFacts.

Lemma slice_to_sublist {A} n (l : list A) : Py.slice_to n l `sublist_of` l.
Proof. unfold Py.slice_to. destruct (0 <=? n)%Z; apply sublist_take. Qed.

Lemma elem_of_slice_to {A} n (l : list A) x : x ∈ Py.slice_to n l → x ∈ l.
Proof. intros H. eapply elem_of_sublist; [exact H|apply slice_to_sublist]. Qed.

Lemma slice_to_length {A} n (l : list A) :
  (0 ≤ n)%Z → length (Py.slice_to n l) = Nat.min (Z.to_nat n) (length l).
Proof.
  intros Hn. unfold Py.slice_to.
  destruct (Z.leb_spec 0 n); [|lia]. by rewrite length_take.
Qed.

Lemma slice_to_all {A} n (l : list A) :
  (Z.of_nat (length l) ≤ n)%Z → Py.slice_to n l = l.
Proof.
  intros Hn. unfold Py.slice_to.
  destruct (Z.leb_spec 0 n); [|lia]. apply take_ge. lia.
Qed.

(** ** The tokenizer *)

Example tokenize_hyphen :
  Tokenizer.tokenize "The Non-Compete clause of the agreement"
  = ["non_compete"; "clause"; "agreement"].
Proof. vm_compute. reflexivity. Qed.

Example tokenize_section_whole :
  Tokenizer.tokenize "see Section  7 and section 12" = ["see"; "section_7"; "section_12"].
Proof. vm_compute. reflexivity. Qed.

Example tokenize_only_stop_words : Tokenizer.tokenize "of the by" = [].
Proof. vm_compute. reflexivity. Qed.

(** The first pattern opens with the two code points stored in the
    source file, not with the section sign: a section sign in the text is
    left alone and the number after it falls apart. *)
Example tokenize_section_sign :
  Tokenizer.tokenize "see §5.2" = ["see"; "5"; "2"]
  ∧ Tokenizer.tokenize
      (Tokenizer.str (Tokenizer.section_sign ++ Tokenizer.chars " 12"))
    = ["section_12"].
Proof. split; vm_compute; reflexivity. Qed.

(** C5.  Tokenizing the sample sentence of the specification gives the
    four terms pay, usd_1000000, section_5 and 2: the amount is one joined
    term and the stop word by is gone, but the section number is split at
    its dot, so the joined term section_5.2 is not among the terms. *)
Theorem tokenize_pay_section_example :
  (Tokenizer.tokenize "Pay $1,000,000 by Section 5.2"
     = ["pay"; "usd_1000000"; "section_5"; "2"])
  ∧ ("usd_1000000" ∈ Tokenizer.tokenize "Pay $1,000,000 by Section 5.2")
  ∧ ("by" ∉ Tokenizer.tokenize "Pay $1,000,000 by Section 5.2")
  ∧ ("section_5.2" ∉ Tokenizer.tokenize "Pay $1,000,000 by Section 5.2").
Proof.
  assert (E : Tokenizer.tokenize "Pay $1,000,000 by Section 5.2"
              = ["pay"; "usd_1000000"; "section_5"; "2"])
    by (vm_compute; reflexivity).
  rewrite E. split; [done|].
  split; [set_solver|].
  split; intros H; repeat (apply elem_of_cons in H as [H|H]; [discriminate H|]);
    by apply elem_of_nil in H.
Qed.

(** The rewriting step does produce the joined text; it is the final
    split into word characters that cuts it. *)
Example section_rewrite_then_split :
  Tokenizer.str (Re.sub Tokenizer.word_section (Tokenizer.chars "by section 5.2"))
    = "by section_5.2"
  ∧ map Tokenizer.str (Re.word_runs [] (Tokenizer.chars "section_5.2"))
    = ["section_5"; "2"].
Proof. split; vm_compute; reflexivity. Qed.

(** ** The lexical index *)

Section BM25Facts.
Variable okapi : list (list string) -> list string -> list string -> Q.

Lemma built_chunks docs :
  BM25.chunks (BM25.built okapi docs) = flat_map Doc.chunks docs.
Proof. reflexivity. Qed.

Lemma zip_fit (cs : list EnrichedChunk) qt :
  zip cs (BM25.fit okapi (map (fun c => Tokenizer.tokenize (text c)) cs) qt)
  = BM25.scored_chunks okapi cs qt.
Proof.
  unfold BM25.fit, BM25.scored_chunks.
  generalize (okapi (map (fun c => Tokenizer.tokenize (text c)) cs) qt).
  intros f. induction cs as [|c cs IH]; simpl; [done|]. by rewrite <- IH.
Qed.

(** A [build_index] that returns leaves the built engine, whatever the
    engine was before. *)
Lemma build_index_returned docs e e' :
  BM25.build_index okapi docs e = (Returned tt, e') → e' = BM25.built okapi docs.
Proof.
  unfold BM25.build_index, BM25.built.
  destruct (map _ (flat_map _ docs)) as [|t ts]; [by intros [= <-]|].
  destruct (BM25.fit_raises (t :: ts)); [done|by intros [= <-]].
Qed.

Lemma built_aligned docs : BM25.aligned (BM25.built okapi docs).
Proof.
  intros idx qt. unfold BM25.built. cbn [BM25.bm25_index BM25.chunks].
  destruct (map _ (flat_map _ docs)) as [|t ts] eqn:E; [done|].
  intros [= <-]. unfold BM25.fit. rewrite <- E, !length_map. done.
Qed.

Lemma for_enumerate_chunk_at (e : BM25.engine) (scores : list Q) (i : nat) :
  (i + length scores ≤ length (BM25.chunks e))%nat →
  for_enumerate (fun i score => chunk ← BM25.chunk_at e i; Returned (chunk, score))
    i scores
  = Returned (zip (drop i (BM25.chunks e)) scores).
Proof.
  revert i. induction scores as [|x scores IH]; intros i Hi; simpl.
  - by rewrite zip_with_nil_r.
  - simpl in Hi.
    destruct (BM25.chunks e !! i) as [c|] eqn:Ec;
      [|apply lookup_ge_None in Ec; lia].
    assert (Ei : BM25.chunk_at e i = Returned c)
      by (unfold BM25.chunk_at; by rewrite Ec).
    unfold mbind, outcome_bind. rewrite Ei. cbn [obind].
    rewrite IH by lia. cbn [obind].
    rewrite (drop_S _ _ _ Ec). reflexivity.
Qed.

(** On an aligned engine no read of the loop is out of range. *)
Lemma search_outcome_aligned (e : BM25.engine) query top_k filter_doc_ids :
  BM25.aligned e →
  BM25.search_outcome e query top_k filter_doc_ids
  = Returned (BM25.search e query top_k filter_doc_ids).
Proof.
  intros Ha. unfold BM25.search_outcome, BM25.search, BM25.scored.
  destruct (BM25.bm25_index e) as [idx|] eqn:Ei; [|done].
  destruct (BM25.chunks e) as [|c cs] eqn:Ec; [done|].
  destruct (Tokenizer.tokenize query) as [|t ts]; [done|].
  rewrite for_enumerate_chunk_at.
  - unfold mbind, outcome_bind. cbn [obind drop]. by rewrite Ec.
  - simpl. by apply Ha.
Qed.

(** What [search] computes on a built index when the query has tokens. *)
Lemma search_built docs query top_k filter_doc_ids :
  Tokenizer.tokenize query ≠ [] →
  BM25.search (BM25.built okapi docs) query top_k filter_doc_ids
  = Py.slice_to top_k
      (Py.sort_desc snd
         (List.filter (BM25.admits filter_doc_ids)
            (BM25.scored_chunks okapi (flat_map Doc.chunks docs)
               (Tokenizer.tokenize query)))).
Proof.
  intros Hq. rewrite <- zip_fit.
  unfold BM25.search, BM25.built, BM25.scored.
  cbn [BM25.bm25_index BM25.chunks].
  destruct (flat_map Doc.chunks docs) as [|c cs] eqn:Ecs.
  - simpl. unfold Py.slice_to. by destruct (0 <=? top_k)%Z; rewrite take_nil.
  - cbn [map]. by destruct (Tokenizer.tokenize query).
Qed.

Lemma search_empty_tokens (e : BM25.engine) query top_k filter_doc_ids :
  Tokenizer.tokenize query = [] → BM25.search e query top_k filter_doc_ids = [].
Proof.
  intros Hq. unfold BM25.search.
  destruct (BM25.bm25_index e), (BM25.chunks e); try done. by rewrite Hq.
Qed.

Lemma admits_spec filter_doc_ids (r : EnrichedChunk * Q) :
  BM25.admits filter_doc_ids r = true ↔
    (0 < r.2)%Q
    ∧ ∀ ids, filter_doc_ids = Some ids → ids ≠ [] → doc_id r.1 ∈ ids.
Proof.
  unfold BM25.admits, Qpositive.
  rewrite andb_true_iff, !negb_true_iff, andb_false_iff, negb_false_iff.
  rewrite bool_decide_eq_true.
  assert (Hpos : Qle_bool r.2 0 = false ↔ (0 < r.2)%Q).
  { split.
    - intros E. apply Qnot_le_lt. intros Hle.
      apply Qle_bool_iff in Hle. congruence.
    - intros Hlt. destruct (Qle_bool r.2 0) eqn:E; [|done].
      apply Qle_bool_iff in E. by apply Qlt_not_le in Hlt. }
  rewrite Hpos. split.
  - intros [Hf Hp]. split; [done|]. intros ids -> Hne.
    destruct Hf as [Hf|Hf]; [by destruct ids|done].
  - intros [Hp Hf]. split; [|done].
    destruct filter_doc_ids as [[|i ids]|]; simpl; auto.
Qed.

(** C6.  A [build_index] that returns leaves the built index, and on
    every built index the search answers the empty list for a
    query without tokens; otherwise it scores every chunk, keeps the
    chunks with a positive score whose document is in the supplied
    list when that list is not empty (an empty list restricts nothing),
    orders them by descending score and cuts the list with the Python
    slice to [top_k]: at most [top_k] results when [top_k] is not
    negative. *)
Theorem bm25_search_contract docs query top_k filter_doc_ids :
  (∀ e e', BM25.build_index okapi docs e = (Returned tt, e') →
           e' = BM25.built okapi docs)
  ∧ (Tokenizer.tokenize query = [] →
     BM25.search (BM25.built okapi docs) query top_k filter_doc_ids = [])
  ∧ (Tokenizer.tokenize query ≠ [] →
     ∃ ranked,
       ranked ≡ₚ List.filter (BM25.admits filter_doc_ids)
                   (BM25.scored_chunks okapi (flat_map Doc.chunks docs)
                      (Tokenizer.tokenize query))
       ∧ StronglySorted (Py.descending snd) ranked
       ∧ BM25.search (BM25.built okapi docs) query top_k filter_doc_ids
         = Py.slice_to top_k ranked)
  ∧ (∀ r, r ∈ BM25.search (BM25.built okapi docs) query top_k filter_doc_ids →
       r ∈ BM25.scored_chunks okapi (flat_map Doc.chunks docs)
             (Tokenizer.tokenize query)
       ∧ (0 < r.2)%Q
       ∧ ∀ ids, filter_doc_ids = Some ids → ids ≠ [] → doc_id r.1 ∈ ids)
  ∧ StronglySorted (Py.descending snd)
      (BM25.search (BM25.built okapi docs) query top_k filter_doc_ids)
  ∧ ((0 ≤ top_k)%Z →
     (Z.of_nat (length (BM25.search (BM25.built okapi docs) query top_k
                          filter_doc_ids)) ≤ top_k)%Z).
Proof.
  split; [intros e e'; apply build_index_returned|].
  destruct (decide (Tokenizer.tokenize query = [])) as [Hq|Hq].
  - rewrite (search_empty_tokens _ _ _ _ Hq).
    split; [done|]. split; [done|]. split; [by intros r Hr%elem_of_nil|].
    split; [constructor|]. simpl. lia.
  - rewrite (search_built _ _ _ _ Hq).
    set (all := List.filter _ _).
    split; [done|]. split.
    { intros _. exists (Py.sort_desc snd all).
      split; [apply sort_desc_perm|]. split; [apply sort_desc_sorted|done]. }
    split.
    { intros r Hr%elem_of_slice_to%elem_of_sort_desc.
      apply list_elem_of_In, filter_In in Hr as [Hin Had].
      apply admits_spec in Had as [Hp Hf].
      split; [by apply list_elem_of_In|]. by split. }
    split; [apply slice_to_sorted, sort_desc_sorted|].
    intros Hk. rewrite slice_to_length by done. lia.
Qed.

End BM25Facts.

(** C6, the counterexample.  With the empty list as the supplied set of
    document ids the search still returns a chunk, so the results are not
    restricted to the supplied set; and with a negative [top_k] the slice
    keeps all but the last results, which is more than [top_k]. *)
Lemma bm25_search_counterexample :
  ¬ (∀ r, r ∈ BM25.search Sample.corpus_engine "indemnity" 5 (Some []) →
          doc_id r.1 ∈ ([] : list string))
  ∧ ¬ (Z.of_nat (length (BM25.search Sample.corpus_engine "indemnity" (-1) None))
       ≤ -1)%Z.
Proof.
  split.
  - intros H.
    assert (Hin : (Sample.chunk_of "aaaaaaaaaaaa#p1#c01" "aaaaaaaaaaaa"
                     "Indemnity for damage caused by tenant", 1%Q)
                  ∈ BM25.search Sample.corpus_engine "indemnity" 5 (Some [])).
    { vm_compute. left. }
    apply H in Hin. by apply elem_of_nil in Hin.
  - lia.
Qed.

Example bm25_search_negative_top_k :
  length (BM25.search Sample.corpus_engine "indemnity" (-1) None) = 1%nat
  ∧ length (BM25.search Sample.corpus_engine "indemnity" 5 None) = 2%nat.
Proof. split; vm_compute; reflexivity. Qed.

(** ** An empty candidate list is no filter *)

Lemma search_empty_filter_is_none (e : BM25.engine) query top_k :
  BM25.search e query top_k (Some []) = BM25.search e query top_k None.
Proof. reflexivity. Qed.

Lemma apply_filters_without_filters (e : BM25.engine) q :
  BM25.apply_filters e (BM25.without_filters q) = None.
Proof.
  unfold BM25.apply_filters, BM25.without_filters. simpl.
  rewrite length_fmap, length_map_to_list.
  by rewrite Nat.ltb_irrefl.
Qed.

(** C10.  When the filters of a query leave no candidate document,
    [search_with_filters] hands [None] to [search] in place of the empty
    list: its answer is the answer for the same query without any filter,
    an empty list of ids and an absent one give the same search, and the
    answer can hold chunks of documents that the filters exclude (here the
    query asks for type NDA and gets chunks of a contract and a policy). *)
Theorem search_with_filters_empty_candidates (e : BM25.engine) (q : SearchQuery) :
  BM25.apply_filters e q = Some [] →
  BM25.search_with_filters e q
    = BM25.search_with_filters e (BM25.without_filters q)
  ∧ (∀ query top_k,
       BM25.search e query top_k (Some []) = BM25.search e query top_k None)
  ∧ ∃ e' q' r d,
      BM25.apply_filters e' q' = Some []
      ∧ r ∈ BM25.search_with_filters e' q'
      ∧ BM25.get_document e' (doc_id r.1) = Some d
      ∧ Doc.doctype d ∉ default [] (doctypes q').
Proof.
  intros Hf. split; [|split].
  - unfold BM25.search_with_filters.
    rewrite Hf, apply_filters_without_filters. reflexivity.
  - intros. apply search_empty_filter_is_none.
  - exists Sample.corpus_engine, (Sample.plain_query "indemnity" (Some [NDA])).
    exists (Sample.chunk_of "aaaaaaaaaaaa#p1#c01" "aaaaaaaaaaaa"
              "Indemnity for damage caused by tenant", 1%Q), Sample.lease.
    split; [by vm_compute|]. split; [vm_compute; left|].
    split; [by vm_compute|].
    simpl. intros H. apply list_elem_of_singleton in H. discriminate H.
Qed.

Lemma search_with_filters_empty_candidates_witness :
  BM25.apply_filters Sample.corpus_engine
    (Sample.plain_query "indemnity" (Some [NDA])) = Some []
  ∧ length (BM25.search_with_filters Sample.corpus_engine
              (Sample.plain_query "indemnity" (Some [NDA]))) = 2%nat
  ∧ BM25.search_with_filters Sample.corpus_engine
      (Sample.plain_query "indemnity" (Some [NDA]))
    = BM25.search_with_filters Sample.corpus_engine
        (BM25.without_filters (Sample.plain_query "indemnity" (Some [NDA]))).
Proof.
  split; [vm_compute; reflexivity|].
  split; [vm_compute; reflexivity|].
  apply (search_with_filters_empty_candidates Sample.corpus_engine
           (Sample.plain_query "indemnity" (Some [NDA]))).
  vm_compute; reflexivity.
Defined.

(** ** Fusion *)

Section NormalizedFacts.
Local Open Scope Q_scope.

Lemma Qpositive_spec x : Qpositive x = true ↔ 0 < x.
Proof.
  unfold Qpositive. rewrite negb_true_iff. split.
  - intros E. apply Qnot_le_lt. intros Hle.
    apply Qle_bool_iff in Hle. congruence.
  - intros Hlt. destruct (Qle_bool x 0) eqn:E; [|done].
    apply Qle_bool_iff in E. by apply Qlt_not_le in Hlt.
Qed.

Lemma Qpositive_false x : Qpositive x = false ↔ x <= 0.
Proof.
  unfold Qpositive. rewrite negb_false_iff. apply Qle_bool_iff.
Qed.

Lemma max_of_ub x xs y : y ∈ x :: xs → y <= Py.max_of x xs.
Proof.
  unfold Py.max_of. revert x y.
  induction xs as [|z xs IH]; intros x y Hy; simpl.
  - apply list_elem_of_singleton in Hy as ->. apply Qle_refl.
  - apply elem_of_cons in Hy as [Hy|Hy].
    + subst y. eapply Qle_trans; [apply (Q.le_max_l x z)|]. apply IH. left.
    + apply elem_of_cons in Hy as [Hy|Hy].
      * subst y. eapply Qle_trans; [apply (Q.le_max_r x z)|]. apply IH. left.
      * apply IH. by right.
Qed.

Lemma max_of_attained x xs : ∃ y, y ∈ x :: xs ∧ Py.max_of x xs == y.
Proof.
  unfold Py.max_of. revert x. induction xs as [|z xs IH]; intros x; simpl.
  - exists x. split; [left|reflexivity].
  - destruct (IH (Qmax x z)) as (y & Hy & E).
    apply elem_of_cons in Hy as [->|Hy].
    + destruct (Q.max_dec x z) as [Hm|Hm].
      * exists x. split; [left|]. by rewrite E.
      * exists z. split; [right; left|]. by rewrite E.
    + exists y. split; [by do 2 right|done].
Qed.

Lemma side_max_ub (l : list (EnrichedChunk * Q)) r :
  r ∈ l → r.2 <= Hybrid.side_max l.
Proof.
  destruct l as [|r0 rest]; [by intros ?%elem_of_nil|].
  intros Hr. simpl. apply max_of_ub.
  change (r.2 ∈ (r0 :: rest).*2). apply list_elem_of_fmap. eauto.
Qed.

Lemma side_max_attained (l : list (EnrichedChunk * Q)) :
  l ≠ [] → ∃ r, r ∈ l ∧ Hybrid.side_max l == r.2.
Proof.
  destruct l as [|r0 rest]; [done|]. intros _. simpl.
  destruct (max_of_attained r0.2 rest.*2) as (y & Hy & E).
  change (y ∈ (r0 :: rest).*2) in Hy.
  apply list_elem_of_fmap in Hy as (r & -> & Hr). eauto.
Qed.

Lemma normalized_fold l :
  Hybrid.normalized l = foldl (Hybrid.put (Hybrid.side_max l)) ∅ l.
Proof. by destruct l. Qed.

Lemma fold_put_absent mx l m k :
  k ∉ (chunk_id ∘ fst) <$> l → foldl (Hybrid.put mx) m l !! k = m !! k.
Proof.
  revert m. induction l as [|r l IH]; intros m Hk; simpl; [done|].
  rewrite fmap_cons, not_elem_of_cons in Hk. destruct Hk as [Hne Hk].
  rewrite IH by done. unfold Hybrid.put. by rewrite lookup_insert_ne.
Qed.

Lemma fold_put_last mx l1 r l2 m :
  chunk_id r.1 ∉ (chunk_id ∘ fst) <$> l2 →
  foldl (Hybrid.put mx) m (l1 ++ r :: l2) !! chunk_id r.1
  = Some (r.1, Hybrid.scaled mx r.2).
Proof.
  intros Hk. rewrite foldl_app. simpl.
  rewrite fold_put_absent by done. unfold Hybrid.put at 1.
  by rewrite lookup_insert_eq.
Qed.

(** An entry of the dictionary sits under the id of its chunk, and the
    chunk is one of the list. *)
Lemma fold_put_entry mx l k v :
  foldl (Hybrid.put mx) ∅ l !! k = Some v →
  chunk_id v.1 = k ∧ v.1 ∈ l.*1.
Proof.
  induction l as [|r l IH] using rev_ind; simpl.
  - by rewrite lookup_empty.
  - rewrite foldl_app. simpl. unfold Hybrid.put at 1.
    destruct (decide (chunk_id r.1 = k)) as [<-|Hne].
    + rewrite lookup_insert_eq. intros [= <-]. simpl.
      split; [done|]. rewrite fmap_app. apply elem_of_app. right. left.
    + rewrite lookup_insert_ne by done. intros H.
      destruct (IH H) as [? ?]. split; [done|].
      rewrite fmap_app. apply elem_of_app. by left.
Qed.

Lemma normalized_entry l k v :
  Hybrid.normalized l !! k = Some v → chunk_id v.1 = k ∧ v.1 ∈ l.*1.
Proof. rewrite normalized_fold. apply fold_put_entry. Qed.

Lemma normalized_last l1 r l2 :
  chunk_id r.1 ∉ (chunk_id ∘ fst) <$> l2 →
  Hybrid.normalized (l1 ++ r :: l2) !! chunk_id r.1
  = Some (r.1, Hybrid.scaled (Hybrid.side_max (l1 ++ r :: l2)) r.2).
Proof. intros H. rewrite normalized_fold. by apply fold_put_last. Qed.
End NormalizedFacts.

Section FusionFacts.
Local Open Scope Q_scope.
Variable iteration : gset string -> list string.

(** Every row of the fusion carries the fused score of its chunk id,
    and its chunk comes from one of the two candidate lists. *)
Lemma fusion_row bm25_results vector_results r :
  r ∈ Hybrid.reciprocal_rank_fusion iteration bm25_results vector_results →
  Hybrid.score r
    = Hybrid.fused_score bm25_results vector_results (chunk_id (Hybrid.chunk r))
  ∧ Hybrid.bm25 r
    = Hybrid.side_score (Hybrid.normalized bm25_results) (chunk_id (Hybrid.chunk r))
  ∧ Hybrid.vec r
    = Hybrid.side_score (Hybrid.normalized vector_results) (chunk_id (Hybrid.chunk r))
  ∧ (Hybrid.chunk r ∈ bm25_results.*1 ∨ Hybrid.chunk r ∈ vector_results.*1).
Proof.
  unfold Hybrid.reciprocal_rank_fusion.
  intros Hr%elem_of_sort_desc%list_elem_of_omap.
  destruct Hr as (id & _ & Hrow).
  destruct ((_ ∪ _) !! id) as [c|] eqn:Ec; [|done].
  simpl in Hrow. injection Hrow as <-. simpl.
  apply lookup_union_Some_raw in Ec.
  assert (Hid : chunk_id c = id
                ∧ (c ∈ bm25_results.*1 ∨ c ∈ vector_results.*1)).
  { destruct Ec as [Ec|[_ Ec]];
      rewrite lookup_fmap in Ec;
      [destruct (Hybrid.normalized bm25_results !! id) as [v|] eqn:Ev
      |destruct (Hybrid.normalized vector_results !! id) as [v|] eqn:Ev];
      try done; simpl in Ec; injection Ec as <-;
      apply normalized_entry in Ev as [? ?]; auto. }
  destruct Hid as [-> Hc]. by unfold Hybrid.fused_score.
Qed.

(** With a faithful iteration order every chunk id of either side has
    its row. *)
Lemma fusion_row_exists bm25_results vector_results id :
  (∀ s, iteration s ≡ₚ elements s) →
  id ∈ dom (Hybrid.normalized bm25_results)
       ∪ dom (Hybrid.normalized vector_results) →
  ∃ r, r ∈ Hybrid.reciprocal_rank_fusion iteration bm25_results vector_results
       ∧ chunk_id (Hybrid.chunk r) = id.
Proof.
  intros Hperm Hid. unfold Hybrid.reciprocal_rank_fusion.
  assert (Hc : is_Some (((fst <$> Hybrid.normalized bm25_results)
                         ∪ (fst <$> Hybrid.normalized vector_results)) !! id)).
  { apply elem_of_dom. by rewrite dom_union_L, !dom_fmap_L. }
  destruct Hc as [c Hc].
  eexists. split.
  - apply elem_of_sort_desc, list_elem_of_omap. exists id. split.
    + rewrite Hperm. by apply elem_of_elements.
    + rewrite Hc. simpl. reflexivity.
  - simpl. apply lookup_union_Some_raw in Hc.
    destruct Hc as [Hc|[_ Hc]]; rewrite lookup_fmap in Hc;
      [destruct (Hybrid.normalized bm25_results !! id) as [v|] eqn:Ev
      |destruct (Hybrid.normalized vector_results !! id) as [v|] eqn:Ev];
      try done; simpl in Hc; injection Hc as <-;
      by apply normalized_entry in Ev as [? ?].
Qed.

(** Scaling by the side's maximum is monotone in one raw score. *)
Lemma scaled_mono (s s' M M' : Q) :
  s <= s' → s <= M → s' <= M' → M <= M' → (M' == s' ∨ M' <= M) →
  Hybrid.scaled M s <= Hybrid.scaled M' s'.
Proof.
  intros Hs HsM HsM' HM Hcase. unfold Hybrid.scaled.
  destruct (Qpositive M) eqn:EM, (Qpositive M') eqn:EM'.
  - apply Qpositive_spec in EM, EM'.
    destruct Hcase as [E|Hle].
    + apply Qle_trans with 1.
      * apply Qle_shift_div_r; [done|]. lra.
      * apply Qle_shift_div_l; [done|]. lra.
    + assert (E : M' == M) by (apply Qle_antisym; done).
      rewrite E. unfold Qdiv. apply Qmult_le_compat_r; [done|].
      apply Qinv_le_0_compat. lra.
  - apply Qpositive_spec in EM. apply Qpositive_false in EM'. lra.
  - apply Qpositive_false in EM. apply Qpositive_spec in EM'.
    destruct Hcase as [E|Hle]; [|lra].
    apply Qle_shift_div_l; [done|]. lra.
  - apply Qle_refl.
Qed.

Lemma side_score_raised l1 c s s' l2 :
  s <= s' →
  chunk_id c ∉ (chunk_id ∘ fst) <$> l2 →
  Hybrid.side_score (Hybrid.normalized (l1 ++ (c, s) :: l2)) (chunk_id c)
  <= Hybrid.side_score (Hybrid.normalized (l1 ++ (c, s') :: l2)) (chunk_id c).
Proof.
  intros Hs Hlast. unfold Hybrid.side_score.
  pose proof (normalized_last l1 (c, s) l2 Hlast) as E1.
  pose proof (normalized_last l1 (c, s') l2 Hlast) as E2.
  simpl in E1, E2. rewrite E1, E2. simpl.
  set (base := l1 ++ (c, s) :: l2). set (raised := l1 ++ (c, s') :: l2).
  assert (Hb : ∀ r, r ∈ base → r = (c, s) ∨ r ∈ raised).
  { intros r. unfold base, raised. rewrite !elem_of_app, !elem_of_cons. tauto. }
  assert (Hr : ∀ r, r ∈ raised → r = (c, s') ∨ r ∈ base).
  { intros r. unfold base, raised. rewrite !elem_of_app, !elem_of_cons. tauto. }
  assert (Hin : (c, s) ∈ base)
    by (unfold base; apply elem_of_app; right; left).
  assert (Hin' : (c, s') ∈ raised)
    by (unfold raised; apply elem_of_app; right; left).
  pose proof (side_max_ub base _ Hin) as HsM.
  pose proof (side_max_ub raised _ Hin') as HsM'.
  simpl in HsM, HsM'.
  apply scaled_mono; try done.
  - destruct (side_max_attained base) as (r & Hrin & E).
    { unfold base. by destruct l1. }
    rewrite E. destruct (Hb r Hrin) as [->|Hr'].
    + simpl. eapply Qle_trans; [exact Hs|exact HsM'].
    + by apply side_max_ub.
  - destruct (side_max_attained raised) as (r & Hrin & E).
    { unfold raised. by destruct l1. }
    destruct (Hr r Hrin) as [->|Hr'].
    + by left.
    + right. rewrite E. by apply side_max_ub.
Qed.
End FusionFacts.

(** C9.  Take a candidate list in which a chunk has the raw score [s] and
    no later entry of the same id, and the same list with the score raised
    to [s'].  Whichever side the list is on, with the other side held
    fixed, the chunk has a row in both fusions, and the fused score of its
    row after the raise is not below the one before. *)
Theorem fusion_monotone (iteration : gset string -> list string)
    (l1 l2 other : list (EnrichedChunk * Q)) (c : EnrichedChunk) (s s' : Q) :
  (∀ st, iteration st ≡ₚ elements st) →
  (s <= s')%Q →
  chunk_id c ∉ (chunk_id ∘ fst) <$> l2 →
  ((∃ r r',
      r ∈ Hybrid.reciprocal_rank_fusion iteration (l1 ++ (c, s) :: l2) other
      ∧ r' ∈ Hybrid.reciprocal_rank_fusion iteration (l1 ++ (c, s') :: l2) other
      ∧ chunk_id (Hybrid.chunk r) = chunk_id c
      ∧ chunk_id (Hybrid.chunk r') = chunk_id c)
   ∧ ∀ r r',
      r ∈ Hybrid.reciprocal_rank_fusion iteration (l1 ++ (c, s) :: l2) other →
      r' ∈ Hybrid.reciprocal_rank_fusion iteration (l1 ++ (c, s') :: l2) other →
      chunk_id (Hybrid.chunk r) = chunk_id c →
      chunk_id (Hybrid.chunk r') = chunk_id c →
      (Hybrid.score r <= Hybrid.score r')%Q)
  ∧ ((∃ r r',
      r ∈ Hybrid.reciprocal_rank_fusion iteration other (l1 ++ (c, s) :: l2)
      ∧ r' ∈ Hybrid.reciprocal_rank_fusion iteration other (l1 ++ (c, s') :: l2)
      ∧ chunk_id (Hybrid.chunk r) = chunk_id c
      ∧ chunk_id (Hybrid.chunk r') = chunk_id c)
   ∧ ∀ r r',
      r ∈ Hybrid.reciprocal_rank_fusion iteration other (l1 ++ (c, s) :: l2) →
      r' ∈ Hybrid.reciprocal_rank_fusion iteration other (l1 ++ (c, s') :: l2) →
      chunk_id (Hybrid.chunk r) = chunk_id c →
      chunk_id (Hybrid.chunk r') = chunk_id c →
      (Hybrid.score r <= Hybrid.score r')%Q).
Proof.
  intros Hperm Hs Hlast.
  pose proof (side_score_raised l1 c s s' l2 Hs Hlast) as Hside.
  assert (Hdom : ∀ x, chunk_id c ∈ dom (Hybrid.normalized (l1 ++ (c, x) :: l2))).
  { intros x. apply elem_of_dom.
    pose proof (normalized_last l1 (c, x) l2 Hlast) as E. simpl in E.
    rewrite E. eauto. }
  assert (Hw1 : (0 <= Hybrid.bm25_weight)%Q) by (by vm_compute).
  assert (Hw2 : (0 <= Hybrid.vector_weight)%Q) by (by vm_compute).
  split; split.
  - destruct (fusion_row_exists iteration (l1 ++ (c, s) :: l2) other (chunk_id c))
      as (r & Hr & Er); [done|apply elem_of_union_l, Hdom|].
    destruct (fusion_row_exists iteration (l1 ++ (c, s') :: l2) other (chunk_id c))
      as (r' & Hr' & Er'); [done|apply elem_of_union_l, Hdom|].
    by exists r, r'.
  - intros r r' Hr Hr' Er Er'.
    apply fusion_row in Hr as [-> _]. apply fusion_row in Hr' as [-> _].
    rewrite Er, Er'. unfold Hybrid.fused_score.
    apply Qplus_le_compat; [|apply Qle_refl].
    rewrite !(Qmult_comm Hybrid.bm25_weight).
    by apply Qmult_le_compat_r.
  - destruct (fusion_row_exists iteration other (l1 ++ (c, s) :: l2) (chunk_id c))
      as (r & Hr & Er); [done|apply elem_of_union_r, Hdom|].
    destruct (fusion_row_exists iteration other (l1 ++ (c, s') :: l2) (chunk_id c))
      as (r' & Hr' & Er'); [done|apply elem_of_union_r, Hdom|].
    by exists r, r'.
  - intros r r' Hr Hr' Er Er'.
    apply fusion_row in Hr as [-> _]. apply fusion_row in Hr' as [-> _].
    rewrite Er, Er'. unfold Hybrid.fused_score.
    apply Qplus_le_compat; [apply Qle_refl|].
    rewrite !(Qmult_comm Hybrid.vector_weight).
    by apply Qmult_le_compat_r.
Qed.

Lemma fusion_monotone_witness :
  (∀ st : gset string, elements st ≡ₚ elements st)
  ∧ (1 <= 3)%Q
  ∧ (chunk_id Sample.chunk2 ∉ (chunk_id ∘ fst) <$> [(Sample.chunk1, 4%Q)])
  ∧ ∀ r r',
      r ∈ Hybrid.reciprocal_rank_fusion elements
            ([] ++ (Sample.chunk2, 1%Q) :: [(Sample.chunk1, 4%Q)]) Sample.semantic →
      r' ∈ Hybrid.reciprocal_rank_fusion elements
            ([] ++ (Sample.chunk2, 3%Q) :: [(Sample.chunk1, 4%Q)]) Sample.semantic →
      chunk_id (Hybrid.chunk r) = chunk_id Sample.chunk2 →
      chunk_id (Hybrid.chunk r') = chunk_id Sample.chunk2 →
      (Hybrid.score r <= Hybrid.score r')%Q.
Proof.
  assert (H1 : ∀ st : gset string, elements st ≡ₚ elements st)
    by (intros st; reflexivity).
  assert (H2 : (1 <= 3)%Q) by (vm_compute; discriminate).
  assert (H3 : chunk_id Sample.chunk2
               ∉ (chunk_id ∘ fst) <$> [(Sample.chunk1, 4%Q)]).
  { vm_compute. intros H. apply list_elem_of_singleton in H. discriminate H. }
  split; [exact H1|]. split; [exact H2|]. split; [exact H3|].
  exact (proj2 (proj1 (fusion_monotone elements [] [(Sample.chunk1, 4%Q)]
                         Sample.semantic Sample.chunk2 1%Q 3%Q H1 H2 H3))).
Defined.

Lemma normalized_absent (l : list (EnrichedChunk * Q)) (id : string) :
  id ∉ (chunk_id ∘ fst) <$> l → Hybrid.side_score (Hybrid.normalized l) id = 0%Q.
Proof.
  intros H. unfold Hybrid.side_score.
  rewrite normalized_fold, fold_put_absent by done.
  by rewrite lookup_empty.
Qed.

(** What holds of the rows for every order of the ids holds of the
    fusion, whatever the iteration order of the set. *)
Lemma fusion_three_chunks (iteration : gset string -> list string)
    (bm25_results vector_results : list (EnrichedChunk * Q)) :
  (∀ st, iteration st ≡ₚ elements st) →
  (∀ ids, ids ∈ permutations
                  (elements (dom (Hybrid.normalized bm25_results)
                             ∪ dom (Hybrid.normalized vector_results))) →
     let rows :=
       Py.sort_desc Hybrid.score
         (omap (fun id =>
                  c ← ((fst <$> Hybrid.normalized bm25_results)
                       ∪ (fst <$> Hybrid.normalized vector_results)) !! id;
                  Some {| Hybrid.chunk := c;
                          Hybrid.bm25 :=
                            Hybrid.side_score (Hybrid.normalized bm25_results) id;
                          Hybrid.vec :=
                            Hybrid.side_score (Hybrid.normalized vector_results) id;
                          Hybrid.boost := 0;
                          Hybrid.score :=
                            Hybrid.bm25_weight
                            * Hybrid.side_score (Hybrid.normalized bm25_results) id
                            + Hybrid.vector_weight
                              * Hybrid.side_score
                                  (Hybrid.normalized vector_results) id |})
               ids) in
     map (fun r => chunk_id (Hybrid.chunk r)) rows = ["chunk2"; "chunk1"; "chunk3"]
     ∧ Forall2 Qeq (map Hybrid.bm25 rows) [0; 1; 0]%Q
     ∧ Forall2 Qeq (map Hybrid.vec rows) [1; 0; 0.5]%Q
     ∧ Forall2 Qeq (map Hybrid.score rows) [0.6; 0.4; 0.3]%Q) →
  map (fun r => chunk_id (Hybrid.chunk r))
      (Hybrid.reciprocal_rank_fusion iteration bm25_results vector_results)
    = ["chunk2"; "chunk1"; "chunk3"]
  ∧ Forall2 Qeq
      (map Hybrid.bm25
         (Hybrid.reciprocal_rank_fusion iteration bm25_results vector_results))
      [0; 1; 0]%Q
  ∧ Forall2 Qeq
      (map Hybrid.vec
         (Hybrid.reciprocal_rank_fusion iteration bm25_results vector_results))
      [1; 0; 0.5]%Q
  ∧ Forall2 Qeq
      (map Hybrid.score
         (Hybrid.reciprocal_rank_fusion iteration bm25_results vector_results))
      [0.6; 0.4; 0.3]%Q.
Proof.
  intros Hperm Hall. unfold Hybrid.reciprocal_rank_fusion. cbv zeta.
  apply Hall. apply permutations_Permutation. symmetry. apply Hperm.
Qed.

(** C1.  On the worked example (lexical raw scores 4, 0, 0 and semantic
    raw scores 0, 2, 1 for chunk1, chunk2, chunk3) the fusion returns the
    rows in the order chunk2, chunk1, chunk3, with normalized lexical
    scores 0, 1, 0, normalized semantic scores 1, 0, 1/2 and fused scores
    0.6, 0.4, 0.3, whatever the order in which the set of ids is
    iterated; and it returns the same when each side lists only the
    chunks that it found (chunk1 on the lexical side, chunk2 and chunk3 on
    the semantic side).  For all candidate lists the fused score of a row
    is 0.4 times its normalized lexical score plus 0.6 times its
    normalized semantic score, and the normalized score of a side that
    does not list the chunk is 0. *)
Theorem fusion_worked_example (iteration : gset string -> list string) :
  (∀ st, iteration st ≡ₚ elements st) →
  (map (fun r => chunk_id (Hybrid.chunk r))
      (Hybrid.reciprocal_rank_fusion iteration Sample.lexical Sample.semantic)
    = ["chunk2"; "chunk1"; "chunk3"]
  ∧ Forall2 Qeq
      (map Hybrid.bm25
         (Hybrid.reciprocal_rank_fusion iteration Sample.lexical Sample.semantic))
      [0; 1; 0]%Q
  ∧ Forall2 Qeq
      (map Hybrid.vec
         (Hybrid.reciprocal_rank_fusion iteration Sample.lexical Sample.semantic))
      [1; 0; 0.5]%Q
  ∧ Forall2 Qeq
      (map Hybrid.score
         (Hybrid.reciprocal_rank_fusion iteration Sample.lexical Sample.semantic))
      [0.6; 0.4; 0.3]%Q)
  ∧ (map (fun r => chunk_id (Hybrid.chunk r))
       (Hybrid.reciprocal_rank_fusion iteration
          Sample.lexical_found Sample.semantic_found)
     = ["chunk2"; "chunk1"; "chunk3"]
   ∧ Forall2 Qeq
       (map Hybrid.bm25
          (Hybrid.reciprocal_rank_fusion iteration
             Sample.lexical_found Sample.semantic_found))
       [0; 1; 0]%Q
   ∧ Forall2 Qeq
       (map Hybrid.vec
          (Hybrid.reciprocal_rank_fusion iteration
             Sample.lexical_found Sample.semantic_found))
       [1; 0; 0.5]%Q
   ∧ Forall2 Qeq
       (map Hybrid.score
          (Hybrid.reciprocal_rank_fusion iteration
             Sample.lexical_found Sample.semantic_found))
       [0.6; 0.4; 0.3]%Q)
  ∧ ∀ bm25_results vector_results r,
      r ∈ Hybrid.reciprocal_rank_fusion iteration bm25_results vector_results →
      Hybrid.score r = (0.4 * Hybrid.bm25 r + 0.6 * Hybrid.vec r)%Q
      ∧ (chunk_id (Hybrid.chunk r) ∉ (chunk_id ∘ fst) <$> bm25_results →
         Hybrid.bm25 r = 0%Q)
      ∧ (chunk_id (Hybrid.chunk r) ∉ (chunk_id ∘ fst) <$> vector_results →
         Hybrid.vec r = 0%Q).
Proof.
  intros Hperm. split; [|split].
  - apply (fusion_three_chunks iteration _ _ Hperm).
    intros ids Hp. vm_compute in Hp.
    repeat (apply elem_of_cons in Hp as [->|Hp];
            [vm_compute; repeat split; repeat constructor|]).
    by apply elem_of_nil in Hp.
  - apply (fusion_three_chunks iteration _ _ Hperm).
    intros ids Hp. vm_compute in Hp.
    repeat (apply elem_of_cons in Hp as [->|Hp];
            [vm_compute; repeat split; repeat constructor|]).
    by apply elem_of_nil in Hp.
  - intros bm vs r Hr.
    destruct (fusion_row iteration bm vs r Hr) as (Hs & Hb & Hv & _).
    split; [by rewrite Hs, Hb, Hv|].
    split; intros Habs.
    + rewrite Hb. by apply normalized_absent.
    + rewrite Hv. by apply normalized_absent.
Qed.

Lemma fusion_worked_example_witness :
  (∀ st : gset string, elements st ≡ₚ elements st)
  ∧ map (fun r => chunk_id (Hybrid.chunk r))
        (Hybrid.reciprocal_rank_fusion elements Sample.lexical Sample.semantic)
    = ["chunk2"; "chunk1"; "chunk3"]
  ∧ Forall2 Qeq
      (map Hybrid.bm25
         (Hybrid.reciprocal_rank_fusion elements
            Sample.lexical_found Sample.semantic_found))
      [0; 1; 0]%Q
  ∧ Forall2 Qeq
      (map Hybrid.score
         (Hybrid.reciprocal_rank_fusion elements
            Sample.lexical_found Sample.semantic_found))
      [0.6; 0.4; 0.3]%Q.
Proof.
  assert (H : ∀ st : gset string, elements st ≡ₚ elements st)
    by (intros st; reflexivity).
  split; [exact H|].
  destruct (fusion_worked_example elements H) as ((H1 & _) & (_ & H2 & _ & H3) & _).
  split; [exact H1|]. split; [exact H2|exact H3].
Defined.

(** ** Threshold selection *)



(** [search] is the selection applied to the ranked rows whose document
    is known. *)
Lemma search_unfold iteration now h q thr mn mx strict :
  Hybrid.search iteration now h q thr mn mx strict
  = rows ← Hybrid.rank iteration now h q
             (BM25.search_with_filters (Hybrid.bm25_engine h) q)
             (Hybrid.vector_search_with_filters h q);
    Returned (Hybrid.select_results thr mn mx strict (Hybrid.to_results h rows)).
Proof. reflexivity. Qed.




(** ** Normalization to the top score *)

Section NormalizeFacts.
Local Open Scope Q_scope.

(** On rows in descending order with a positive first score the
    division makes the first score 1 and leaves no score above 1. *)
Lemma normalize_results_sorted (r0 : Hybrid.row) (rest : list Hybrid.row) :
  StronglySorted (Py.descending Hybrid.score) (r0 :: rest) →
  0 < Hybrid.score r0 →
  ∃ n0 nrest,
    Hybrid.normalize_results (r0 :: rest) = n0 :: nrest
    ∧ Hybrid.score n0 == 1
    ∧ Forall (fun r => Hybrid.score r <= 1) (n0 :: nrest).
Proof.
  intros Hs Hpos. unfold Hybrid.normalize_results.
  apply Qpositive_spec in Hpos as Hp. rewrite Hp.
  simpl. eexists _, _. split; [reflexivity|]. simpl.
  assert (Hone : Hybrid.score r0 / Hybrid.score r0 == 1)
    by (field; lra).
  split; [exact Hone|].
  constructor; [simpl; by rewrite Hone|].
  apply StronglySorted_cons in Hs as [Hall _].
  apply Forall_forall. intros r Hr.
  apply list_elem_of_fmap in Hr as (x & -> & Hx).
  simpl. rewrite Forall_forall in Hall. specialize (Hall x Hx).
  apply Qle_shift_div_r; [done|].
  unfold Py.descending in Hall. lra.
Qed.

(** Without a reranker the ranked rows are in descending order before
    the division. *)
Lemma rank_without_reranker iteration now h q bm25_results vector_results :
  Hybrid.cross_encoder h = None →
  Hybrid.rank iteration now h q bm25_results vector_results
  = Returned
      (Hybrid.normalize_results
         (Hybrid.apply_metadata_boosting now h
            (Hybrid.reciprocal_rank_fusion iteration bm25_results vector_results)
            q)).
Proof.
  intros Hce. unfold Hybrid.rank, Hybrid.rerank_stage. by rewrite Hce.
Qed.

Lemma apply_metadata_boosting_sorted now h rows q :
  StronglySorted (Py.descending Hybrid.score)
    (Hybrid.apply_metadata_boosting now h rows q).
Proof. apply sort_desc_sorted. Qed.
(** Without a reranker the claim of the normalization holds: a non-empty
    ranking either has first score 1 and no score above 1, or its first
    score was not positive and nothing was divided. *)
Lemma rank_without_reranker_top iteration now h q bm25_results vector_results rows :
  Hybrid.cross_encoder h = None →
  Hybrid.rank iteration now h q bm25_results vector_results = Returned rows →
  match rows with
  | [] => True
  | r0 :: _ =>
      (Hybrid.score r0 == 1 ∧ Forall (fun r => Hybrid.score r <= 1) rows)
      ∨ (Hybrid.score r0 <= 0
         ∧ rows = Hybrid.apply_metadata_boosting now h
                    (Hybrid.reciprocal_rank_fusion iteration bm25_results
                       vector_results) q)
  end.
Proof.
  intros Hce. rewrite rank_without_reranker by done. intros [= <-].
  pose proof (apply_metadata_boosting_sorted now h
                (Hybrid.reciprocal_rank_fusion iteration bm25_results
                   vector_results) q) as Hs.
  destruct (Hybrid.apply_metadata_boosting _ _ _ _) as [|b0 rest] eqn:Eb;
    [done|].
  destruct (Qpositive (Hybrid.score b0)) eqn:Ep.
  - apply Qpositive_spec in Ep.
    destruct (normalize_results_sorted b0 rest Hs Ep) as (n0 & nrest & -> & H1 & Hall).
    by left.
  - unfold Hybrid.normalize_results. rewrite Ep.
    right. split; [by apply Qpositive_false|done].
Qed.
End NormalizeFacts.

(** C3.  A statute of 21 chunks which the semantic index finds at equal
    distance, and a reranker that scores every pair 0: the 20 reranked
    rows drop to 0.18, the untouched last row keeps 0.6, and the division
    by the score of the first row leaves 20 results at 1 and the last
    result at 10/3.  The largest final score of the non-empty result set
    is 10/3 and not 1. *)
Theorem normalization_after_rerank_example :
  Hybrid.final_scores
    (Hybrid.search elements 0%Z Sample.reranking_engine Sample.wide_query
       0.3 3 25 false)
  = Returned (replicate 20 1%Q ++ [(10 # 3)%Q])
  ∧ ¬ (10 # 3 <= 1)%Q.
Proof. split; [vm_compute; reflexivity|]. by vm_compute. Qed.

(** ** Degraded mode: the semantic side fails or is empty *)


Section DegradedFacts.
Variable iteration : gset string -> list string.
Variable now : datetime.

Lemma rows_within_perm cs rows rows' :
  rows ≡ₚ rows' → Hybrid.rows_within cs rows → Hybrid.rows_within cs rows'.
Proof. intros Hp H r Hr. apply H. by rewrite Hp. Qed.






Lemma normalize_results_within cs rows :
  Hybrid.rows_within cs rows → Hybrid.rows_within cs (Hybrid.normalize_results rows).
Proof.
  intros H r Hr. unfold Hybrid.normalize_results in Hr.
  destruct rows as [|r0 rows]; [by apply elem_of_nil in Hr|].
  destruct (Qpositive _); [|by apply H].
  apply list_elem_of_fmap in Hr as (x & -> & Hx). simpl. by apply H.
Qed.

Lemma select_results_sublist thr mn mx strict results r :
  r ∈ Hybrid.select_results thr mn mx strict results → r ∈ results.
Proof.
  unfold Hybrid.select_results. intros Hr.
  assert (Hab : ∀ x, x ∈ List.filter (Hybrid.is_above thr) results → x ∈ results).
  { intros x Hx. apply list_elem_of_In, filter_In in Hx as [Hx _].
    by apply list_elem_of_In. }
  assert (Hbe : ∀ x, x ∈ List.filter (fun r => negb (Hybrid.is_above thr r)) results
                     → x ∈ results).
  { intros x Hx. apply list_elem_of_In, filter_In in Hx as [Hx _].
    by apply list_elem_of_In. }
  destruct strict; [by apply elem_of_slice_to, Hab in Hr|].
  destruct (_ <=? _)%Z; [by apply elem_of_slice_to, Hab in Hr|].
  apply elem_of_slice_to, elem_of_app in Hr as [Hr|Hr]; [by apply Hab|].
  by apply elem_of_slice_to, Hbe in Hr.
Qed.


Lemma to_results_within cs h rows r :
  Hybrid.rows_within cs rows → r ∈ Hybrid.to_results h rows → Hybrid.sr_chunk r ∈ cs.
Proof.
  intros H Hr. unfold Hybrid.to_results in Hr.
  apply list_elem_of_omap in Hr as (x & Hx & E).
  destruct (BM25.get_document _ _); [|done].
  simpl in E. injection E as <-. simpl. by apply H.
Qed.

End DegradedFacts.


Example degraded_search_runs :
  Hybrid.final_scores
    (Hybrid.search elements 0%Z Sample.lexical_engine
       (Sample.plain_query "indemnity" None) 0.3 3 10 false)
  = Returned [1%Q; 1%Q].
Proof. vm_compute. reflexivity. Qed.

(** ** The index manager *)

(** C4.  Two files with the same bytes at two paths of the folder, indexed
    in one run into an empty knowledge base: both are parsed, and the
    corpus holds two documents with the same id (the first 12 characters
    of the hash of the content) where the deduplication by content hash
    asks for one. *)
Theorem index_directory_same_run_duplicates
    (sha256 : list ascii -> string)
    (okapi : list (list string) -> list string -> list string -> Q)
    (content : list ascii) :
  map Doc.doc_id
    (Indexer.documents
       (Indexer.mgr
          (Indexer.index_directory sha256 (fun _ => Returned Sample.paragraph)
             okapi (Returned Sample.encoder) Sample.flat_index ["kb"]
             [Sample.copy_a content; Sample.copy_b content] false
             {| Indexer.mgr := Indexer.fresh; Indexer.fs := Sample.empty_disk |}).2))
  = [Indexer.hash_prefix (sha256 content); Indexer.hash_prefix (sha256 content)]
  ∧ map Doc.file_path
      (Indexer.documents
         (Indexer.mgr
            (Indexer.index_directory sha256 (fun _ => Returned Sample.paragraph)
               okapi (Returned Sample.encoder) Sample.flat_index ["kb"]
               [Sample.copy_a content; Sample.copy_b content] false
               {| Indexer.mgr := Indexer.fresh; Indexer.fs := Sample.empty_disk |}).2))
    = [["kb"; "a.txt"]; ["kb"; "copies"; "b.txt"]]
  ∧ (Indexer.index_directory sha256 (fun _ => Returned Sample.paragraph)
       okapi (Returned Sample.encoder) Sample.flat_index ["kb"]
       [Sample.copy_a content; Sample.copy_b content] false
       {| Indexer.mgr := Indexer.fresh; Indexer.fs := Sample.empty_disk |}).1
    = Returned (Indexer.Success 2 2 0 0 2).
Proof. repeat split; reflexivity. Qed.

(** The id of a parsed document depends on the bytes of the file only. *)
Lemma parse_document_id sha256 extract (f g : Indexer.file) d d' :
  Indexer.f_bytes f = Indexer.f_bytes g →
  Indexer.parse_document sha256 extract f = Some d →
  Indexer.parse_document sha256 extract g = Some d' →
  Doc.doc_id d = Doc.doc_id d'
  ∧ Doc.doc_id d = String.substring 0 12 (sha256 (Indexer.f_bytes f)).
Proof.
  unfold Indexer.parse_document, Indexer.compute_file_hash, Indexer.hash_prefix.
  intros E Hd Hd'.
  destruct (extract f), (extract g); try done.
  injection Hd as <-. injection Hd' as <-. simpl. by rewrite E.
Qed.

(** The duplicate check of the parsing loop looks at the documents that
    were on disk before the run: a file whose hash is known from another
    folder is skipped. *)
Lemma parse_step_known_elsewhere sha256 extract target existing removed acc f d :
  existing !! Indexer.compute_file_hash sha256 f = Some d →
  Indexer.compute_file_hash sha256 f ∉ removed →
  Indexer.new_documents
    (Indexer.parse_step sha256 extract target false existing removed acc f)
  = Indexer.new_documents acc.
Proof.
  intros Hd Hr. unfold Indexer.parse_step. rewrite Hd. simpl.
  by rewrite bool_decide_eq_false_2.
Qed.

(** A file whose hash was not on disk is parsed and appended, whatever
    the run has collected so far. *)
Lemma parse_step_unknown sha256 extract target force existing removed acc f d :
  existing !! Indexer.compute_file_hash sha256 f = None →
  Indexer.parse_document sha256 extract f = Some d →
  Indexer.new_documents
    (Indexer.parse_step sha256 extract target force existing removed acc f)
  = Indexer.new_documents acc ++ [Indexer.with_source_folder target d].
Proof.
  intros Hd Hp. unfold Indexer.parse_step. rewrite Hd, Hp.
  by destruct force.
Qed.

Lemma bind_run {A B} (m : Indexer.M A) (f : A -> Indexer.M B) w a w' :
  m w = (Returned a, w') → (Indexer.bind m f) w = f a w'.
Proof. unfold Indexer.bind. by intros ->. Qed.

Lemma bind_raise {A B} (m : Indexer.M A) (f : A -> Indexer.M B) w e w' :
  m w = (Raised e, w') → (Indexer.bind m f) w = (Raised e, w').
Proof. unfold Indexer.bind. by intros ->. Qed.

Section LoadFacts.
Variable okapi : list (list string) -> list string -> list string -> Q.
Variable SentenceTransformer : outcome Indexer.encoder.

Lemma build_index_outcome docs e :
  (BM25.build_index okapi docs e).1
  = if BM25.build_raises docs then Raised ZeroDivisionError else Returned tt.
Proof.
  unfold BM25.build_index, BM25.build_raises.
  destruct (flat_map _ docs) as [|c cs]; [done|].
  cbn [map]. by destruct (BM25.fit_raises _).
Qed.

Lemma build_index_state docs e :
  BM25.chunks (BM25.build_index okapi docs e).2 = flat_map Doc.chunks docs
  ∧ BM25.documents (BM25.build_index okapi docs e).2
    = BM25.documents (BM25.built okapi docs)
  ∧ BM25.tokenized_corpus (BM25.build_index okapi docs e).2
    = map (fun c => Tokenizer.tokenize (text c)) (flat_map Doc.chunks docs)
  ∧ BM25.bm25_index (BM25.build_index okapi docs e).2
    = if BM25.build_raises docs then BM25.bm25_index e
      else BM25.bm25_index (BM25.built okapi docs).
Proof.
  unfold BM25.build_index, BM25.build_raises, BM25.built.
  destruct (flat_map _ docs) as [|c cs]; [done|].
  cbn [map]. by destruct (BM25.fit_raises _).
Qed.

(** [load_index] on a corpus file that is missing or readable: the
    outcome and the engine are those of [build_index] on the engine as
    it was. *)
Lemma bm25_load_index_run corpus_file docs w :
  corpus_file ≠ Indexer.Unreadable →
  Indexer.bm25_load_index okapi corpus_file docs w
  = ((BM25.build_index okapi docs (Indexer.bm25_engine (Indexer.mgr w))).1,
     {| Indexer.mgr :=
          Indexer.set_bm25_engine
            (BM25.build_index okapi docs (Indexer.bm25_engine (Indexer.mgr w))).2
            (Indexer.mgr w);
        Indexer.fs := Indexer.fs w |}).
Proof.
  intros Hc. unfold Indexer.bm25_load_index, Indexer.bm25_build_index.
  unfold mbind, Indexer.M_bind, Indexer.bind.
  destruct corpus_file as [| |corpus]; [|done|]; cbn;
    unfold BM25.build_index;
    destruct (map _ (flat_map _ docs)) as [|t ts]; try done;
    by destruct (BM25.fit_raises _).
Qed.

(** What [load_indexes] does on an undamaged directory. *)
Lemma load_indexes_undamaged w docs cks index corpus_file :
  Indexer.docs_file (Indexer.fs w) = Indexer.Stored docs →
  Indexer.chunks_file (Indexer.fs w) = Indexer.Stored cks →
  Indexer.faiss_index_file (Indexer.fs w) = Indexer.Stored index →
  Indexer.bm25_dir (Indexer.fs w) = Some corpus_file →
  corpus_file ≠ Indexer.Unreadable →
  ∃ w',
    Indexer.load_indexes okapi SentenceTransformer w
    = (Returned
         (negb (BM25.build_raises docs)
          && match Indexer.embedding_model (Indexer.mgr w), SentenceTransformer with
             | Some _, _ => true
             | None, Returned _ => true
             | None, Raised _ => false
             end), w')
    ∧ Indexer.fs w' = Indexer.fs w
    ∧ Indexer.documents (Indexer.mgr w') = docs.
Proof.
  intros Hd Hc Hf Hb Hne.
  unfold Indexer.load_indexes, Indexer.try_except.
  unfold mbind at 1, Indexer.M_bind.
  erewrite bind_run by reflexivity.
  rewrite Hd. cbn [Indexer.exists_ negb].
  unfold mbind at 1 2, Indexer.M_bind.
  erewrite bind_run by reflexivity.
  erewrite bind_run by reflexivity.
  rewrite Hc. cbn [Indexer.exists_ negb].
  unfold mbind at 1 2, Indexer.M_bind.
  erewrite bind_run by reflexivity.
  erewrite bind_run by reflexivity.
  rewrite Hf. cbn [Indexer.exists_ negb].
  unfold mbind at 1 2, Indexer.M_bind.
  erewrite bind_run by reflexivity.
  erewrite bind_run by reflexivity.
  rewrite Hb.
  unfold mbind at 1, Indexer.M_bind. unfold Indexer.bind at 1.
  rewrite (bm25_load_index_run _ _ _ Hne).
  pose proof (build_index_outcome docs
    (Indexer.bm25_engine
       (Indexer.mgr
          {| Indexer.mgr :=
               Indexer.set_faiss_index (Some index)
                 (Indexer.mgr
                    {| Indexer.mgr :=
                         Indexer.set_chunks cks
                           (Indexer.mgr
                              {| Indexer.mgr :=
                                   Indexer.set_documents docs (Indexer.mgr w);
                                 Indexer.fs := Indexer.fs w |});
                       Indexer.fs := Indexer.fs w |});
             Indexer.fs := Indexer.fs w |}))) as Ho.
  cbn [Indexer.mgr Indexer.fs] in *.
  destruct (BM25.build_index okapi docs _) as [o e]. cbn [fst snd] in *. subst o.
  destruct (BM25.build_raises docs); [by eexists|]. cbn [negb andb].
  unfold Indexer.initialize_models.
  unfold mbind, Indexer.M_bind, Indexer.bind, Indexer.get, Indexer.lift,
    Indexer.modify_mgr, Indexer.ret.
  cbn. destruct (Indexer.embedding_model (Indexer.mgr w)); [by eexists|].
  destruct SentenceTransformer; by eexists.
Qed.

(** What [load_indexes] does on a damaged directory: the answer is
    [False], the disk is untouched, the documents of a readable
    documents file are loaded all the same, and the manager is as before
    when the documents file cannot be read. *)
Lemma load_indexes_damaged w :
  Indexer.damaged (Indexer.fs w) →
  (Indexer.load_indexes okapi SentenceTransformer w).1 = Returned false
  ∧ Indexer.fs (Indexer.load_indexes okapi SentenceTransformer w).2 = Indexer.fs w
  ∧ (∀ docs, Indexer.docs_file (Indexer.fs w) = Indexer.Stored docs →
     Indexer.documents
       (Indexer.mgr (Indexer.load_indexes okapi SentenceTransformer w).2) = docs)
  ∧ (¬ Indexer.stored (Indexer.docs_file (Indexer.fs w)) →
     Indexer.mgr (Indexer.load_indexes okapi SentenceTransformer w).2
     = Indexer.mgr w).
Proof.
  destruct w as [m [df cf ff bd]].
  unfold Indexer.damaged, Indexer.load_indexes, Indexer.try_except.
  cbn [Indexer.fs Indexer.docs_file Indexer.chunks_file Indexer.faiss_index_file
       Indexer.bm25_dir].
  intros Hdam.
  destruct df as [| |docs], cf as [| |cks], ff as [| |fi'],
           bd as [[| |corpus]|];
    try (exfalso; simpl in Hdam; intuition (try discriminate; eauto); fail);
    cbn; (split; [done|]); (split; [done|]);
    (split; [intros ? [= <-]; done || discriminate|]);
    intros Hs; try done; exfalso; by apply Hs.
Qed.

(** C7, as amended.  [load_indexes] never raises and never writes to the
    disk.  It returns [False] whenever the documents file, the chunks
    file or the FAISS file is missing or unreadable, the BM25 directory
    is missing, or its corpus file is unreadable.  From an undamaged
    directory, of which a BM25 directory without corpus file is one, it
    returns [True] exactly when the rebuild of the lexical index does not
    raise (it raises when the stored documents have chunks of which none
    holds a token) and the embedding model is there or loads.  There is
    no rollback: the documents read from a readable documents file stay
    in the manager whatever fails later, and only a failure at the
    documents file leaves the manager as it was. *)
Theorem load_indexes_outcome (w : Indexer.world) :
  (∃ b, (Indexer.load_indexes okapi SentenceTransformer w).1 = Returned b)
  ∧ Indexer.fs (Indexer.load_indexes okapi SentenceTransformer w).2 = Indexer.fs w
  ∧ (Indexer.damaged (Indexer.fs w) →
     (Indexer.load_indexes okapi SentenceTransformer w).1 = Returned false)
  ∧ (¬ Indexer.damaged (Indexer.fs w) →
     ∀ docs, Indexer.docs_file (Indexer.fs w) = Indexer.Stored docs →
       ((Indexer.load_indexes okapi SentenceTransformer w).1 = Returned true
        ↔ BM25.build_raises docs = false
          ∧ (is_Some (Indexer.embedding_model (Indexer.mgr w))
             ∨ ∃ model, SentenceTransformer = Returned model)))
  ∧ (∀ docs, Indexer.docs_file (Indexer.fs w) = Indexer.Stored docs →
     Indexer.documents
       (Indexer.mgr (Indexer.load_indexes okapi SentenceTransformer w).2) = docs)
  ∧ (¬ Indexer.stored (Indexer.docs_file (Indexer.fs w)) →
     Indexer.mgr (Indexer.load_indexes okapi SentenceTransformer w).2
     = Indexer.mgr w).
Proof.
  assert (Hcases : Indexer.damaged (Indexer.fs w)
            ∨ ∃ docs cks index corpus_file,
                Indexer.docs_file (Indexer.fs w) = Indexer.Stored docs
                ∧ Indexer.chunks_file (Indexer.fs w) = Indexer.Stored cks
                ∧ Indexer.faiss_index_file (Indexer.fs w) = Indexer.Stored index
                ∧ Indexer.bm25_dir (Indexer.fs w) = Some corpus_file
                ∧ corpus_file ≠ Indexer.Unreadable).
  { unfold Indexer.damaged.
    destruct (Indexer.docs_file (Indexer.fs w)) as [| |docs];
      [left; left; by intros []..|].
    destruct (Indexer.chunks_file (Indexer.fs w)) as [| |cks];
      [left; right; left; by intros []..|].
    destruct (Indexer.faiss_index_file (Indexer.fs w)) as [| |index];
      [left; right; right; left; by intros []..|].
    destruct (Indexer.bm25_dir (Indexer.fs w)) as [[| |corpus]|];
      [right|left; by repeat right|right|left; right; right; right; by left];
      eexists _, _, _, _; by repeat split. }
  destruct Hcases as [Hdam|(docs & cks & index & corpus_file & Hd & Hc & Hf & Hb & Hne)].
  - destruct (load_indexes_damaged w Hdam) as (H1 & H2 & H3 & H4).
    split; [by eauto|]. split; [done|]. split; [done|]. split; [done|].
    by split.
  - destruct (load_indexes_undamaged w docs cks index corpus_file Hd Hc Hf Hb Hne)
      as (w' & E & Hfs & Hdocs).
    assert (Hnd : ¬ Indexer.damaged (Indexer.fs w)).
    { unfold Indexer.damaged. rewrite Hd, Hc, Hf, Hb. simpl.
      intros [H|[H|[H|[H|H]]]]; try by apply H.
      - discriminate H.
      - injection H as ->. done. }
    rewrite E. cbn [fst snd].
    split; [by eauto|]. split; [done|]. split; [done|]. split; [|split].
    + intros _ docs' Hd'. rewrite Hd in Hd'. injection Hd' as <-.
      destruct (BM25.build_raises docs); cbn [negb andb].
      * split; [done|]. by intros [? _].
      * destruct (Indexer.embedding_model (Indexer.mgr w)) as [em|].
        { split; [|done]. intros _. split; [done|]. left. by eauto. }
        destruct SentenceTransformer as [model|e].
        { split; [|done]. intros _. split; [done|]. right. by eauto. }
        split; [done|]. intros [_ [[? [=]]|[? [=]]]].
    + intros docs' Hd'. rewrite Hd in Hd'. by injection Hd' as <-.
    + rewrite Hd. intros H. exfalso. by apply H.
Qed.
End LoadFacts.

(** C7, the counterexamples.  The documents file is readable and the
    chunks file is gone: the load fails, and the manager, empty before,
    now holds the documents and no chunks.  And a directory whose BM25
    directory holds no corpus file is no failure: the lexical index is
    rebuilt from the documents and the load succeeds. *)
Lemma load_indexes_counterexample :
  ((Indexer.load_indexes Sample.overlap (Returned Sample.encoder)
      {| Indexer.mgr := Indexer.fresh; Indexer.fs := Sample.disk_without_chunks |}).1
   = Returned false
   ∧ ¬ Indexer.is_empty
         (Indexer.mgr
            (Indexer.load_indexes Sample.overlap (Returned Sample.encoder)
               {| Indexer.mgr := Indexer.fresh;
                  Indexer.fs := Sample.disk_without_chunks |}).2)
   ∧ Indexer.documents
       (Indexer.mgr
          (Indexer.load_indexes Sample.overlap (Returned Sample.encoder)
             {| Indexer.mgr := Indexer.fresh;
                Indexer.fs := Sample.disk_without_chunks |}).2)
     = [Sample.lease]
   ∧ Indexer.chunks
       (Indexer.mgr
          (Indexer.load_indexes Sample.overlap (Returned Sample.encoder)
             {| Indexer.mgr := Indexer.fresh;
                Indexer.fs := Sample.disk_without_chunks |}).2)
     = [])
  ∧ (Indexer.bm25_dir Sample.disk_without_corpus = Some Indexer.Missing
     ∧ (Indexer.load_indexes Sample.overlap (Returned Sample.encoder)
          {| Indexer.mgr := Indexer.fresh; Indexer.fs := Sample.disk_without_corpus |}).1
       = Returned true
     ∧ Indexer.bm25_engine
         (Indexer.mgr
            (Indexer.load_indexes Sample.overlap (Returned Sample.encoder)
               {| Indexer.mgr := Indexer.fresh;
                  Indexer.fs := Sample.disk_without_corpus |}).2)
       = BM25.built Sample.overlap [Sample.lease]).
Proof.
  split.
  - split; [reflexivity|]. split; [|split; reflexivity].
    intros [H _]. discriminate H.
  - split; [reflexivity|]. split; vm_compute; reflexivity.
Qed.

(** A complete directory whose stored document holds stop words only:
    the rebuild of the lexical index raises, the load answers [False],
    and the documents and chunks stay loaded beside an engine without
    scorer. *)
Example load_indexes_unfit_corpus :
  (Indexer.load_indexes Sample.overlap (Returned Sample.encoder)
     {| Indexer.mgr := Indexer.fresh; Indexer.fs := Sample.disk_with_boilerplate |}).1
  = Returned false
  ∧ Indexer.documents
      (Indexer.mgr
         (Indexer.load_indexes Sample.overlap (Returned Sample.encoder)
            {| Indexer.mgr := Indexer.fresh;
               Indexer.fs := Sample.disk_with_boilerplate |}).2)
    = [Sample.boilerplate].
Proof. split; vm_compute; reflexivity. Qed.


(** * Further properties of the sources *)

(** ** Tokens *)

Lemma word_runs_words cur s r :
  Forall (fun c => Re.is_word c = true) cur →
  r ∈ Re.word_runs cur s →
  r ≠ [] ∧ Forall (fun c => Re.is_word c = true) r.
Proof.
  revert cur. induction s as [|c s IH]; intros cur Hcur; simpl.
  - destruct cur as [|x cur]; [by intros ?%elem_of_nil|].
    intros ->%list_elem_of_singleton. split.
    + intros E. apply (f_equal length) in E.
      rewrite length_rev in E. discriminate E.
    + change (rev (x :: cur)) with (reverse (x :: cur)) || idtac.
      apply Forall_forall. intros y Hy.
      apply list_elem_of_In, in_rev, list_elem_of_In in Hy.
      rewrite Forall_forall in Hcur. by apply Hcur.
  - destruct (Re.is_word c) eqn:Ec.
    + apply IH. by constructor.
    + destruct cur as [|x cur]; [by apply IH|].
      intros [->|Hr]%elem_of_cons; [|by apply (IH [])].
      split.
      * intros E. apply (f_equal length) in E.
        rewrite length_rev in E. discriminate E.
      * apply Forall_forall. intros y Hy.
        apply list_elem_of_In, in_rev, list_elem_of_In in Hy.
        rewrite Forall_forall in Hcur. by apply Hcur.
Qed.

(** X1.  On ASCII text every term that [tokenize] returns is non-empty
    and made of letters, digits and underscores only; in particular no
    term holds a dot. *)
Theorem tokenize_terms_are_words (text : string) (t : string) :
  Forall (fun c => (Re.code c < 128)%N) (Tokenizer.chars text) →
  t ∈ Tokenizer.tokenize text →
  t ≠ ""
  ∧ Forall (fun c => Re.is_word c = true) (Tokenizer.chars t)
  ∧ ascii_of_N 46 ∉ Tokenizer.chars t.
Proof.
  intros _ Ht. unfold Tokenizer.tokenize in Ht.
  apply list_elem_of_In, filter_In in Ht as [Ht _].
  apply in_map_iff in Ht as (r & <- & Hr).
  apply list_elem_of_In in Hr.
  apply word_runs_words in Hr as [Hne Hw]; [|constructor].
  unfold Tokenizer.str, Tokenizer.chars.
  rewrite list_ascii_of_string_of_list_ascii.
  split; [|split; [exact Hw|]].
  - destruct r; [done|discriminate].
  - intros Hdot. rewrite Forall_forall in Hw. apply Hw in Hdot.
    discriminate Hdot.
Qed.

Lemma tokenize_terms_are_words_witness :
  Forall (fun c => (Re.code c < 128)%N) (Tokenizer.chars "Section 5.2")
  ∧ "section_5" ∈ Tokenizer.tokenize "Section 5.2"
  ∧ ascii_of_N 46 ∉ Tokenizer.chars "section_5".
Proof.
  assert (H1 : Forall (fun c => (Re.code c < 128)%N) (Tokenizer.chars "Section 5.2"))
    by (vm_compute; repeat constructor).
  assert (H2 : "section_5" ∈ Tokenizer.tokenize "Section 5.2")
    by (vm_compute; left).
  split; [exact H1|]. split; [exact H2|].
  exact (proj2 (proj2 (tokenize_terms_are_words "Section 5.2" "section_5" H1 H2))).
Defined.

(** X2.  The stop-word filter lets the stop words of more than three
    letters through: a stop word among the terms of a text is one of
    from, that, will, with, and the twenty shorter ones never come out. *)
Theorem tokenize_surviving_stop_words (text : string) (t : string) :
  t ∈ Tokenizer.tokenize text →
  t ∈ Tokenizer.stop_words →
  t ∈ ["from"; "that"; "will"; "with"].
Proof.
  intros Ht Hs. unfold Tokenizer.tokenize in Ht.
  apply list_elem_of_In, filter_In in Ht as [_ Hk].
  unfold Tokenizer.stop_words in Hs.
  repeat (apply elem_of_cons in Hs as [->|Hs];
          [vm_compute in Hk; first [discriminate Hk | repeat constructor]|]).
  by apply elem_of_nil in Hs.
Qed.

Lemma tokenize_surviving_stop_words_witness :
  "with" ∈ Tokenizer.tokenize "agreement with the tenant"
  ∧ "with" ∈ Tokenizer.stop_words
  ∧ "with" ∈ ["from"; "that"; "will"; "with"].
Proof.
  assert (H1 : "with" ∈ Tokenizer.tokenize "agreement with the tenant")
    by (vm_compute; right; left).
  assert (H2 : "with" ∈ Tokenizer.stop_words)
    by (unfold Tokenizer.stop_words; repeat constructor).
  split; [exact H1|]. split; [exact H2|].
  exact (tokenize_surviving_stop_words "agreement with the tenant" "with" H1 H2).
Defined.

(** ** The lexical index, continued *)

Lemma sorted_sublist {A} (R : relation A) (l k : list A) :
  k `sublist_of` l → StronglySorted R l → StronglySorted R k.
Proof.
  intros Hsub Hs. revert k Hsub.
  induction Hs as [|x l Hs IH Hx]; intros k Hsub.
  - apply sublist_nil_r in Hsub as ->. constructor.
  - apply sublist_cons_r in Hsub as [Hsub|(k' & -> & Hsub)]; [by apply IH|].
    constructor; [by apply IH|].
    apply Forall_forall. intros y Hy. rewrite Forall_forall in Hx.
    apply Hx. by eapply elem_of_sublist.
Qed.

Lemma filter_sublist {A} (f : A -> bool) (l : list A) :
  List.filter f l `sublist_of` l.
Proof.
  induction l as [|x l IH]; simpl; [done|].
  destruct (f x); by constructor.
Qed.

Lemma filter_filter {A} (f g : A -> bool) (l : list A) :
  List.filter g (List.filter f l) = List.filter (fun x => f x && g x) l.
Proof.
  induction l as [|x l IH]; simpl; [done|].
  destruct (f x); simpl; [destruct (g x)|]; by rewrite IH.
Qed.

Lemma filter_switch {A} (b : bool) (f : A -> bool) (l : list A) :
  (if b then List.filter f l else l) = List.filter (fun x => negb b || f x) l.
Proof.
  destruct b; simpl; [done|].
  induction l as [|x l IH]; simpl; [done|]. by rewrite <- IH.
Qed.

Lemma filter_length_lt {A} (f : A -> bool) (l : list A) :
  (length (List.filter f l) < length l)%nat ↔ ∃ x, x ∈ l ∧ f x = false.
Proof.
  induction l as [|x l IH]; simpl.
  - split; [lia|]. by intros (x & ?%elem_of_nil & _).
  - pose proof (sublist_length _ _ (filter_sublist f l)) as Hle.
    destruct (f x) eqn:E; simpl.
    + rewrite <- Nat.succ_lt_mono, IH. split.
      * intros (y & Hy & Ey). exists y. split; [by right|done].
      * intros (y & [->|Hy]%elem_of_cons & Ey); [congruence|eauto].
    + split; [|lia]. intros _. exists x. split; [left|done].
Qed.

Lemma filter_all {A} (f : A -> bool) (l : list A) :
  (∀ x, x ∈ l → f x = true) → List.filter f l = l.
Proof.
  induction l as [|x l IH]; intros H; simpl; [done|].
  rewrite (H x) by left. f_equal. apply IH. intros y Hy. apply H. by right.
Qed.

Section IndexFacts.
Variable okapi : list (list string) -> list string -> list string -> Q.

Lemma foldl_insert_last (docs : list StructuredDocument) id :
  foldl (fun (m : gmap string StructuredDocument) d => <[Doc.doc_id d := d]> m) ∅ docs !! id
  = last (List.filter (fun d => bool_decide (Doc.doc_id d = id)) docs).
Proof.
  induction docs as [|d docs IH] using rev_ind; simpl; [done|].
  rewrite foldl_app, List.filter_app. simpl.
  destruct (decide (Doc.doc_id d = id)) as [E|E].
  - rewrite bool_decide_eq_true_2 by done. rewrite last_snoc, <- E.
    by rewrite lookup_insert_eq.
  - rewrite bool_decide_eq_false_2 by done. rewrite app_nil_r.
    by rewrite lookup_insert_ne.
Qed.

Lemma flat_map_chunks_nil (docs : list StructuredDocument) :
  flat_map Doc.chunks docs = [] ↔ ∀ d, d ∈ docs → Doc.chunks d = [].
Proof.
  split.
  - intros E d Hd. destruct (Doc.chunks d) as [|c cs] eqn:Ed; [done|].
    assert (Hin : In c (flat_map Doc.chunks docs)).
    { apply in_flat_map. exists d. split; [by apply list_elem_of_In|].
      rewrite Ed. by left. }
    rewrite E in Hin. destruct Hin.
  - intros H. destruct (flat_map Doc.chunks docs) as [|c cs] eqn:E; [done|].
    assert (Hin : In c (flat_map Doc.chunks docs)) by (rewrite E; by left).
    apply in_flat_map in Hin as (d & Hd & Hc).
    rewrite (H d) in Hc by (by apply list_elem_of_In). destruct Hc.
Qed.

Lemma build_raises_spec (docs : list StructuredDocument) :
  BM25.build_raises docs = true
  ↔ (∃ d, d ∈ docs ∧ Doc.chunks d ≠ [])
    ∧ ∀ d c, d ∈ docs → c ∈ Doc.chunks d → Tokenizer.tokenize (text c) = [].
Proof.
  unfold BM25.build_raises, BM25.fit_raises.
  assert (Hall : forallb (fun tokens : list string =>
                            match tokens with [] => true | _ :: _ => false end)
                   (map (fun c => Tokenizer.tokenize (text c))
                      (flat_map Doc.chunks docs)) = true
                 ↔ ∀ d c, d ∈ docs → c ∈ Doc.chunks d →
                          Tokenizer.tokenize (text c) = []).
  { rewrite forallb_forall. split.
    - intros H d c Hd Hc.
      assert (Hin : In (Tokenizer.tokenize (text c))
                      (map (fun c => Tokenizer.tokenize (text c))
                         (flat_map Doc.chunks docs))).
      { apply (in_map (fun c => Tokenizer.tokenize (text c))), in_flat_map.
        exists d. split; by apply list_elem_of_In. }
      apply H in Hin. by destruct (Tokenizer.tokenize (text c)).
    - intros H t Ht. apply in_map_iff in Ht as (c & <- & Hc).
      apply in_flat_map in Hc as (d & Hd & Hc).
      by rewrite (H d c) by (by apply list_elem_of_In). }
  pose proof (flat_map_chunks_nil docs) as Hnil.
  destruct (flat_map Doc.chunks docs) as [|c cs] eqn:E.
  - split; [done|]. intros [(d & Hd & Hne) _]. by rewrite (proj1 Hnil eq_refl d Hd) in Hne.
  - rewrite Hall. split; [|by intros [_ ?]]. intros H. split; [|done].
    assert (Hin : In c (flat_map Doc.chunks docs)) by (rewrite E; by left).
    apply in_flat_map in Hin as (d & Hd & Hc). exists d.
    split; [by apply list_elem_of_In|]. intros Ed. rewrite Ed in Hc. destruct Hc.
Qed.

(** X3.  Whatever the engine was before, [build_index] replaces its
    dictionary, its chunks and its token lists: the document found under
    an id is the last document of the list that carries it (an earlier
    document with the same id is replaced), the chunks of every document
    of the list, replaced or not, are in the index, and there is one
    token list per chunk.  The call raises [ZeroDivisionError] exactly
    when the documents have chunks of which none holds a token, and then
    the scorer of the engine is the one it had before; otherwise it
    returns, and the scorer is absent exactly when the documents have no
    chunk at all. *)
Theorem build_index_documents (docs : list StructuredDocument) (e : BM25.engine) :
  (∀ id, BM25.get_document (BM25.build_index okapi docs e).2 id
         = last (List.filter (fun d => bool_decide (Doc.doc_id d = id)) docs))
  ∧ (∀ d c, d ∈ docs → c ∈ Doc.chunks d →
            c ∈ BM25.chunks (BM25.build_index okapi docs e).2)
  ∧ length (BM25.tokenized_corpus (BM25.build_index okapi docs e).2)
    = length (BM25.chunks (BM25.build_index okapi docs e).2)
  ∧ ((BM25.build_index okapi docs e).1 = Raised ZeroDivisionError
     ↔ (∃ d, d ∈ docs ∧ Doc.chunks d ≠ [])
       ∧ ∀ d c, d ∈ docs → c ∈ Doc.chunks d → Tokenizer.tokenize (text c) = [])
  ∧ ((BM25.build_index okapi docs e).1 = Raised ZeroDivisionError →
     BM25.bm25_index (BM25.build_index okapi docs e).2 = BM25.bm25_index e)
  ∧ ((BM25.build_index okapi docs e).1 ≠ Raised ZeroDivisionError →
     (BM25.build_index okapi docs e).1 = Returned tt
     ∧ (BM25.bm25_index (BM25.build_index okapi docs e).2 = None
        ↔ ∀ d, d ∈ docs → Doc.chunks d = [])).
Proof.
  destruct (build_index_state okapi docs e) as (Hc & Hd & Ht & Hi).
  pose proof (build_index_outcome okapi docs e) as Ho.
  pose proof (build_raises_spec docs) as Hr.
  split; [|split; [|split; [|split; [|split]]]].
  - intros id. unfold BM25.get_document. rewrite Hd. apply foldl_insert_last.
  - intros d c Hin Hcin. rewrite Hc. apply list_elem_of_In, in_flat_map.
    exists d. split; by apply list_elem_of_In.
  - by rewrite Hc, Ht, length_map.
  - rewrite Ho, <- Hr. by destruct (BM25.build_raises docs).
  - rewrite Ho, Hi. by destruct (BM25.build_raises docs).
  - rewrite Ho, Hi. destruct (BM25.build_raises docs); [done|]. intros _.
    split; [done|]. rewrite <- flat_map_chunks_nil.
    unfold BM25.built. cbn [BM25.bm25_index].
    by destruct (flat_map Doc.chunks docs).
Qed.

Example build_index_stop_words_only :
  BM25.build_index Sample.overlap [Sample.boilerplate] Sample.corpus_engine
  = (Raised ZeroDivisionError,
     {| BM25.bm25_index := BM25.bm25_index Sample.corpus_engine;
        BM25.chunks := Doc.chunks Sample.boilerplate;
        BM25.documents := {[ "eeeeeeeeeeee" := Sample.boilerplate ]};
        BM25.tokenized_corpus := [[]] |})
  ∧ ¬ BM25.aligned
        (BM25.build_index Sample.overlap [Sample.boilerplate] Sample.corpus_engine).2
  ∧ BM25.search_outcome
      (BM25.build_index Sample.overlap [Sample.boilerplate] Sample.corpus_engine).2
      "rent" 5 None
    = Raised IndexError.
Proof.
  split; [vm_compute; reflexivity|].
  split; [|vm_compute; reflexivity].
  intros H. specialize (H (BM25.fit Sample.overlap
                             (BM25.tokenized_corpus Sample.corpus_engine)) []).
  assert (E : BM25.bm25_index
                (BM25.build_index Sample.overlap [Sample.boilerplate]
                   Sample.corpus_engine).2
              = Some (BM25.fit Sample.overlap
                        (BM25.tokenized_corpus Sample.corpus_engine)))
    by (vm_compute; reflexivity).
  apply H in E. vm_compute in E. lia.
Qed.

End IndexFacts.

Section FilterFacts.

Lemma apply_filters_passes (e : BM25.engine) (q : SearchQuery) :
  BM25.apply_filters e q
  = if (length (List.filter (BM25.passes q) (map_to_list (BM25.documents e)).*2)
        <? size (BM25.documents e))%nat
    then Some (map Doc.doc_id
                 (List.filter (BM25.passes q) (map_to_list (BM25.documents e)).*2))
    else None.
Proof.
  unfold BM25.apply_filters. cbv zeta.
  rewrite !filter_switch.
  destruct (date_range q) as [r|] eqn:Er; rewrite !filter_filter;
    erewrite (List.filter_ext _ (BM25.passes q)); try reflexivity;
    intros d; unfold BM25.passes; rewrite Er, ?andb_true_r, ?andb_assoc; reflexivity.
Qed.
End FilterFacts.

(** X4.  [_apply_filters] answers [None] exactly when every document of
    the index passes the filters that are switched on, and otherwise the
    ids of the documents that pass: an id is in the answer exactly when a
    document with that id passes, and some document does not pass. *)
Theorem apply_filters_spec (e : BM25.engine) (q : SearchQuery) :
  (BM25.apply_filters e q = None
   ↔ ∀ k d, BM25.documents e !! k = Some d → BM25.passes q d = true)
  ∧ ∀ ids, BM25.apply_filters e q = Some ids →
      (∀ id, id ∈ ids
             ↔ ∃ k d, BM25.documents e !! k = Some d
                      ∧ Doc.doc_id d = id ∧ BM25.passes q d = true)
      ∧ ∃ k d, BM25.documents e !! k = Some d ∧ BM25.passes q d = false.
Proof.
  rewrite apply_filters_passes.
  set (vals := (map_to_list (BM25.documents e)).*2).
  assert (Hvals : ∀ d, d ∈ vals ↔ ∃ k, BM25.documents e !! k = Some d).
  { intros d. unfold vals. rewrite list_elem_of_fmap. split.
    - intros ([k d'] & -> & H%elem_of_map_to_list). by exists k.
    - intros (k & H). exists (k, d). split; [done|].
      by apply elem_of_map_to_list. }
  assert (Hsize : size (BM25.documents e) = length vals).
  { unfold vals. by rewrite length_fmap, length_map_to_list. }
  rewrite Hsize.
  destruct (Nat.ltb_spec (length (List.filter (BM25.passes q) vals)) (length vals))
    as [Hlt|Hge].
  - apply filter_length_lt in Hlt as (x & Hx & Ex).
    apply Hvals in Hx as (k & Hk).
    split.
    + split; [done|]. intros H. rewrite (H k x Hk) in Ex. discriminate Ex.
    + intros ids [= <-]. split; [|by eauto].
      intros id. rewrite list_elem_of_In, in_map_iff. split.
      * intros (d & <- & [Hd Hp]%filter_In).
        apply list_elem_of_In, Hvals in Hd as (k' & Hk'). eauto.
      * intros (k' & d & Hk' & <- & Hp). exists d. split; [done|].
        apply filter_In. split; [|done]. apply list_elem_of_In, Hvals. eauto.
  - split; [|done]. split; [|done]. intros _ k d Hk.
    destruct (BM25.passes q d) eqn:Ep; [done|]. exfalso.
    assert (Hlt : (length (List.filter (BM25.passes q) vals) < length vals)%nat).
    { apply filter_length_lt. exists d. split; [|done]. apply Hvals. eauto. }
    lia.
Qed.

Section SearchFacts.

(** What every result of [search] is, on any engine. *)
Lemma search_results (e : BM25.engine) query top_k filter_doc_ids :
  (∀ r, r ∈ BM25.search e query top_k filter_doc_ids →
        r.1 ∈ BM25.chunks e ∧ (0 < r.2)%Q
        ∧ ∀ ids, filter_doc_ids = Some ids → ids ≠ [] → doc_id r.1 ∈ ids)
  ∧ StronglySorted (Py.descending snd) (BM25.search e query top_k filter_doc_ids)
  ∧ ((0 ≤ top_k)%Z →
     (Z.of_nat (length (BM25.search e query top_k filter_doc_ids)) ≤ top_k)%Z).
Proof.
  unfold BM25.search.
  destruct (BM25.bm25_index e) as [idx|]; [destruct (BM25.chunks e) as [|c cs] eqn:Ecs|];
    try (split; [by intros r ?%elem_of_nil|split; [constructor|simpl; lia]]).
  destruct (Tokenizer.tokenize query) as [|t ts];
    try (split; [by intros r ?%elem_of_nil|split; [constructor|simpl; lia]]).
  split; [|split].
  - intros r Hr%elem_of_slice_to%elem_of_sort_desc.
    apply list_elem_of_In, filter_In in Hr as [Hin Had].
    apply admits_spec in Had as [Hp Hf].
    split; [|by split].
    unfold BM25.scored in Hin. rewrite Ecs in Hin.
    apply list_elem_of_In in Hin. destruct r as [rc rs].
    by apply elem_of_zip_l in Hin.
  - apply slice_to_sorted, sort_desc_sorted.
  - intros Hk. rewrite slice_to_length by done. lia.
Qed.

(** X5.  Every result of [search_with_filters] is a chunk of the index
    with a positive score; its document id is among the candidates when
    the filters leave a non-empty list of them; when terms are excluded,
    none of their tokens is a token of the chunk; the results are in
    descending order of score, and there are at most twice [top_k] of
    them when [top_k] is not negative. *)
Theorem search_with_filters_results (e : BM25.engine) (q : SearchQuery) :
  (∀ r, r ∈ BM25.search_with_filters e q →
        r.1 ∈ BM25.chunks e ∧ (0 < r.2)%Q
        ∧ (∀ ids, BM25.apply_filters e q = Some ids → ids ≠ [] → doc_id r.1 ∈ ids)
        ∧ (∀ term token, term ∈ excluded_terms q →
             token ∈ Tokenizer.tokenize term →
             token ∉ Tokenizer.tokenize (text r.1)))
  ∧ StronglySorted (Py.descending snd) (BM25.search_with_filters e q)
  ∧ ((0 ≤ top_k q)%Z →
     (Z.of_nat (length (BM25.search_with_filters e q)) ≤ 2 * top_k q)%Z).
Proof.
  unfold BM25.search_with_filters. cbv zeta.
  set (query_text := match required_terms q with [] => _ | _ => _ end).
  set (ids := if truthy (BM25.apply_filters e q) then _ else _).
  destruct (search_results e query_text (top_k q * 2) ids) as (Hres & Hsort & Hlen).
  assert (Hids : ∀ r, r ∈ BM25.search e query_text (top_k q * 2) ids →
            ∀ l, BM25.apply_filters e q = Some l → l ≠ [] → doc_id r.1 ∈ l).
  { intros r Hr l El Hne. destruct (Hres r Hr) as (_ & _ & Hf).
    apply Hf; [|done]. unfold ids. rewrite El. by destruct l. }
  destruct (excluded_terms q) as [|t ts] eqn:Eex.
  - split; [|split; [done|intros; lia]].
    intros r Hr. destruct (Hres r Hr) as (Hc & Hp & _).
    split; [done|]. split; [done|]. split; [by apply Hids|].
    by intros term token ?%elem_of_nil.
  - split; [|split].
    + intros r Hr. apply list_elem_of_In, filter_In in Hr as [Hr Hex].
      apply list_elem_of_In in Hr. destruct (Hres r Hr) as (Hc & Hp & _).
      split; [done|]. split; [done|]. split; [by apply Hids|].
      intros term token Hterm Htok Hin.
      apply negb_true_iff in Hex. unfold BM25.excluded in Hex.
      assert (Hex' : existsb (fun token => bool_decide (token ∈ Tokenizer.tokenize (text r.1)))
                       (flat_map Tokenizer.tokenize (t :: ts)) = true).
      { apply existsb_exists. exists token. split.
        - apply in_flat_map. exists term. split; by apply list_elem_of_In.
        - by apply bool_decide_eq_true_2. }
      congruence.
    + eapply sorted_sublist; [apply filter_sublist|done].
    + intros Hk.
      pose proof (sublist_length _ _
        (filter_sublist
           (fun r => negb (BM25.excluded (flat_map Tokenizer.tokenize (t :: ts)) r.1))
           (BM25.search e query_text (top_k q * 2) ids))) as Hle.
      specialize (Hlen ltac:(lia)). lia.
Qed.

(** X6.  For a chunk whose document is in the index and holds a chunk
    of the same id at position [i], [get_chunk_context] with a context of
    [k >= 0] returns the chunks of the document from position [i - k]
    (or the start) to position [i + k] (or the end): a contiguous piece
    of at most [2k + 1] chunks that holds the document's chunk of that
    id, which may differ from the chunk passed in.  In the other cases
    the answer is the chunk passed in, alone. *)
Theorem get_chunk_context_window (e : BM25.engine) (c : EnrichedChunk) (k : Z)
    (doc : StructuredDocument) (i : nat) (x : EnrichedChunk) :
  (0 ≤ k)%Z →
  BM25.documents e !! doc_id c = Some doc →
  list_find (fun y => chunk_id y = chunk_id c) (Doc.chunks doc) = Some (i, x) →
  BM25.get_chunk_context e c k
    = take (Nat.min (i + Z.to_nat k + 1) (length (Doc.chunks doc)) - (i - Z.to_nat k))
        (drop (i - Z.to_nat k) (Doc.chunks doc))
  ∧ BM25.get_chunk_context e c k !! Nat.min i (Z.to_nat k) = Some x
  ∧ chunk_id x = chunk_id c
  ∧ (length (BM25.get_chunk_context e c k) ≤ 2 * Z.to_nat k + 1)%nat.
Proof.
  intros Hk Hdoc Hfind. unfold BM25.get_chunk_context. rewrite Hdoc, Hfind.
  apply list_find_Some in Hfind as (Hi & Hid & _).
  pose proof (lookup_lt_Some _ _ _ Hi) as Hlt.
  unfold Py.slice, Py.clamp.
  set (n := length (Doc.chunks doc)) in *.
  destruct (Z.ltb_spec (Z.max 0 (Z.of_nat i - k)) 0) as [?|_]; [lia|].
  destruct (Z.ltb_spec (Z.min (Z.of_nat n) (Z.of_nat i + k + 1)) 0) as [?|_]; [lia|].
  replace (Nat.min (Z.to_nat (Z.max 0 (Z.of_nat i - k))) n)
    with (i - Z.to_nat k)%nat by lia.
  replace (Nat.min (Z.to_nat (Z.min (Z.of_nat n) (Z.of_nat i + k + 1))) n)
    with (Nat.min (i + Z.to_nat k + 1) n) by lia.
  split; [done|]. split; [|split; [done|]].
  - rewrite lookup_take_lt by lia. rewrite lookup_drop.
    replace (i - Z.to_nat k + Nat.min i (Z.to_nat k))%nat with i by lia. done.
  - rewrite length_take. lia.
Qed.

Lemma get_chunk_context_window_witness :
  BM25.get_chunk_context Sample.corpus_engine
    (Sample.chunk_of "aaaaaaaaaaaa#p1#c01" "aaaaaaaaaaaa" "stale text") 1
  !! 1%nat
  = Some (Sample.chunk_of "aaaaaaaaaaaa#p1#c01" "aaaaaaaaaaaa"
            "Indemnity for damage caused by tenant").
Proof.
  refine (proj1 (proj2 (get_chunk_context_window Sample.corpus_engine
            (Sample.chunk_of "aaaaaaaaaaaa#p1#c01" "aaaaaaaaaaaa" "stale text") 1
            Sample.lease 1
            (Sample.chunk_of "aaaaaaaaaaaa#p1#c01" "aaaaaaaaaaaa"
               "Indemnity for damage caused by tenant") _ _ _))).
  - lia.
  - vm_compute. reflexivity.
  - vm_compute. reflexivity.
Defined.

(** The fallbacks of [get_chunk_context]. *)
Lemma get_chunk_context_alone (e : BM25.engine) (c : EnrichedChunk) (k : Z) :
  (BM25.documents e !! doc_id c = None
   ∨ ∃ doc, BM25.documents e !! doc_id c = Some doc
            ∧ Forall (fun y => chunk_id y ≠ chunk_id c) (Doc.chunks doc)) →
  BM25.get_chunk_context e c k = [c].
Proof.
  unfold BM25.get_chunk_context. intros [->|(doc & -> & Hall)]; [done|].
  apply (proj2 (list_find_None (fun y => chunk_id y = chunk_id c) _)) in Hall.
  by rewrite Hall.
Qed.
End SearchFacts.

(** ** The fusion ranker, continued *)

Section FusionRange.
Local Open Scope Q_scope.
Variable iteration : gset string -> list string.

Lemma fold_put_score mx l k v :
  foldl (Hybrid.put mx) ∅ l !! k = Some v →
  ∃ r, r ∈ l ∧ v = (r.1, Hybrid.scaled mx r.2).
Proof.
  induction l as [|r l IH] using rev_ind; simpl.
  - by rewrite lookup_empty.
  - rewrite foldl_app. simpl. unfold Hybrid.put at 1.
    destruct (decide (chunk_id r.1 = k)) as [<-|Hne].
    + rewrite lookup_insert_eq. intros [= <-]. exists r.
      split; [|done]. apply elem_of_app. right. left.
    + rewrite lookup_insert_ne by done. intros H.
      destruct (IH H) as (r' & Hr' & ->). exists r'.
      split; [|done]. apply elem_of_app. by left.
Qed.

Lemma scaled_unit mx s : 0 <= s → s <= mx → 0 <= Hybrid.scaled mx s <= 1.
Proof.
  intros H0 Hmx. unfold Hybrid.scaled.
  destruct (Qpositive mx) eqn:E; [|lra].
  apply Qpositive_spec in E. split.
  - apply Qle_shift_div_l; [done|]. lra.
  - apply Qle_shift_div_r; [done|]. lra.
Qed.

Lemma side_score_unit l id :
  Forall (fun r : EnrichedChunk * Q => 0 <= r.2) l →
  0 <= Hybrid.side_score (Hybrid.normalized l) id <= 1.
Proof.
  intros Hl. unfold Hybrid.side_score.
  destruct (Hybrid.normalized l !! id) as [v|] eqn:Ev; [|lra].
  rewrite normalized_fold in Ev.
  apply fold_put_score in Ev as (r & Hr & ->). simpl.
  apply scaled_unit; [|by apply side_max_ub].
  rewrite Forall_forall in Hl. by apply Hl.
Qed.

Lemma dom_fold_put mx (l : list (EnrichedChunk * Q)) :
  dom (foldl (Hybrid.put mx) ∅ l)
  = (list_to_set ((chunk_id ∘ fst) <$> l) : gset string).
Proof.
  induction l as [|r l IH] using rev_ind; simpl.
  - by rewrite dom_empty_L.
  - rewrite foldl_app. simpl. unfold Hybrid.put at 1.
    rewrite dom_insert_L, IH, fmap_app, list_to_set_app_L. simpl.
    rewrite (right_id_L ∅ (∪)). apply (comm_L (∪)).
Qed.

Lemma dom_normalized (l : list (EnrichedChunk * Q)) :
  dom (Hybrid.normalized l) = (list_to_set ((chunk_id ∘ fst) <$> l) : gset string).
Proof. rewrite normalized_fold. apply dom_fold_put. Qed.

Lemma omap_keys {A B} (f : A -> option B) (key : B -> A) (l : list A) :
  (∀ x, x ∈ l → ∃ y, f x = Some y ∧ key y = x) →
  map key (omap f l) = l.
Proof.
  induction l as [|x l IH]; intros H; simpl; [done|].
  destruct (H x) as (y & -> & Ey); [left|]. simpl. rewrite Ey. f_equal.
  apply IH. intros z Hz. apply H. by right.
Qed.

(** X7.  Non-negative raw scores on both sides give a fusion whose
    rows all have a normalized lexical score, a normalized semantic
    score and a fused score between 0 and 1. *)
Theorem fusion_scores_in_unit (bm25_results vector_results : list (EnrichedChunk * Q))
    (r : Hybrid.row) :
  Forall (fun x : EnrichedChunk * Q => 0 <= x.2) bm25_results →
  Forall (fun x : EnrichedChunk * Q => 0 <= x.2) vector_results →
  r ∈ Hybrid.reciprocal_rank_fusion iteration bm25_results vector_results →
  0 <= Hybrid.bm25 r <= 1 ∧ 0 <= Hybrid.vec r <= 1 ∧ 0 <= Hybrid.score r <= 1.
Proof.
  intros Hb Hv Hr. apply fusion_row in Hr as (-> & -> & -> & _).
  pose proof (side_score_unit bm25_results (chunk_id (Hybrid.chunk r)) Hb) as H1.
  pose proof (side_score_unit vector_results (chunk_id (Hybrid.chunk r)) Hv) as H2.
  split; [done|]. split; [done|].
  unfold Hybrid.fused_score, Hybrid.bm25_weight, Hybrid.vector_weight. lra.
Qed.

Lemma fusion_row_ids (bm25_results vector_results : list (EnrichedChunk * Q)) :
  (∀ st, iteration st ≡ₚ elements st) →
  map (fun r => chunk_id (Hybrid.chunk r))
      (Hybrid.reciprocal_rank_fusion iteration bm25_results vector_results)
    ≡ₚ elements (list_to_set ((chunk_id ∘ fst) <$> bm25_results)
                 ∪ list_to_set ((chunk_id ∘ fst) <$> vector_results) : gset string).
Proof.
  intros Hperm.
  unfold Hybrid.reciprocal_rank_fusion. cbv zeta.
  rewrite sort_desc_perm, omap_keys.
  - by rewrite Hperm, !dom_normalized.
  - intros id Hid. rewrite Hperm in Hid. apply elem_of_elements in Hid.
    assert (Hc : is_Some (((fst <$> Hybrid.normalized bm25_results)
                           ∪ (fst <$> Hybrid.normalized vector_results)) !! id)).
    { apply elem_of_dom. by rewrite dom_union_L, !dom_fmap_L. }
    destruct Hc as [c Hc]. rewrite Hc. simpl. eexists. split; [reflexivity|].
    simpl. apply lookup_union_Some_raw in Hc.
    destruct Hc as [Hc|[_ Hc]]; rewrite lookup_fmap in Hc;
      [destruct (Hybrid.normalized bm25_results !! id) as [v|] eqn:Ev
      |destruct (Hybrid.normalized vector_results !! id) as [v|] eqn:Ev];
      try done; simpl in Hc; injection Hc as <-;
      by apply normalized_entry in Ev as [? ?].
Qed.

(** X8.  The fusion has exactly one row for every chunk id that occurs
    on either side: the ids of its rows are the elements of the union of
    the two sets of ids, without repetition, however often an id occurs
    in the candidate lists. *)
Theorem fusion_one_row_per_id (bm25_results vector_results : list (EnrichedChunk * Q)) :
  (∀ st, iteration st ≡ₚ elements st) →
  map (fun r => chunk_id (Hybrid.chunk r))
      (Hybrid.reciprocal_rank_fusion iteration bm25_results vector_results)
    ≡ₚ elements (list_to_set ((chunk_id ∘ fst) <$> bm25_results)
                 ∪ list_to_set ((chunk_id ∘ fst) <$> vector_results) : gset string)
  ∧ NoDup (map (fun r => chunk_id (Hybrid.chunk r))
             (Hybrid.reciprocal_rank_fusion iteration bm25_results vector_results)).
Proof.
  intros Hperm.
  pose proof (fusion_row_ids bm25_results vector_results Hperm) as E.
  split; [exact E|]. rewrite E. apply NoDup_elements.
Qed.
End FusionRange.

Lemma fusion_scores_in_unit_witness :
  Forall (fun x : EnrichedChunk * Q => (0 <= x.2)%Q) Sample.lexical
  ∧ Forall (fun x : EnrichedChunk * Q => (0 <= x.2)%Q) Sample.semantic
  ∧ Forall (fun r => (0 <= Hybrid.score r <= 1)%Q)
      (Hybrid.reciprocal_rank_fusion elements Sample.lexical Sample.semantic).
Proof.
  assert (H1 : Forall (fun x : EnrichedChunk * Q => (0 <= x.2)%Q) Sample.lexical)
    by (repeat constructor; by vm_compute).
  assert (H2 : Forall (fun x : EnrichedChunk * Q => (0 <= x.2)%Q) Sample.semantic)
    by (repeat constructor; by vm_compute).
  split; [exact H1|]. split; [exact H2|].
  apply Forall_forall. intros r Hr.
  exact (proj2 (proj2 (fusion_scores_in_unit elements Sample.lexical
                         Sample.semantic r H1 H2 Hr))).
Defined.

Lemma fusion_one_row_per_id_witness :
  (∀ st : gset string, elements st ≡ₚ elements st)
  ∧ NoDup (map (fun r => chunk_id (Hybrid.chunk r))
             (Hybrid.reciprocal_rank_fusion elements
                (Sample.lexical ++ Sample.lexical) Sample.semantic)).
Proof.
  assert (H : ∀ st : gset string, elements st ≡ₚ elements st)
    by (intros st; reflexivity).
  split; [exact H|].
  exact (proj2 (fusion_one_row_per_id elements
                  (Sample.lexical ++ Sample.lexical) Sample.semantic H)).
Defined.

Section BoostFacts.
Import Floats.PrimFloat.
#[local] Set Warnings "-inexact-float".
Local Open Scope Q_scope.
Variable now : datetime.

Lemma boost_for_flags (h : Hybrid.engine) (q : SearchQuery) (c : EnrichedChunk) :
  Hybrid.boost_for now h q c = Hybrid.boost_exact (Hybrid.flags_for now h q c).
Proof.
  unfold Hybrid.boost_for, Hybrid.boost_exact, Hybrid.flags_for. cbv zeta.
  cbn [Hybrid.on_header Hybrid.on_definition Hybrid.on_dates Hybrid.on_money
       Hybrid.on_signed Hybrid.on_recent].
  destruct (BM25.get_document _ _) as [doc|];
    [destruct (Doc.effective_date doc) as [effective|]|];
    repeat match goal with
           | |- context [if ?b then _ else _] => destruct b
           end; reflexivity.
Qed.

Lemma boost_exact_bounds (f : Hybrid.boost_flags) :
  1 <= Hybrid.boost_exact f <= 2.944656.
Proof. destruct f as [[] [] [] [] [] []]; split; by vm_compute. Qed.

(** X9.  Metadata boosting multiplies the fused score of every row by
    the product of the factors of the tests that hold and records the
    product; it keeps the number of rows, never lowers a non-negative
    score, and returns the rows in descending order of the boosted score.
    The product is at least 1.  In exact arithmetic it is at most
    2.944656; in binary64, as the loop computes it, it lies between 1.0
    and 2.9446560000000006, within 10^-15 of the exact product, and with
    all six boosts it is 2.9446560000000006, which is above 2.944656. *)
Theorem apply_metadata_boosting_rows (h : Hybrid.engine) (rows : list Hybrid.row)
    (q : SearchQuery) :
  length (Hybrid.apply_metadata_boosting now h rows q) = length rows
  ∧ StronglySorted (Py.descending Hybrid.score)
      (Hybrid.apply_metadata_boosting now h rows q)
  ∧ (∀ r, r ∈ Hybrid.apply_metadata_boosting now h rows q →
      ∃ r0, r0 ∈ rows
        ∧ Hybrid.chunk r = Hybrid.chunk r0
        ∧ Hybrid.boost r = Hybrid.boost_for now h q (Hybrid.chunk r0)
        ∧ Hybrid.boost r
          = Hybrid.boost_exact (Hybrid.flags_for now h q (Hybrid.chunk r0))
        ∧ Hybrid.score r = Hybrid.score r0 * Hybrid.boost r
        ∧ 1 <= Hybrid.boost r
        ∧ (0 <= Hybrid.score r0 → Hybrid.score r0 <= Hybrid.score r))
  ∧ (∀ f : Hybrid.boost_flags,
       1 <= Hybrid.boost_exact f <= 2.944656
       ∧ PrimFloat.leb 1%float (Hybrid.boost_float f) = true
       ∧ PrimFloat.leb (Hybrid.boost_float f) 2.9446560000000006%float = true
       ∧ Qabs.Qabs (Hybrid.float_value (Hybrid.boost_float f) - Hybrid.boost_exact f)
         <= 1 # 1000000000000000)
  ∧ PrimFloat.eqb (Hybrid.boost_float Hybrid.all_boosts) 2.9446560000000006%float
    = true
  ∧ PrimFloat.leb (Hybrid.boost_float Hybrid.all_boosts) 2.944656%float = false
  ∧ 2.944656 < Hybrid.float_value (Hybrid.boost_float Hybrid.all_boosts).
Proof.
  unfold Hybrid.apply_metadata_boosting. cbv zeta.
  split; [by rewrite sort_desc_length, length_map|].
  split; [apply sort_desc_sorted|].
  split.
  { intros r Hr%elem_of_sort_desc%list_elem_of_fmap.
    destruct Hr as (r0 & -> & Hr0). exists r0. simpl.
    pose proof (boost_for_flags h q (Hybrid.chunk r0)) as Hf.
    destruct (boost_exact_bounds (Hybrid.flags_for now h q (Hybrid.chunk r0)))
      as [Hb1 Hb2].
    rewrite <- Hf in Hb1, Hb2.
    split_and!; try done.
    intros H0. nra. }
  split.
  { intros f. split; [apply boost_exact_bounds|].
    destruct f as [[] [] [] [] [] []]; split_and!; by vm_compute. }
  split_and!; by vm_compute.
Qed.
End BoostFacts.

Section RerankFacts.
Local Open Scope Q_scope.

Lemma for_enumerate_inv {A B} (f : nat -> A -> outcome B) (i : nat) (l : list A) ys :
  for_enumerate f i l = Returned ys →
  Forall2 (fun x y => ∃ j, f j x = Returned y) l ys.
Proof.
  revert i ys. induction l as [|x l IH]; intros i ys; simpl.
  - intros [= <-]. constructor.
  - unfold mbind, outcome_bind.
    destruct (f i x) as [y|] eqn:Ey; simpl; [|done].
    destruct (for_enumerate f (S i) l) as [ys'|] eqn:Eys; simpl; [|done].
    intros [= <-]. constructor; [by eauto|]. by eapply IH.
Qed.

Lemma cross_encoder_rerank_chunks h query rows out :
  Hybrid.cross_encoder_rerank h query rows = Returned out →
  map Hybrid.chunk out ≡ₚ map Hybrid.chunk rows.
Proof.
  unfold Hybrid.cross_encoder_rerank.
  destruct (Hybrid.cross_encoder h) as [predict|]; [|by intros [= <-]].
  destruct (predict _) as [ce_scores|]; [|by intros [= <-]].
  unfold mbind, outcome_bind.
  destruct (for_enumerate _ _ _) as [ys|] eqn:Eys; simpl; [|done].
  intros [= <-]. rewrite sort_desc_perm.
  apply for_enumerate_inv in Eys.
  assert (E : map Hybrid.chunk ys = map Hybrid.chunk rows); [|by rewrite E].
  induction Eys as [|x y l l' (j & Hj) _ IH]; simpl; [done|].
  rewrite IH. f_equal. destruct (ce_scores !! j); [|done].
  by injection Hj as <-.
Qed.

(** X10.  Stage 5 of [search] touches the first 20 rows only: whenever
    it returns, the rows from position 20 on are the boosted rows of
    those positions with their scores as they were, the first 20 rows
    carry the chunks of the first 20 boosted rows in some order, and no
    row is lost or added. *)
Theorem rerank_stage_tail (h : Hybrid.engine) (q : SearchQuery)
    (rows out : list Hybrid.row) :
  Hybrid.rerank_stage h q rows = Returned out →
  drop 20 out = drop 20 rows
  ∧ map Hybrid.chunk (take 20 out) ≡ₚ map Hybrid.chunk (take 20 rows)
  ∧ length out = length rows.
Proof.
  unfold Hybrid.rerank_stage.
  destruct (Hybrid.cross_encoder h) as [predict|] eqn:Ep; [|by intros [= <-]].
  destruct rows as [|r0 rows]; [by intros [= <-]|].
  remember (Nat.min 20 (length (r0 :: rows))) as n eqn:En.
  assert (Hn : take n (r0 :: rows) = take 20 (r0 :: rows)).
  { destruct (Nat.min_spec 20 (length (r0 :: rows))) as [[_ E]|[Hle E]];
      rewrite E in En; subst n; [done|]. by rewrite !take_ge by lia. }
  assert (Hd : drop n (r0 :: rows) = drop 20 (r0 :: rows)).
  { destruct (Nat.min_spec 20 (length (r0 :: rows))) as [[_ E]|[Hle E]];
      rewrite E in En; subst n; [done|]. by rewrite !drop_ge by lia. }
  unfold mbind, outcome_bind.
  destruct (Hybrid.cross_encoder_rerank h (text_query q) (take n (r0 :: rows)))
    as [head|] eqn:Eh; cbn [obind]; [|done].
  intros [= <-]. unfold Py.slice_from.
  apply cross_encoder_rerank_chunks in Eh as Hc.
  assert (Hlen : length head = n).
  { apply Permutation_length in Hc. rewrite !length_map, length_take in Hc. lia. }
  rewrite Hd. rewrite Hn in Hc.
  destruct (decide (n = 20%nat)) as [E|E].
  - split; [|split].
    + by rewrite drop_app_length' by lia.
    + by rewrite take_app_length' by lia.
    + rewrite length_app, length_drop. lia.
  - assert (Hshort : (length (r0 :: rows) < 20)%nat) by lia.
    rewrite (drop_ge (r0 :: rows)) by lia. rewrite app_nil_r.
    split; [|split].
    + apply drop_ge. lia.
    + by rewrite take_ge by lia.
    + lia.
Qed.

(** X11.  A reranker whose [predict] raises changes nothing: the
    exception is caught, the rows keep their boosted order and scores,
    and [search] answers what the engine without reranker answers. *)
Theorem search_failing_reranker (iteration : gset string -> list string)
    (now : datetime) (h : Hybrid.engine) (q : SearchQuery) (predict : Hybrid.predict_fn)
    (thr : Q) (mn mx : Z) (strict : bool) :
  Hybrid.cross_encoder h = Some predict →
  (∀ pairs, ∃ e, predict pairs = Raised e) →
  (∀ rows, Hybrid.rerank_stage h q rows = Returned rows)
  ∧ Hybrid.search iteration now h q thr mn mx strict
    = Hybrid.search iteration now (Hybrid.without_reranker h) q thr mn mx strict.
Proof.
  intros Hp Hfail.
  assert (Hstage : ∀ rows, Hybrid.rerank_stage h q rows = Returned rows).
  { intros rows. unfold Hybrid.rerank_stage, Hybrid.cross_encoder_rerank.
    rewrite Hp. destruct rows as [|r0 rows]; [done|].
    set (n := Nat.min 20 (length (r0 :: rows))).
    destruct (Hfail (map (fun r => (text_query q, text (Hybrid.chunk r)))
                       (take n (r0 :: rows)))) as [e ->].
    unfold mbind, outcome_bind. cbn [obind]. unfold Py.slice_from.
    by rewrite take_drop. }
  split; [exact Hstage|].
  unfold Hybrid.search, Hybrid.rank. rewrite Hstage. reflexivity.
Qed.

Lemma search_failing_reranker_witness :
  Hybrid.cross_encoder Sample.failing_reranker_engine
    = Some (fun _ => Raised ExternalError)
  ∧ Hybrid.search elements 0%Z Sample.failing_reranker_engine
      (Sample.plain_query "indemnity" None) 0.3 3 10 false
    = Hybrid.search elements 0%Z
        (Hybrid.without_reranker Sample.failing_reranker_engine)
        (Sample.plain_query "indemnity" None) 0.3 3 10 false.
Proof.
  split; [reflexivity|].
  refine (proj2 (search_failing_reranker elements 0%Z Sample.failing_reranker_engine
                   (Sample.plain_query "indemnity" None)
                   (fun _ => Raised ExternalError) 0.3 3 10 false _ _)).
  - reflexivity.
  - intros pairs. exists ExternalError. reflexivity.
Defined.
End RerankFacts.

Lemma rerank_stage_tail_witness :
  Hybrid.rerank_stage Sample.reranking_engine Sample.wide_query Sample.clause_rows
    = Returned Sample.reranked_clause_rows
  ∧ drop 20 Sample.reranked_clause_rows = drop 20 Sample.clause_rows
  ∧ length Sample.reranked_clause_rows = 21%nat.
Proof.
  assert (H : Hybrid.rerank_stage Sample.reranking_engine Sample.wide_query
                Sample.clause_rows = Returned Sample.reranked_clause_rows)
    by (vm_compute; reflexivity).
  split; [exact H|].
  destruct (rerank_stage_tail Sample.reranking_engine Sample.wide_query
              Sample.clause_rows Sample.reranked_clause_rows H) as (Hd & _ & Hl).
  split; [exact Hd|exact Hl].
Defined.

Section SelectionFacts.
Local Open Scope Q_scope.

Lemma is_above_spec thr r : Hybrid.is_above thr r = true ↔ thr <= Hybrid.final_score r.
Proof. unfold Hybrid.is_above. apply Qle_bool_iff. Qed.

Lemma sorted_filter {A} (R : relation A) (f : A -> bool) (l : list A) :
  StronglySorted R l → StronglySorted R (List.filter f l).
Proof. apply sorted_sublist, filter_sublist. Qed.

Lemma select_results_sorted thr mn mx strict results :
  StronglySorted (Py.descending Hybrid.final_score) results →
  StronglySorted (Py.descending Hybrid.final_score)
    (Hybrid.select_results thr mn mx strict results).
Proof.
  intros Hs. unfold Hybrid.select_results. cbv zeta.
  destruct strict; [by apply slice_to_sorted, sorted_filter|].
  destruct (_ <=? _)%Z; [by apply slice_to_sorted, sorted_filter|].
  apply slice_to_sorted, StronglySorted_app. split; [|split].
  - intros a b Ha Hb%elem_of_slice_to.
    apply list_elem_of_In, filter_In in Ha as [_ Ha].
    apply list_elem_of_In, filter_In in Hb as [_ Hb].
    apply is_above_spec in Ha. apply negb_true_iff in Hb.
    unfold Py.descending.
    destruct (Qlt_le_dec (Hybrid.final_score b) thr) as [Hlt|Hle].
    + lra.
    + apply is_above_spec in Hle. congruence.
  - by apply sorted_filter.
  - by apply slice_to_sorted, sorted_filter.
Qed.

(** X12.  In strict mode the selection ignores [min_results]: it
    returns results at or above the threshold only, in their order, at
    most [max_results] of them when that bound is not negative, and
    possibly none.  So does [search] whenever it returns. *)
Theorem select_results_strict (thr : Q) (mn mn' mx : Z)
    (results : list Hybrid.SearchResult) :
  Hybrid.select_results thr mn mx true results
    = Hybrid.select_results thr mn' mx true results
  ∧ Forall (fun r => thr <= Hybrid.final_score r)
      (Hybrid.select_results thr mn mx true results)
  ∧ Hybrid.select_results thr mn mx true results `sublist_of` results
  ∧ ((0 ≤ mx)%Z →
     (Z.of_nat (length (Hybrid.select_results thr mn mx true results)) ≤ mx)%Z)
  ∧ (Forall (fun r => Hybrid.final_score r < thr) results →
     Hybrid.select_results thr mn mx true results = [])
  ∧ ∀ iteration now h q res,
      Hybrid.search iteration now h q thr mn mx true = Returned res →
      Forall (fun r => thr <= Hybrid.final_score r) res.
Proof.
  assert (Hall : ∀ l, Forall (fun r => thr <= Hybrid.final_score r)
                        (Hybrid.select_results thr mn mx true l)).
  { intros l. apply Forall_forall. intros r Hr%elem_of_slice_to.
    apply list_elem_of_In, filter_In in Hr as [_ Hr]. by apply is_above_spec. }
  split; [done|]. split; [apply Hall|]. split; [|split; [|split]].
  - unfold Hybrid.select_results. cbv zeta.
    etrans; [apply slice_to_sublist|apply filter_sublist].
  - intros Hmx. unfold Hybrid.select_results. cbv zeta.
    rewrite slice_to_length by done. lia.
  - intros Hlow. unfold Hybrid.select_results. cbv zeta.
    assert (E : List.filter (Hybrid.is_above thr) results = []).
    { apply elem_of_nil_inv. intros r Hr.
      apply list_elem_of_In, filter_In in Hr as [Hr Ha].
      apply is_above_spec in Ha. rewrite Forall_forall in Hlow.
      apply list_elem_of_In, Hlow in Hr. lra. }
    rewrite E. unfold Py.slice_to. by destruct (0 <=? mx)%Z; rewrite take_nil.
  - intros iteration now h q res. rewrite search_unfold.
    unfold mbind, outcome_bind.
    destruct (Hybrid.rank iteration now h q _ _) as [rows|]; simpl; [|done].
    intros [= <-]. apply Hall.
Qed.
End SelectionFacts.

Section PlainRanking.
Local Open Scope Q_scope.
Variable iteration : gset string -> list string.
Variable now : datetime.

Lemma normalize_results_order rows :
  StronglySorted (Py.descending Hybrid.score) rows →
  StronglySorted (Py.descending Hybrid.score) (Hybrid.normalize_results rows).
Proof.
  intros Hs. unfold Hybrid.normalize_results.
  destruct rows as [|r0 rest]; [constructor|].
  destruct (Qpositive (Hybrid.score r0)) eqn:Ep; [|done].
  apply Qpositive_spec in Ep.
  generalize (r0 :: rest), Hs. clear Hs. intros l Hs.
  induction Hs as [|x l Hs IH Hx]; simpl; constructor; [done|].
  apply Forall_forall. intros y Hy.
  apply list_elem_of_fmap in Hy as (z & -> & Hz).
  rewrite Forall_forall in Hx. specialize (Hx z Hz).
  unfold Py.descending in *. simpl.
  unfold Qdiv. apply Qmult_le_compat_r; [done|].
  apply Qinv_le_0_compat. lra.
Qed.

Lemma to_results_order h rows :
  StronglySorted (Py.descending Hybrid.score) rows →
  StronglySorted (Py.descending Hybrid.final_score) (Hybrid.to_results h rows).
Proof.
  intros Hs. unfold Hybrid.to_results.
  induction Hs as [|x l Hs IH Hx]; simpl; [constructor|].
  destruct (BM25.get_document _ _) as [doc|]; simpl; [|done].
  constructor; [done|].
  apply Forall_forall. intros y Hy.
  apply list_elem_of_omap in Hy as (z & Hz & Ez).
  destruct (BM25.get_document _ (doc_id (Hybrid.chunk z))); [|done].
  simpl in Ez. injection Ez as <-.
  rewrite Forall_forall in Hx. by apply Hx.
Qed.

(** X13.  Without a reranker, on a lexical index whose scorer answers
    no more scores than the index has chunks (as after every
    [build_index] that returned), no read of a chunk in the lexical
    search is out of range and [search] does not raise: it returns its
    results in descending order of final score, and gives no result a
    final score above 1. *)
Theorem search_without_reranker (h : Hybrid.engine) (q : SearchQuery) (thr : Q)
    (mn mx : Z) (strict : bool) :
  Hybrid.cross_encoder h = None →
  BM25.aligned (Hybrid.bm25_engine h) →
  (∀ query top_k filter_doc_ids,
     BM25.search_outcome (Hybrid.bm25_engine h) query top_k filter_doc_ids
     = Returned (BM25.search (Hybrid.bm25_engine h) query top_k filter_doc_ids))
  ∧ ∃ res,
      Hybrid.search iteration now h q thr mn mx strict = Returned res
      ∧ StronglySorted (Py.descending Hybrid.final_score) res
      ∧ Forall (fun r => Hybrid.final_score r <= 1) res.
Proof.
  intros Hce Hal.
  split; [intros query k ids; by apply search_outcome_aligned|].
  rewrite search_unfold.
  set (bm := BM25.search_with_filters (Hybrid.bm25_engine h) q).
  set (vs := Hybrid.vector_search_with_filters h q).
  pose proof (rank_without_reranker iteration now h q bm vs Hce) as Er.
  pose proof (rank_without_reranker_top iteration now h q bm vs _ Hce Er) as Htop.
  rewrite Er. unfold mbind, outcome_bind. cbn [obind].
  set (boosted := Hybrid.apply_metadata_boosting now h
                    (Hybrid.reciprocal_rank_fusion iteration bm vs) q) in *.
  assert (Hs : StronglySorted (Py.descending Hybrid.score)
                 (Hybrid.normalize_results boosted))
    by apply normalize_results_order, apply_metadata_boosting_sorted.
  eexists. split; [reflexivity|]. split.
  - by apply select_results_sorted, to_results_order.
  - apply Forall_forall. intros r Hr%select_results_sublist.
    unfold Hybrid.to_results in Hr.
    apply list_elem_of_omap in Hr as (x & Hx & Ex).
    destruct (BM25.get_document _ _); [|done].
    simpl in Ex. injection Ex as <-. simpl.
    destruct (Hybrid.normalize_results boosted) as [|n0 nrest] eqn:En;
      [by apply elem_of_nil in Hx|].
    destruct Htop as [[_ Hall]|[H0 _]].
    + rewrite Forall_forall in Hall. by apply Hall.
    + apply StronglySorted_cons in Hs as [Hall _].
      apply elem_of_cons in Hx as [->|Hx]; [lra|].
      rewrite Forall_forall in Hall. specialize (Hall x Hx).
      unfold Py.descending in Hall. lra.
Qed.
End PlainRanking.

Lemma search_without_reranker_witness :
  Hybrid.cross_encoder Sample.lexical_engine = None
  ∧ BM25.aligned (Hybrid.bm25_engine Sample.lexical_engine)
  ∧ ∃ res,
      Hybrid.search elements 0%Z Sample.lexical_engine
        (Sample.plain_query "indemnity insurance notices" None) 0.3 3 10 false
      = Returned res
      ∧ StronglySorted (Py.descending Hybrid.final_score) res
      ∧ Forall (fun r => (Hybrid.final_score r <= 1)%Q) res.
Proof.
  assert (Ha : BM25.aligned (Hybrid.bm25_engine Sample.lexical_engine))
    by apply built_aligned.
  split; [reflexivity|]. split; [exact Ha|].
  exact (proj2 (search_without_reranker elements 0%Z Sample.lexical_engine
                  (Sample.plain_query "indemnity insurance notices" None)
                  0.3%Q 3%Z 10%Z false eq_refl Ha)).
Defined.

(** ** Search without a semantic side *)

Section DegradedSearch.
Variable iteration : gset string -> list string.
Variable now : datetime.












End DegradedSearch.



Section HighlightFacts.

Lemma collect_highlights_length room matches sentences :
  (length (Hybrid.collect_highlights room matches sentences) ≤ room)%nat.
Proof.
  revert room. induction sentences as [|s rest IH]; intros room.
  - destruct room; simpl; lia.
  - destruct room as [|room]; simpl; [lia|].
    destruct (existsb _ _); simpl.
    + specialize (IH room). lia.
    + apply (IH (S room)).
Qed.

(** X14.  [_extract_highlights] always returns between one and three
    highlights: the sentences that share a token with the query, at most
    three of them, or the first 200 characters of the chunk followed by
    three dots when the chunk and the query share no token. *)
Theorem extract_highlights_count (c : EnrichedChunk) (q : SearchQuery) :
  (1 ≤ length (Hybrid.extract_highlights c q) ≤ 3)%nat
  ∧ ((∀ t, t ∈ Tokenizer.tokenize (text_query q) → t ∉ Tokenizer.tokenize (text c)) →
     Hybrid.extract_highlights c q = [Hybrid.snippet c]).
Proof.
  unfold Hybrid.extract_highlights. cbv zeta.
  set (matches := List.filter _ _).
  split.
  - destruct matches as [|m ms]; [simpl; lia|].
    pose proof (collect_highlights_length 3 (m :: ms)
                  (Str.split Str.period_space (Tokenizer.chars (text c)))) as Hlen.
    destruct (Hybrid.collect_highlights _ _ _) as [|x xs]; simpl in *; lia.
  - intros Hno.
    assert (E : matches = []).
    { apply elem_of_nil_inv. intros t Ht.
      apply list_elem_of_In, filter_In in Ht as [Ht Hin].
      apply bool_decide_eq_true in Hin. apply list_elem_of_In in Ht.
      by apply (Hno t). }
    by rewrite E.
Qed.
End HighlightFacts.

(** ** The index manager, continued *)

Section ManagerFacts.
Variable sha256 : list ascii -> string.
Variable extract : Indexer.file -> outcome Indexer.extraction.
Variable okapi : list (list string) -> list string -> list string -> Q.
Variable SentenceTransformer : outcome Indexer.encoder.
Variable IndexFlatL2 : list Indexer.vector -> Indexer.FaissIndex.








Lemma build_index_fits docs e :
  BM25.build_raises docs = false →
  BM25.build_index okapi docs e = (Returned tt, BM25.built okapi docs).
Proof.
  unfold BM25.build_index, BM25.build_raises, BM25.built.
  destruct (flat_map _ docs) as [|c cs]; [done|].
  cbn [map]. by intros ->.
Qed.




(** X16.  There is no rollback in [remove_documents_from_folder]: when
    documents are to be removed and others remain, but the embedding
    model is not loaded and loading it fails, the call raises after the
    list of documents in memory has been cut down, while the lexical
    index, the chunks and the files on disk still hold the documents of
    the folder. *)
Theorem remove_documents_model_failure (folder : path) (w : Indexer.world) (e : exn) :
  Indexer.embedding_model (Indexer.mgr w) = None →
  SentenceTransformer = Raised e →
  Indexer.inside folder (Indexer.documents (Indexer.mgr w)) ≠ [] →
  Indexer.outside folder (Indexer.documents (Indexer.mgr w)) ≠ [] →
  Indexer.remove_documents_from_folder okapi SentenceTransformer IndexFlatL2
    folder w
  = (Raised e,
     {| Indexer.mgr :=
          Indexer.set_documents
            (Indexer.outside folder (Indexer.documents (Indexer.mgr w)))
            (Indexer.mgr w);
        Indexer.fs := Indexer.fs w |}).
Proof.
  intros Em Est Hin Hout.
  unfold Indexer.remove_documents_from_folder.
  unfold mbind, Indexer.M_bind.
  erewrite bind_run by reflexivity.
  fold (Indexer.inside folder (Indexer.documents (Indexer.mgr w))).
  fold (Indexer.outside folder (Indexer.documents (Indexer.mgr w))).
  destruct (Indexer.documents (Indexer.mgr w)) as [|d0 docs] eqn:Edocs; [done|].
  erewrite bind_run by reflexivity. cbn [negb].
  erewrite bind_run by reflexivity.
  rewrite Edocs.
  fold (Indexer.inside folder (d0 :: docs)).
  fold (Indexer.outside folder (d0 :: docs)).
  destruct (Indexer.inside folder (d0 :: docs)) as [|r0 removed]; [done|].
  destruct (Indexer.outside folder (d0 :: docs)) as [|g0 remaining]; [done|].
  erewrite bind_run by reflexivity.
  unfold Indexer.bind at 1, Indexer.initialize_models.
  unfold mbind, Indexer.M_bind, Indexer.bind, Indexer.get. cbn.
  rewrite Em, Est. reflexivity.
Qed.
End ManagerFacts.


Lemma remove_documents_model_failure_witness :
  Indexer.remove_documents_from_folder Sample.overlap (Raised ExternalError)
    Sample.flat_index ["kb"]
    {| Indexer.mgr := Indexer.set_embedding_model None
                        (Indexer.mgr Sample.loaded_world);
       Indexer.fs := Sample.empty_disk |}
  = (Raised ExternalError,
     {| Indexer.mgr :=
          Indexer.set_documents [Sample.memo]
            (Indexer.set_embedding_model None (Indexer.mgr Sample.loaded_world));
        Indexer.fs := Sample.empty_disk |}).
Proof.
  refine (remove_documents_model_failure Sample.overlap (Raised ExternalError)
            Sample.flat_index ["kb"]
            {| Indexer.mgr := Indexer.set_embedding_model None
                                (Indexer.mgr Sample.loaded_world);
               Indexer.fs := Sample.empty_disk |} ExternalError _ _ _ _).
  - reflexivity.
  - reflexivity.
  - vm_compute. discriminate.
  - vm_compute. discriminate.
Defined.

Section IndexDirectoryFacts.
Variable sha256 : list ascii -> string.
Variable okapi : list (list string) -> list string -> list string -> Q.
Variable SentenceTransformer : outcome Indexer.encoder.
Variable IndexFlatL2 : list Indexer.vector -> Indexer.FaissIndex.

Lemma initialize_models_fs w u w1 :
  Indexer.initialize_models SentenceTransformer w = (u, w1) →
  Indexer.fs w1 = Indexer.fs w.
Proof.
  unfold Indexer.initialize_models.
  unfold mbind, Indexer.M_bind, Indexer.bind, Indexer.get, Indexer.lift,
    Indexer.modify_mgr, Indexer.ret.
  destruct (Indexer.embedding_model (Indexer.mgr w)); [by intros [= _ <-]|].
  destruct SentenceTransformer; by intros [= _ <-].
Qed.

Lemma existing_documents_run w :
  (if Indexer.exists_ (Indexer.docs_file (Indexer.fs w))
   then Indexer.load_all_documents else Indexer.ret []) w
  = (Returned (Indexer.known_documents (Indexer.fs w)), w).
Proof.
  unfold Indexer.known_documents, Indexer.load_all_documents, Indexer.try_except.
  unfold mbind, Indexer.M_bind, Indexer.bind, Indexer.get.
  destruct (Indexer.docs_file (Indexer.fs w)) eqn:E; cbn; rewrite ?E; reflexivity.
Qed.

(** [index_directory] is the model check, the parsing loop over the
    documents found on disk, and the end. *)
Lemma index_directory_unfold extract target files force w :
  Indexer.index_directory sha256 extract okapi SentenceTransformer IndexFlatL2
    target files force w
  = Indexer.bind (Indexer.initialize_models SentenceTransformer)
      (fun _ w1 =>
         Indexer.finish_indexing okapi IndexFlatL2
           (Indexer.outside target
              (Indexer.stored_docs
                 (Indexer.parse_files sha256 extract target force
                    (Indexer.known_documents (Indexer.fs w1)) files)))
           (length files)
           (Indexer.parse_files sha256 extract target force
              (Indexer.known_documents (Indexer.fs w1)) files) w1) w.
Proof.
  unfold Indexer.index_directory.
  unfold mbind at 1, Indexer.M_bind.
  destruct (Indexer.initialize_models SentenceTransformer w) as [[[]|e] w1] eqn:E.
  - erewrite !(bind_run (Indexer.initialize_models SentenceTransformer)) by exact E.
    unfold mbind at 1 2, Indexer.M_bind.
    erewrite bind_run by reflexivity.
    erewrite bind_run by apply existing_documents_run.
    reflexivity.
  - by rewrite !(bind_raise _ _ _ _ _ E).
Qed.










(** A file of the folder with the content of the lease, the lease
    stored before its copy of another folder: the copy is the document
    that the loop reuses, so it is marked with the folder where it is
    kept and listed a second time, and the lease itself is dropped. *)
Example index_directory_marks_kept_copy :
  ∃ w',
    Indexer.index_directory Tokenizer.str (fun _ => Returned Sample.paragraph)
      Sample.overlap (Returned Sample.encoder) Sample.flat_index ["kb"]
      [Sample.copy_a (Tokenizer.chars "aaaaaaaaaaaa")] false
      {| Indexer.mgr := Indexer.fresh; Indexer.fs := Sample.disk_with_copies |}
    = (Returned (Indexer.Success 1 1 1 0 6), w')
    ∧ Indexer.outside ["kb"] [Sample.lease; Sample.archived_lease]
      = [Sample.archived_lease]
    ∧ Indexer.documents (Indexer.mgr w')
      = [Indexer.with_source_folder ["kb"] Sample.archived_lease;
         Indexer.with_source_folder ["kb"] Sample.archived_lease].
Proof.
  eexists. split; [vm_compute; reflexivity|]. split; reflexivity.
Qed.

Lemma foldl_insert_known (l : list StructuredDocument)
    (m : gmap string StructuredDocument) k :
  is_Some (m !! k) ∨ k ∈ Doc.file_hash <$> l →
  is_Some (foldl (fun m d => <[Doc.file_hash d := d]> m) m l !! k).
Proof.
  revert m. induction l as [|d l IH]; intros m; simpl.
  - intros [H|H%elem_of_nil]; done.
  - intros H. apply IH.
    destruct (decide (Doc.file_hash d = k)) as [<-|Hne].
    + left. rewrite lookup_insert_eq. eauto.
    + destruct H as [H|[H|H]%elem_of_cons]; [|congruence|by right].
      left. by rewrite lookup_insert_ne.
Qed.

Lemma foldl_parse_step_known extract extract' target existing removed acc files :
  (∀ f, f ∈ files → is_Some (existing !! Indexer.compute_file_hash sha256 f)) →
  foldl (Indexer.parse_step sha256 extract target false existing removed) acc files
  = foldl (Indexer.parse_step sha256 extract' target false existing removed) acc files
  ∧ Indexer.errors
      (foldl (Indexer.parse_step sha256 extract target false existing removed) acc files)
    = Indexer.errors acc
  ∧ Indexer.skipped
      (foldl (Indexer.parse_step sha256 extract target false existing removed) acc files)
    = (length files + Indexer.skipped acc)%nat.
Proof.
  revert acc. induction files as [|f files IH]; intros acc Hknown; simpl; [done|].
  destruct (Hknown f) as [d Hd]; [left|].
  assert (E : ∀ x, Indexer.parse_step sha256 x target false existing removed acc f
                   = {| Indexer.stored_docs :=
                          if bool_decide (Indexer.compute_file_hash sha256 f ∈ removed)
                          then (Indexer.mark_last target
                                  (Indexer.compute_file_hash sha256 f)
                                  (Indexer.stored_docs acc)).1
                          else Indexer.stored_docs acc;
                        Indexer.new_documents :=
                          if bool_decide (Indexer.compute_file_hash sha256 f ∈ removed)
                          then Indexer.new_documents acc
                                 ++ [Indexer.with_source_folder target d]
                          else Indexer.new_documents acc;
                        Indexer.skipped := S (Indexer.skipped acc);
                        Indexer.errors := Indexer.errors acc |}).
  { intros x. unfold Indexer.parse_step. rewrite Hd. by destruct (bool_decide _). }
  rewrite (E extract), (E extract').
  destruct (IH {| Indexer.stored_docs :=
                    if bool_decide (Indexer.compute_file_hash sha256 f ∈ removed)
                    then (Indexer.mark_last target
                            (Indexer.compute_file_hash sha256 f)
                            (Indexer.stored_docs acc)).1
                    else Indexer.stored_docs acc;
                  Indexer.new_documents :=
                    if bool_decide (Indexer.compute_file_hash sha256 f ∈ removed)
                    then Indexer.new_documents acc
                           ++ [Indexer.with_source_folder target d]
                    else Indexer.new_documents acc;
                  Indexer.skipped := S (Indexer.skipped acc);
                  Indexer.errors := Indexer.errors acc |})
    as (H1 & H2 & H3); [intros g Hg; apply Hknown; by right|].
  split; [exact H1|]. split; [exact H2|]. rewrite H3. simpl. lia.
Qed.

(** X18.  Without [force_reindex], a file whose content hash is the
    hash of a document stored on disk is never parsed: when this holds
    for every file, the run does not depend on the parser at all, counts
    every file as skipped and none as an error. *)
Theorem index_directory_known_files
    (extract extract' : Indexer.file -> outcome Indexer.extraction)
    (target : path) (files : list Indexer.file) (w : Indexer.world) :
  (∀ f, f ∈ files →
        Indexer.compute_file_hash sha256 f
        ∈ Doc.file_hash <$> Indexer.known_documents (Indexer.fs w)) →
  Indexer.index_directory sha256 extract okapi SentenceTransformer IndexFlatL2
    target files false w
  = Indexer.index_directory sha256 extract' okapi SentenceTransformer IndexFlatL2
      target files false w
  ∧ Indexer.errors
      (Indexer.parse_files sha256 extract target false
         (Indexer.known_documents (Indexer.fs w)) files) = 0%nat
  ∧ Indexer.skipped
      (Indexer.parse_files sha256 extract target false
         (Indexer.known_documents (Indexer.fs w)) files) = length files.
Proof.
  intros Hknown.
  assert (Hfold : ∀ d,
    d = Indexer.known_documents (Indexer.fs w) →
    Indexer.parse_files sha256 extract target false d files
    = Indexer.parse_files sha256 extract' target false d files
    ∧ Indexer.errors (Indexer.parse_files sha256 extract target false d files) = 0%nat
    ∧ Indexer.skipped (Indexer.parse_files sha256 extract target false d files)
      = length files).
  { intros d ->. unfold Indexer.parse_files.
    destruct (foldl_parse_step_known extract extract' target
                (foldl (fun m d => <[Doc.file_hash d := d]> m) ∅
                   (Indexer.known_documents (Indexer.fs w)))
                (list_to_set
                   (map Doc.file_hash
                      (List.filter
                         (fun d => Indexer.is_within_folder (Doc.file_path d) target)
                         (Indexer.known_documents (Indexer.fs w)))))
                {| Indexer.stored_docs := Indexer.known_documents (Indexer.fs w);
                   Indexer.new_documents := []; Indexer.skipped := 0;
                   Indexer.errors := 0 |} files) as (H1 & H2 & H3).
    { intros f Hf. apply foldl_insert_known. right. by apply Hknown. }
    split; [exact H1|]. split; [exact H2|]. rewrite H3. simpl. lia. }
  split; [|by apply Hfold].
  rewrite !index_directory_unfold. unfold Indexer.bind.
  destruct (Indexer.initialize_models SentenceTransformer w) as [[[]|e] w1] eqn:E;
    [|done].
  apply initialize_models_fs in E. rewrite E.
  by rewrite (proj1 (Hfold _ eq_refl)).
Qed.
End IndexDirectoryFacts.


Lemma index_directory_known_files_witness :
  Indexer.index_directory Tokenizer.str (fun _ => Raised ExternalError)
    Sample.overlap (Returned Sample.encoder) Sample.flat_index ["kb"]
    [Sample.copy_a (Tokenizer.chars "aaaaaaaaaaaa")] false
    {| Indexer.mgr := Indexer.fresh; Indexer.fs := Sample.disk_without_chunks |}
  = Indexer.index_directory Tokenizer.str (fun _ => Returned Sample.paragraph)
      Sample.overlap (Returned Sample.encoder) Sample.flat_index ["kb"]
      [Sample.copy_a (Tokenizer.chars "aaaaaaaaaaaa")] false
      {| Indexer.mgr := Indexer.fresh; Indexer.fs := Sample.disk_without_chunks |}.
Proof.
  apply (index_directory_known_files Tokenizer.str Sample.overlap
           (Returned Sample.encoder) Sample.flat_index
           (fun _ => Raised ExternalError) (fun _ => Returned Sample.paragraph)
           ["kb"] [Sample.copy_a (Tokenizer.chars "aaaaaaaaaaaa")]
           {| Indexer.mgr := Indexer.fresh; Indexer.fs := Sample.disk_without_chunks |}).
  intros f Hf. apply list_elem_of_singleton in Hf as ->.
  vm_compute. left.
Defined.

Section PersistenceFacts.
Variable okapi : list (list string) -> list string -> list string -> Q.
Variable SentenceTransformer : outcome Indexer.encoder.

(** X19.  [BM25SearchEngine.load_index] stores the token lists it reads
    and then rebuilds from the documents, which replaces them: whatever
    a readable corpus file holds, and also when the file is missing, the
    call ends as [build_index] on the documents does, with the token
    lists computed from their chunks.  When the rebuild does not raise the
    engine afterwards is the one built from the documents; when it raises
    (the documents have chunks, none with a token) so does the call, and
    the engine keeps the scorer it had beside the new chunks.  A corpus
    file that cannot be read makes the call raise and leaves the engine
    alone. *)
Theorem bm25_load_index_rebuilds (corpus : list (list string))
    (docs : list StructuredDocument) (w : Indexer.world) :
  Indexer.bm25_load_index okapi (Indexer.Stored corpus) docs w
    = Indexer.bm25_load_index okapi Indexer.Missing docs w
  ∧ Indexer.bm25_load_index okapi Indexer.Missing docs w
    = Indexer.bm25_build_index okapi docs w
  ∧ (BM25.build_raises docs = false →
     Indexer.bm25_load_index okapi (Indexer.Stored corpus) docs w
     = (Returned tt,
        {| Indexer.mgr :=
             Indexer.set_bm25_engine (BM25.built okapi docs) (Indexer.mgr w);
           Indexer.fs := Indexer.fs w |}))
  ∧ (BM25.build_raises docs = true →
     Indexer.bm25_load_index okapi (Indexer.Stored corpus) docs w
     = (Raised ZeroDivisionError,
        {| Indexer.mgr :=
             Indexer.set_bm25_engine
               {| BM25.bm25_index :=
                    BM25.bm25_index (Indexer.bm25_engine (Indexer.mgr w));
                  BM25.chunks := flat_map Doc.chunks docs;
                  BM25.documents := BM25.documents (BM25.built okapi docs);
                  BM25.tokenized_corpus :=
                    map (fun c => Tokenizer.tokenize (text c))
                      (flat_map Doc.chunks docs) |}
               (Indexer.mgr w);
           Indexer.fs := Indexer.fs w |}))
  ∧ BM25.tokenized_corpus
      (Indexer.bm25_engine
         (Indexer.mgr (Indexer.bm25_load_index okapi (Indexer.Stored corpus) docs w).2))
    = map (fun c => Tokenizer.tokenize (text c)) (flat_map Doc.chunks docs)
  ∧ Indexer.bm25_load_index okapi Indexer.Unreadable docs w
    = (Raised ExternalError, w).
Proof.
  assert (Hs : Indexer.Stored corpus ≠ Indexer.Unreadable) by discriminate.
  assert (Hm : @Indexer.Missing (list (list string)) ≠ Indexer.Unreadable)
    by discriminate.
  pose proof (build_index_state okapi docs (Indexer.bm25_engine (Indexer.mgr w)))
    as (Hc & Hd & Ht & Hi).
  pose proof (build_index_outcome okapi docs (Indexer.bm25_engine (Indexer.mgr w)))
    as Ho.
  rewrite (bm25_load_index_run okapi _ docs w Hs).
  rewrite (bm25_load_index_run okapi _ docs w Hm).
  split; [reflexivity|].
  split.
  { unfold Indexer.bm25_build_index. by destruct (BM25.build_index okapi docs _). }
  split.
  { intros Hfit. by rewrite (build_index_fits okapi docs _ Hfit). }
  split.
  { intros Hfit. rewrite Hfit in Ho, Hi.
    destruct (BM25.build_index okapi docs _) as [o [i cs ds ts]].
    simpl in *. by subst. }
  split; [exact Ht|].
  reflexivity.
Qed.

End PersistenceFacts.


Section VectorFacts.
Local Open Scope Q_scope.

(** The chunk that [self.chunks[idx]] reads, when the index is in
    range: a negative index counts from the end. *)
Lemma index_in_range {A} (l : list A) (i : Z) :
  (- Z.of_nat (length l) ≤ i < Z.of_nat (length l))%Z →
  ∃ x, Indexer.index l i = Returned x
       ∧ l !! Z.to_nat (if (0 <=? i)%Z then i else Z.of_nat (length l) + i)%Z = Some x.
Proof.
  intros Hi. unfold Indexer.index.
  set (j := if (0 <=? i)%Z then i else (Z.of_nat (length l) + i)%Z).
  assert (Hj : (0 ≤ j < Z.of_nat (length l))%Z).
  { unfold j. destruct (Z.leb_spec 0 i); lia. }
  destruct (Z.ltb_spec j 0); [lia|].
  destruct (l !! Z.to_nat j) as [x|] eqn:Ex; [by eauto|].
  apply lookup_ge_None in Ex. lia.
Qed.

(** X21.  [vector_search] on a manager with index and model, when no
    reported position lies before the start of the chunk list: it
    returns, and every result is a chunk of the manager at a reported
    position, where a negative position counts from the end of the chunk
    list, so that a missing neighbour reported as -1 yields the last
    chunk; the similarity is 1 over 1 plus the reported distance, the
    document filter is obeyed, the results are in descending order of
    similarity, at most [top_k] when that is not negative, and the
    similarities lie in (0, 1] when no distance is negative. *)
Theorem vector_search_results (m : Indexer.manager) (query_text : string) (top_k : Z)
    (filter_doc_ids : option (list string)) (index : Indexer.FaissIndex)
    (model : Indexer.encoder) (query_embedding : list Indexer.vector)
    (hits : list (Q * Z)) :
  Indexer.faiss_index m = Some index →
  Indexer.embedding_model m = Some model →
  model [query_text] = Returned query_embedding →
  index (default [] (head query_embedding)) (top_k * 2)%Z = Returned hits →
  Forall (fun h : Q * Z => (- Z.of_nat (length (Indexer.chunks m)) ≤ h.2)%Z) hits →
  ∃ res,
    Indexer.vector_search m query_text top_k filter_doc_ids = Returned res
    ∧ (∀ r, r ∈ res →
         ∃ h, h ∈ hits
           ∧ r.2 = 1 / (1 + h.1)
           ∧ Indexer.chunks m
               !! Z.to_nat (if (0 <=? h.2)%Z then h.2
                            else Z.of_nat (length (Indexer.chunks m)) + h.2)%Z
             = Some r.1
           ∧ ∀ ids, filter_doc_ids = Some ids → ids ≠ [] → doc_id r.1 ∈ ids)
    ∧ StronglySorted (Py.descending snd) res
    ∧ ((0 ≤ top_k)%Z → (Z.of_nat (length res) ≤ top_k)%Z)
    ∧ (Forall (fun h : Q * Z => 0 <= h.1) hits →
       ∀ r, r ∈ res → 0 < r.2 <= 1).
Proof.
  intros Hidx Hmodel Hemb Hhits Hlow.
  unfold Indexer.vector_search. rewrite Hidx, Hmodel.
  unfold mbind at 1 2, outcome_bind. rewrite Hemb. cbn [obind].
  unfold Indexer.vector in *. rewrite Hhits.
  cbn [obind].
  set (go := fix go (hs : list (Q * Z)) : outcome (list (EnrichedChunk * Q)) := _).
  assert (Hgo : ∃ out, go hits = Returned out
            ∧ ∀ r, r ∈ out →
               ∃ h, h ∈ hits
                 ∧ r.2 = 1 / (1 + h.1)
                 ∧ Indexer.chunks m
                     !! Z.to_nat (if (0 <=? h.2)%Z then h.2
                                  else Z.of_nat (length (Indexer.chunks m)) + h.2)%Z
                   = Some r.1
                 ∧ ∀ ids, filter_doc_ids = Some ids → ids ≠ [] → doc_id r.1 ∈ ids).
  { clear Hhits. induction hits as [|[dist idx] hs IH].
    - exists []. split; [done|]. by intros r ?%elem_of_nil.
    - apply Forall_cons in Hlow as [Hlo Hlow]. simpl in Hlo.
      destruct (IH Hlow) as (out & Eout & Hout).
      assert (Hmore : ∀ r, r ∈ out →
                ∃ h, h ∈ (dist, idx) :: hs
                  ∧ r.2 = 1 / (1 + h.1)
                  ∧ Indexer.chunks m
                      !! Z.to_nat (if (0 <=? h.2)%Z then h.2
                                   else Z.of_nat (length (Indexer.chunks m)) + h.2)%Z
                    = Some r.1
                  ∧ ∀ ids, filter_doc_ids = Some ids → ids ≠ [] → doc_id r.1 ∈ ids).
      { intros r Hr. destruct (Hout r Hr) as (h & Hh & Hrest).
        exists h. split; [by right|done]. }
      cbn [go]. fold go.
      destruct (Z.leb_spec (Z.of_nat (length (Indexer.chunks m))) idx) as [Hge|Hlt];
        [by eauto|].
      destruct (index_in_range (Indexer.chunks m) idx) as (c & Ec & Hc); [lia|].
      unfold mbind at 1, outcome_bind. rewrite Ec. cbn [obind].
      destruct (truthy filter_doc_ids
                && negb (bool_decide (doc_id c ∈ default [] filter_doc_ids))) eqn:Ef;
        [by eauto|].
      unfold mbind, outcome_bind. rewrite Eout. cbn [obind].
      eexists. split; [reflexivity|].
      intros r [->|Hr]%elem_of_cons; [|by apply Hmore].
      exists (dist, idx). split; [left|]. split; [done|]. split; [done|].
      intros ids -> Hne. simpl in *.
      apply andb_false_iff in Ef as [Ef|Ef]; [by destruct ids|].
      apply negb_false_iff, bool_decide_eq_true in Ef. done. }
  destruct Hgo as (out & Eout & Hout).
  unfold mbind, outcome_bind. rewrite Eout. cbn [obind].
  eexists. split; [reflexivity|].
  split; [|split; [|split]].
  - intros r Hr%elem_of_slice_to%elem_of_sort_desc. by apply Hout.
  - apply slice_to_sorted, sort_desc_sorted.
  - intros Hk. rewrite slice_to_length by done. lia.
  - intros Hpos r Hr%elem_of_slice_to%elem_of_sort_desc.
    destruct (Hout r Hr) as (h & Hh & -> & _).
    rewrite Forall_forall in Hpos. specialize (Hpos h Hh).
    split.
    + apply Qlt_shift_div_l; lra.
    + apply Qle_shift_div_r; lra.
Qed.
End VectorFacts.

Lemma vector_search_results_witness :
  Indexer.vector_search Sample.searchable "rent" 5 None
  = Returned [(Sample.chunk_of "aaaaaaaaaaaa#p1#c00" "aaaaaaaaaaaa"
                 "Tenant shall pay rent monthly", (1 # 2)%Q);
              (Sample.chunk_of "dddddddddddd#p1#c00" "dddddddddddd"
                 "Board memo on rent", (1 # 4)%Q)]
  ∧ ∃ res,
      Indexer.vector_search Sample.searchable "rent" 5 None = Returned res
      ∧ StronglySorted (Py.descending snd) res.
Proof.
  split; [vm_compute; reflexivity|].
  destruct (vector_search_results Sample.searchable "rent" 5 None
              Sample.short_index Sample.encoder [[1%Q; 0%Q]]
              [(1%Q, 0%Z); (3%Q, (-1)%Z)] eq_refl eq_refl eq_refl eq_refl)
    as (res & E & _ & Hs & _).
  { repeat constructor; vm_compute; discriminate. }
  exists res. split; [exact E|exact Hs].
Defined.

(** ** The folder list *)

Section FolderFacts.
Variable resolve : string -> string.

Lemma folders_save m : Folders.folders (Folders.save_folders m) = Folders.folders m.
Proof. unfold Folders.save_folders. by destruct (Folders.writable m). Qed.

Lemma find_updated rp (l : list Folders.folder) i e e' :
  Folders.path e' = Folders.path e →
  list_find (fun f => Folders.path f = rp) l = Some (i, e) →
  list_find (fun f => Folders.path f = rp) (<[i := e']> l) = Some (i, e').
Proof.
  intros Hp (Hi & HP & Hlt)%list_find_Some. apply list_find_Some.
  split; [|split].
  - apply list_lookup_insert_eq. by eapply lookup_lt_Some.
  - congruence.
  - intros j y Hj Hji. rewrite list_lookup_insert_ne in Hj by lia. by eapply Hlt.
Qed.

Lemma find_other_updated rp rp' (l : list Folders.folder) i e e' :
  rp' ≠ rp → Folders.path e = rp → Folders.path e' = rp →
  l !! i = Some e →
  list_find (fun f => Folders.path f = rp') (<[i := e']> l)
  = list_find (fun f => Folders.path f = rp') l.
Proof.
  intros Hne He He'. revert i. induction l as [|x l IH]; intros i Hi; [done|].
  destruct i as [|i]; simpl in *.
  - injection Hi as ->. rewrite !decide_False by congruence. done.
  - destruct (decide (Folders.path x = rp')); [done|]. by rewrite IH.
Qed.

Lemma find_appended rp (l : list Folders.folder) x :
  Folders.path x = rp →
  list_find (fun f => Folders.path f = rp) l = None →
  snd <$> list_find (fun f => Folders.path f = rp) (l ++ [x]) = Some x.
Proof.
  intros Hx Hl. rewrite list_find_app_r by done. simpl.
  by rewrite decide_True.
Qed.

Lemma find_other_appended rp' (l : list Folders.folder) x :
  Folders.path x ≠ rp' →
  list_find (fun f => Folders.path f = rp') (l ++ [x])
  = list_find (fun f => Folders.path f = rp') l.
Proof.
  intros Hx. destruct (list_find _ l) as [[i e]|] eqn:El.
  - by apply list_find_app_l.
  - rewrite list_find_app_r by done. simpl. by rewrite decide_False.
Qed.

Lemma find_other_filtered rp rp' (l : list Folders.folder) :
  rp' ≠ rp →
  snd <$> list_find (fun f => Folders.path f = rp')
            (List.filter (fun f => negb (bool_decide (Folders.path f = rp))) l)
  = snd <$> list_find (fun f => Folders.path f = rp') l.
Proof.
  intros Hne. induction l as [|x l IH]; [done|]. simpl.
  destruct (decide (Folders.path x = rp)) as [E|E].
  - rewrite bool_decide_eq_true_2 by done. simpl.
    rewrite decide_False by congruence. rewrite IH.
    by destruct (list_find _ l) as [[? ?]|].
  - rewrite bool_decide_eq_false_2 by done. simpl.
    destruct (decide (Folders.path x = rp')); [done|].
    destruct (list_find _ (List.filter _ l)) as [[? ?]|],
             (list_find _ l) as [[? ?]|]; simpl in *; congruence.
Qed.

(** X22.  After [add_folder] the folder is found under its resolved
    path with the given document count and the current time as time of
    the last indexing; it keeps its time of addition when it was tracked
    before.  The entries of other paths are found as before, and the
    list grows by one entry exactly when the path was not tracked. *)
Theorem add_folder_then_get (folder_path : string) (count : Z) (now : string)
    (m : Folders.manager) :
  (∃ f,
     Folders.get_folder resolve folder_path
       (Folders.add_folder resolve folder_path count now m) = Some f
     ∧ Folders.path f = resolve folder_path
     ∧ Folders.document_count f = count
     ∧ Folders.last_indexed f = now
     ∧ Folders.added_at f
       = match Folders.get_folder resolve folder_path m with
         | Some old => Folders.added_at old
         | None => now
         end)
  ∧ (∀ other, resolve other ≠ resolve folder_path →
       Folders.get_folder resolve other
         (Folders.add_folder resolve folder_path count now m)
       = Folders.get_folder resolve other m)
  ∧ length (Folders.folders (Folders.add_folder resolve folder_path count now m))
    = match Folders.get_folder resolve folder_path m with
      | Some _ => length (Folders.folders m)
      | None => S (length (Folders.folders m))
      end.
Proof.
  unfold Folders.add_folder, Folders.get_folder. cbv zeta.
  destruct (list_find (fun f => Folders.path f = resolve folder_path)
              (Folders.folders m)) as [[i e]|] eqn:Efind;
    rewrite !folders_save; cbn [Folders.with_folders Folders.folders fmap option_fmap option_map].
  - pose proof Efind as (Hi & HP & _)%list_find_Some.
    split; [|split].
    + rewrite (find_updated (resolve folder_path) (Folders.folders m) i e
                 {| Folders.path := Folders.path e;
                    Folders.added_at := Folders.added_at e;
                    Folders.last_indexed := now;
                    Folders.document_count := count |} eq_refl Efind).
      simpl.
      eexists. split; [reflexivity|]. simpl. done.
    + intros other Hother. rewrite ?folders_save. cbn [Folders.folders Folders.with_folders].
      by erewrite find_other_updated.
    + by rewrite length_insert.
  - split; [|split].
    + rewrite find_appended by done. eexists. split; [reflexivity|]. done.
    + intros other Hother. rewrite ?folders_save. cbn [Folders.folders Folders.with_folders].
      rewrite find_other_appended; [done|]. simpl. congruence.
    + rewrite length_app. simpl. lia.
Qed.

Lemma remove_folder_folders folder_path m :
  Folders.folders (Folders.remove_folder resolve folder_path m).2
  = List.filter (fun f => negb (bool_decide (Folders.path f = resolve folder_path)))
      (Folders.folders m).
Proof.
  unfold Folders.remove_folder. cbv zeta.
  destruct (_ <? _)%nat; simpl; [by rewrite folders_save|done].
Qed.

Lemma remove_folder_answer folder_path m :
  (Folders.remove_folder resolve folder_path m).1
  = (length (List.filter
               (fun f => negb (bool_decide (Folders.path f = resolve folder_path)))
               (Folders.folders m))
     <? length (Folders.folders m))%nat.
Proof.
  unfold Folders.remove_folder. cbv zeta.
  cbn [Folders.with_folders Folders.folders]. by destruct (_ <? _)%nat.
Qed.

(** X23.  [remove_folder] answers [True] exactly when the resolved path
    was tracked; afterwards the path is not found, whatever the answer,
    and the entries of other paths are found as before.  An answer
    [False] leaves the list as it was. *)
Theorem remove_folder_then_get (folder_path : string) (m : Folders.manager) :
  ((Folders.remove_folder resolve folder_path m).1 = true
   ↔ is_Some (Folders.get_folder resolve folder_path m))
  ∧ Folders.get_folder resolve folder_path
      (Folders.remove_folder resolve folder_path m).2 = None
  ∧ (∀ other, resolve other ≠ resolve folder_path →
       Folders.get_folder resolve other (Folders.remove_folder resolve folder_path m).2
       = Folders.get_folder resolve other m)
  ∧ ((Folders.remove_folder resolve folder_path m).1 = false →
     Folders.folders (Folders.remove_folder resolve folder_path m).2
     = Folders.folders m).
Proof.
  unfold Folders.get_folder.
  rewrite remove_folder_folders, remove_folder_answer.
  set (kept := List.filter _ (Folders.folders m)).
  assert (Hlt : (length kept < length (Folders.folders m))%nat
                ↔ is_Some (list_find (fun f => Folders.path f = resolve folder_path)
                             (Folders.folders m))).
  { unfold kept. rewrite filter_length_lt. split.
    - intros (x & Hx & Ex). apply negb_false_iff, bool_decide_eq_true in Ex.
      by eapply list_find_elem_of.
    - intros [[i x] (Hi & HP & _)%list_find_Some]. exists x.
      split; [by eapply list_elem_of_lookup_2|].
      apply negb_false_iff. by apply bool_decide_eq_true_2. }
  split; [|split; [|split]].
  - rewrite fmap_is_Some, <- Hlt.
    destruct (Nat.ltb_spec (length kept) (length (Folders.folders m)));
      split; (done || lia).
  - assert (E : list_find (fun f => Folders.path f = resolve folder_path) kept = None);
      [|by rewrite E].
    apply list_find_None, Forall_forall. intros x Hx.
    apply list_elem_of_In, filter_In in Hx as [_ Hx].
    by apply negb_true_iff, bool_decide_eq_false in Hx.
  - intros other Hother. by apply find_other_filtered.
  - destruct (Nat.ltb_spec (length kept) (length (Folders.folders m))) as [H|H];
      [done|]. intros _.
    apply filter_all. intros x Hx.
    destruct (negb _) eqn:Ex; [done|]. exfalso.
    assert ((length kept < length (Folders.folders m))%nat); [|lia].
    apply filter_length_lt. eauto.
Qed.

Lemma filter_fmap_sublist {A B} (f : A -> B) (p : A -> bool) (l : list A) :
  f <$> List.filter p l `sublist_of` f <$> l.
Proof.
  induction l as [|x l IH]; simpl; [done|].
  destruct (p x); simpl; by constructor.
Qed.

Lemma save_folders_storage m :
  Folders.storage (Folders.save_folders m)
  = if Folders.writable m then Indexer.Stored (Folders.folders m)
    else Folders.storage m.
Proof. unfold Folders.save_folders. by destruct (Folders.writable m). Qed.

Lemma add_folder_storage folder_path count now m :
  Folders.storage (Folders.add_folder resolve folder_path count now m)
  = if Folders.writable m
    then Indexer.Stored
           (Folders.folders (Folders.add_folder resolve folder_path count now m))
    else Folders.storage m.
Proof.
  unfold Folders.add_folder. cbv zeta.
  destruct (list_find _ _) as [[i e]|];
    rewrite save_folders_storage, folders_save; reflexivity.
Qed.

Lemma remove_folder_storage folder_path m :
  Folders.storage (Folders.remove_folder resolve folder_path m).2
  = if (Folders.remove_folder resolve folder_path m).1 && Folders.writable m
    then Indexer.Stored (Folders.folders (Folders.remove_folder resolve folder_path m).2)
    else Folders.storage m.
Proof.
  unfold Folders.remove_folder. cbv zeta.
  cbn [Folders.with_folders Folders.folders].
  destruct (_ <? _)%nat; cbn [fst snd andb]; [|done].
  rewrite save_folders_storage, folders_save. reflexivity.
Qed.

(** X24.  The paths of the tracked folders stay pairwise distinct under
    [add_folder], [remove_folder] and [clear_all].  With a writable file
    each of them leaves the file holding the list that is in memory
    (except a [remove_folder] that found nothing, which does not write),
    so that a new manager on that file starts with the same list; with a
    file that cannot be written the failure is swallowed and the file is
    left as it was. *)
Theorem folders_invariants (folder_path : string) (count : Z) (now : string)
    (m : Folders.manager) :
  (NoDup (Folders.path <$> Folders.folders m) →
   NoDup (Folders.path
            <$> Folders.folders (Folders.add_folder resolve folder_path count now m))
   ∧ NoDup (Folders.path
              <$> Folders.folders (Folders.remove_folder resolve folder_path m).2))
  ∧ (Folders.writable m = true →
     Folders.folders
       (Folders.init
          (Folders.storage (Folders.add_folder resolve folder_path count now m)) true)
     = Folders.folders (Folders.add_folder resolve folder_path count now m)
     ∧ ((Folders.remove_folder resolve folder_path m).1 = true →
        Folders.folders
          (Folders.init
             (Folders.storage (Folders.remove_folder resolve folder_path m).2) true)
        = Folders.folders (Folders.remove_folder resolve folder_path m).2)
     ∧ Folders.folders (Folders.init (Folders.storage (Folders.clear_all m)) true) = [])
  ∧ (Folders.writable m = false →
     Folders.storage (Folders.add_folder resolve folder_path count now m)
     = Folders.storage m
     ∧ Folders.storage (Folders.remove_folder resolve folder_path m).2
       = Folders.storage m
     ∧ Folders.storage (Folders.clear_all m) = Folders.storage m)
  ∧ Folders.folders (Folders.clear_all m) = [].
Proof.
  split; [|split; [|split]].
  - intros Hnd. split.
    + unfold Folders.add_folder. cbv zeta.
      destruct (list_find _ _) as [[i e]|] eqn:Efind; rewrite folders_save;
        cbn [Folders.with_folders Folders.folders].
      * apply list_find_Some in Efind as (Hi & HP & _).
        rewrite list_fmap_insert. simpl.
        rewrite list_insert_id; [done|]. by rewrite list_lookup_fmap, Hi.
      * rewrite fmap_app. simpl. apply NoDup_app. split; [done|].
        split; [|apply NoDup_singleton].
        intros x Hx ->%list_elem_of_singleton.
        apply list_elem_of_fmap in Hx as (f & Hf & Hin).
        apply list_find_None in Efind. rewrite Forall_forall in Efind.
        by apply (Efind f Hin).
    + rewrite remove_folder_folders.
      eapply sublist_NoDup; [exact Hnd|apply filter_fmap_sublist].
  - intros Hw. split; [|split].
    + by rewrite add_folder_storage, Hw.
    + intros Hr. by rewrite remove_folder_storage, Hr, Hw.
    + unfold Folders.clear_all. rewrite save_folders_storage.
      cbn [Folders.with_folders Folders.writable Folders.folders]. by rewrite Hw.
  - intros Hw. split; [|split].
    + by rewrite add_folder_storage, Hw.
    + by rewrite remove_folder_storage, Hw, andb_false_r.
    + unfold Folders.clear_all. rewrite save_folders_storage.
      cbn [Folders.with_folders Folders.writable Folders.storage]. by rewrite Hw.
  - unfold Folders.clear_all. by rewrite folders_save.
Qed.
End FolderFacts.

(** ** Paging and chunking *)

Section PagingFacts.

Lemma join_cons sep (p : list ascii) ps :
  ps ≠ [] → Str.join sep (p :: ps) = p ++ sep ++ Str.join sep ps.
Proof. by destruct ps. Qed.

Lemma join_app sep (a b : list (list ascii)) :
  a ≠ [] → b ≠ [] →
  Str.join sep (a ++ b) = Str.join sep a ++ sep ++ Str.join sep b.
Proof.
  intros Ha Hb. induction a as [|x a IH]; [done|].
  destruct a as [|y a].
  - simpl app. by rewrite join_cons.
  - change ((x :: y :: a) ++ b) with (x :: ((y :: a) ++ b)).
    rewrite !join_cons by done. rewrite IH by done.
    by rewrite <- !app_assoc.
Qed.

Lemma split_go_nonempty sep skip cur s : Str.split_go sep skip cur s ≠ [].
Proof.
  revert skip cur. induction s as [|c s IH]; intros skip cur; simpl; [done|].
  destruct skip; [|apply IH].
  destruct (Re.strip_prefix sep (c :: s)); [done|apply IH].
Qed.

Lemma split_newline_step cur c s :
  Str.split_go Str.newline 0 cur (c :: s)
  = if Ascii.eqb (ascii_of_N 10) c
    then rev cur :: Str.split_go Str.newline 0 [] s
    else Str.split_go Str.newline 0 (c :: cur) s.
Proof.
  unfold Str.newline. cbn -[Ascii.eqb ascii_of_N].
  by destruct (Ascii.eqb (ascii_of_N 10) c).
Qed.

Lemma split_newline_join cur s :
  Str.join Str.newline (Str.split_go Str.newline 0 cur s) = rev cur ++ s.
Proof.
  revert cur. induction s as [|c s IH]; intros cur.
  - simpl. by rewrite app_nil_r.
  - rewrite split_newline_step.
    destruct (Ascii.eqb (ascii_of_N 10) c) eqn:E.
    + apply Ascii.eqb_eq in E as <-.
      rewrite join_cons by apply split_go_nonempty.
      rewrite IH. reflexivity.
    + rewrite IH. simpl. by rewrite <- app_assoc.
Qed.

Lemma pages_go_nil chars_per_page cur len lines :
  Parser.pages_go chars_per_page cur len lines = [] → cur = [] ∧ lines = [].
Proof.
  revert cur len. induction lines as [|line rest IH]; intros cur len; simpl.
  - by destruct cur.
  - destruct (_ <=? _)%Z; [done|]. intros H. by apply IH in H as [? _].
Qed.

Lemma pages_go_join chars_per_page cur len lines :
  Str.join Str.newline (Parser.pages_go chars_per_page cur len lines)
  = Str.join Str.newline (rev cur ++ lines).
Proof.
  revert cur len. induction lines as [|line rest IH]; intros cur len; simpl.
  - rewrite app_nil_r. by destruct cur.
  - assert (E : rev cur ++ line :: rest = rev (line :: cur) ++ rest)
      by (simpl; by rewrite <- app_assoc).
    rewrite E. destruct (_ <=? _)%Z; [|apply IH].
    assert (Hne : rev (line :: cur) ≠ []).
    { simpl. by destruct (rev cur). }
    destruct rest as [|l2 rest].
    + simpl Parser.pages_go. by rewrite app_nil_r.
    + rewrite join_cons.
      * rewrite IH. change (rev [] ++ l2 :: rest) with (l2 :: rest).
        rewrite (join_app _ (rev (line :: cur)) (l2 :: rest)) by done.
        reflexivity.
      * intros H. by apply pages_go_nil in H as [_ ?].
Qed.

Lemma join_snoc_length sep (l : list (list ascii)) x :
  (length (Str.join sep l) + length x ≤ length (Str.join sep (l ++ [x])))%nat.
Proof.
  destruct l as [|y l]; [simpl; lia|].
  rewrite join_app by done. rewrite !length_app. simpl. lia.
Qed.

Lemma pages_go_full chars_per_page cur len lines i page :
  (len ≤ Z.of_nat (length (Str.join Str.newline (rev cur))))%Z →
  Parser.pages_go chars_per_page cur len lines !! i = Some page →
  (S i < length (Parser.pages_go chars_per_page cur len lines))%nat →
  (chars_per_page ≤ Z.of_nat (length page))%Z.
Proof.
  revert cur len i. induction lines as [|line rest IH]; intros cur len i Hlen; simpl.
  - destruct cur; simpl; [done|]. intros _ ?. lia.
  - pose proof (join_snoc_length Str.newline (rev cur) line) as Hj.
    destruct (Z.leb_spec chars_per_page (len + Z.of_nat (length line))) as [Hge|Hlt].
    + destruct i as [|i]; simpl.
      * intros [= <-] _. lia.
      * intros Hi Hl. eapply (IH [] 0%Z i); [simpl; lia|exact Hi|lia].
    + apply IH. simpl. lia.
Qed.

(** X25.  [_split_text_into_pages] loses nothing: joining the pages
    with newlines gives back the text, whatever the page size; and every
    page but the last has at least [chars_per_page] characters. *)
Theorem split_text_into_pages_round_trip (text : list ascii) (chars_per_page : Z) :
  Str.join Str.newline (Parser.split_text_into_pages text chars_per_page) = text
  ∧ ∀ i page,
      Parser.split_text_into_pages text chars_per_page !! i = Some page →
      (S i < length (Parser.split_text_into_pages text chars_per_page))%nat →
      (chars_per_page ≤ Z.of_nat (length page))%Z.
Proof.
  unfold Parser.split_text_into_pages, Str.split. split.
  - rewrite pages_go_join. simpl. apply split_newline_join.
  - intros i page. apply pages_go_full. simpl. lia.
Qed.
End PagingFacts.

Section ChunkingFacts.

Lemma rfind_go_bound sub s i best :
  (-1 ≤ best < Z.of_nat i)%Z ∨ best = (-1)%Z →
  (-1 ≤ Str.rfind_go sub s i best < Z.of_nat (i + length s))%Z
  ∨ Str.rfind_go sub s i best = (-1)%Z.
Proof.
  revert i best. induction s as [|c s IH]; intros i best Hb; simpl.
  - destruct Hb; [left; lia|by right].
  - destruct (IH (S i) (match Re.strip_prefix sub (c :: s) with
                        | Some _ => Z.of_nat i | None => best end)) as [H|H].
    + destruct (Re.strip_prefix sub (c :: s)); [left; lia|].
      destruct Hb; [left; lia|by right].
    + left. lia.
    + by right.
Qed.

Lemma rfind_bound sub s : (-1 ≤ Str.rfind sub s < Z.max 0 (Z.of_nat (length s)))%Z
                          ∨ Str.rfind sub s = (-1)%Z.
Proof.
  unfold Str.rfind. destruct (rfind_go_bound sub s 0 (-1)) as [H|H]; [by right| |by right].
  left. lia.
Qed.

Lemma slice_length {A} (a size : Z) (l : list A) :
  (0 ≤ size)%Z → (Z.of_nat (length (Py.slice a (a + size) l)) ≤ size)%Z.
Proof.
  intros Hs. unfold Py.slice, Py.clamp. rewrite length_take, length_drop.
  destruct (Z.ltb_spec a 0), (Z.ltb_spec (a + size) 0); lia.
Qed.

Lemma slice_from_start {A} (a size : Z) (l : list A) :
  (0 ≤ a < Z.of_nat (length l))%Z → (0 < size)%Z →
  Py.slice a (a + size) l ≠ [].
Proof.
  intros Ha Hs. unfold Py.slice, Py.clamp.
  destruct (Z.ltb_spec a 0), (Z.ltb_spec (a + size) 0); try lia.
  intros E. apply (f_equal length) in E.
  rewrite length_take, length_drop in E. simpl in E. lia.
Qed.

(** Where one turn of the loop ends, and how long its chunk is. *)
Lemma cut_bounds text size start :
  (0 ≤ size)%Z →
  (start < (Parser.cut text size start).2 ∧ 2 * (Parser.cut text size start).2 > 2 * start + size
   ∨ (Parser.cut text size start).2 = start + size)%Z
  ∧ ((Parser.cut text size start).2 ≤ start + size)%Z
  ∧ (Z.of_nat (length (Parser.cut text size start).1) ≤ size)%Z.
Proof.
  intros Hs. unfold Parser.cut. cbv zeta.
  pose proof (slice_length start size text Hs) as Hlen.
  set (chunk := Py.slice start (start + size) text) in *.
  destruct (_ <? Z.of_nat (length text))%Z; [|cbn [fst snd]; lia].
  set (bp := Z.max _ _).
  assert (Hbp : (bp < Z.of_nat (length chunk) ∨ bp = -1)%Z).
  { unfold bp.
    destruct (rfind_bound Str.period_space chunk), (rfind_bound Str.newline chunk); lia. }
  destruct (Z.ltb_spec size (2 * bp)) as [Hlt|Hge]; cbn [fst snd]; [|lia].
  split; [left; lia|]. split; [lia|].
  pose proof (slice_length 0 (bp + 1) chunk ltac:(lia)) as H0.
  rewrite Z.add_0_l in H0. lia.
Qed.

Lemma lstrip_length s : (length (Str.lstrip s) ≤ length s)%nat.
Proof.
  induction s as [|c s IH]; simpl; [lia|].
  destruct (Re.is_space c); simpl; lia.
Qed.

Lemma strip_length s : (length (Str.strip s) ≤ length s)%nat.
Proof.
  unfold Str.strip. rewrite length_rev.
  pose proof (lstrip_length (rev (Str.lstrip s))) as H1.
  pose proof (lstrip_length s) as H2. rewrite length_rev in H1. lia.
Qed.

Lemma chunk_loop_returns fuel text size overlap start :
  (0 < size)%Z → (2 * overlap ≤ size)%Z → (0 ≤ start)%Z →
  (Z.max 0 (Z.of_nat (length text) - start) < Z.of_nat fuel)%Z →
  ∃ chunks,
    Parser.chunk_loop fuel text size overlap start = Some chunks
    ∧ Forall (fun c => (Z.of_nat (length c) ≤ size)%Z) chunks.
Proof.
  intros Hsize Hover. revert start.
  induction fuel as [|fuel IH]; intros start Hstart Hfuel; [lia|].
  simpl. destruct (Z.ltb_spec start (Z.of_nat (length text))) as [Hlt|Hge];
    [|by eauto].
  destruct (cut_bounds text size start ltac:(lia)) as (Hend & _ & Hlen).
  destruct (Parser.cut text size start) as [chunk end_]. simpl in *.
  destruct (IH (end_ - overlap)%Z) as (rest & -> & Hrest); [lia|lia|].
  simpl. eexists. split; [reflexivity|].
  constructor; [|done]. pose proof (strip_length chunk). lia.
Qed.

Lemma chunk_loop_more_fuel fuel k text size overlap start chunks :
  Parser.chunk_loop fuel text size overlap start = Some chunks →
  Parser.chunk_loop (fuel + k) text size overlap start = Some chunks.
Proof.
  revert start chunks. induction fuel as [|fuel IH]; intros start chunks; [done|].
  simpl. destruct (_ <? _)%Z; [|done].
  destruct (Parser.cut text size start) as [chunk end_].
  destruct (Parser.chunk_loop fuel text size overlap (end_ - overlap)) as [rest|] eqn:E;
    [|done].
  by rewrite (IH _ _ E).
Qed.

(** X26.  With a positive chunk size and an overlap of at most half of
    it, the loop of [_chunk_text] ends after at most one turn per
    character of the text: every run with more turns allowed than the
    text has characters returns the same list, whose chunks are not empty
    and not longer than the chunk size. *)
Theorem chunk_text_terminates (text : list ascii) (size overlap : Z) :
  (0 < size)%Z → (2 * overlap ≤ size)%Z →
  ∃ chunks,
    (∀ fuel, (length text < fuel)%nat →
       Parser.chunk_text fuel text size overlap = Some chunks)
    ∧ Forall (fun c => c ≠ [] ∧ (Z.of_nat (length c) ≤ size)%Z) chunks.
Proof.
  intros Hsize Hover. unfold Parser.chunk_text.
  destruct (Str.strip text) as [|c0 cs]; [exists []; by split|].
  destruct (chunk_loop_returns (S (length text)) text size overlap 0)
    as (chunks & E & Hall); [done|done|lia|lia|].
  exists (List.filter Parser.nonempty chunks). split.
  - intros fuel Hfuel.
    replace fuel with (S (length text) + (fuel - S (length text)))%nat by lia.
    by rewrite (chunk_loop_more_fuel _ _ _ _ _ _ _ E).
  - apply Forall_forall. intros c Hc.
    apply list_elem_of_In, filter_In in Hc as [Hc Hne].
    split; [by destruct c|].
    rewrite Forall_forall in Hall. by apply Hall, list_elem_of_In.
Qed.

Lemma chunk_loop_never_ends fuel text size overlap start :
  (0 ≤ size)%Z → (size ≤ overlap)%Z → (start ≤ 0)%Z → text ≠ [] →
  Parser.chunk_loop fuel text size overlap start = None.
Proof.
  intros Hsize Hover. revert start.
  induction fuel as [|fuel IH]; intros start Hstart Htext; [done|].
  simpl. destruct (Z.ltb_spec start (Z.of_nat (length text))) as [Hlt|Hge].
  - destruct (cut_bounds text size start Hsize) as (_ & Hend & _).
    destruct (Parser.cut text size start) as [chunk end_]. simpl in *.
    rewrite IH; [done|lia|done].
  - destruct text; [done|]. simpl in Hge. lia.
Qed.

(** X27.  With an overlap that is not smaller than the chunk size the
    loop of [_chunk_text] never ends on a text that is not blank: the
    start of the next chunk never moves forward, so no number of turns
    is enough. *)
Theorem chunk_text_never_ends (text : list ascii) (size overlap : Z) (fuel : nat) :
  (0 ≤ size)%Z → (size ≤ overlap)%Z → Str.strip text ≠ [] →
  Parser.chunk_text fuel text size overlap = None.
Proof.
  intros Hsize Hover Htext. unfold Parser.chunk_text.
  destruct (Str.strip text) as [|c cs] eqn:E; [done|].
  rewrite chunk_loop_never_ends; [done|done|done|lia|].
  intros ->. discriminate E.
Qed.
End ChunkingFacts.

Lemma chunk_text_terminates_witness :
  (0 < 512)%Z ∧ (2 * 50 ≤ 512)%Z
  ∧ ∃ chunks,
      (∀ fuel, (length (Tokenizer.chars "Tenant shall pay rent. Notices go to the landlord.")
                < fuel)%nat →
         Parser.chunk_text fuel
           (Tokenizer.chars "Tenant shall pay rent. Notices go to the landlord.")
           512 50 = Some chunks)
      ∧ Forall (fun c => c ≠ [] ∧ (Z.of_nat (length c) ≤ 512)%Z) chunks.
Proof.
  assert (H1 : (0 < 512)%Z) by lia.
  assert (H2 : (2 * 50 ≤ 512)%Z) by lia.
  split; [exact H1|]. split; [exact H2|].
  exact (chunk_text_terminates
           (Tokenizer.chars "Tenant shall pay rent. Notices go to the landlord.")
           512 50 H1 H2).
Defined.

Lemma chunk_text_never_ends_witness :
  (0 ≤ 4)%Z ∧ (4 ≤ 4)%Z
  ∧ Str.strip (Tokenizer.chars "pay rent") ≠ []
  ∧ Parser.chunk_text 1000 (Tokenizer.chars "pay rent") 4 4 = None.
Proof.
  assert (H1 : (0 ≤ 4)%Z) by lia.
  assert (H2 : (4 ≤ 4)%Z) by lia.
  assert (H3 : Str.strip (Tokenizer.chars "pay rent") ≠ [])
    by (vm_compute; discriminate).
  split; [exact H1|]. split; [exact H2|]. split; [exact H3|].
  exact (chunk_text_never_ends (Tokenizer.chars "pay rent") 4 4 1000 H1 H2 H3).
Defined.
